(** * Photo Size Reducer: the resize engine, embedded and verified

    The development embeds the dimension computation, the size estimator and
    the target-size search of [photo_reducer.py] (the Tk application) and
    [resize_image] of [cli_photo_reducer.py] (the command line tool).

    Python [float] is IEEE 754 binary64; it is modelled by [spec_float] with
    the operations of [SpecFloat] at precision 53, so every rounding of the
    source is reproduced bit for bit and every definition computes.  Python
    [int] is [Z].  Pillow, [os.path] and the Tk geometry are outside the
    repository: they are parameters of the model.

    Main results, for [calculate_dimensions] (the specification's [solve]):
    the fast path stores the original size after a single estimate; a
    target of zero or less is refused and changes nothing; a search makes
    up to ten estimates in its loop, all at 10 pixels or more per axis:
    ten when each returns a size, after which it reports with up to three
    more, and fewer when one raises, after which nothing is stored; the
    size it stores lies between the 10 pixel floor and the larger of the
    floor and the original.  For the dimension computation shared by the
    command line tool, the worker thread and the estimator: it truncates,
    it can compute a zero side, which Pillow then refuses, and only the
    estimator clamps to the original.

    Further results cover the rest of the two files: the preview refresh
    and the mode switch (they never raise and keep every setting), the
    navigation between previews, the selection dialogs, the size label,
    the quality slider, the remaining paths of [calculate_dimensions], the
    best-of-ten property of its search, the validation of
    [process_images] and the accounting of its worker thread, and [main]
    of the command line tool with its exit status. *)

From Stdlib Require Import ZArith Bool List String Lia.
From Stdlib Require Import Floats.SpecFloat.
Import ListNotations.
Local Open Scope Z_scope.

(** ** Exceptions and the error monad *)

(** The exception classes the embedded code can meet.  All of them derive
    from Python's [Exception]. *)
Inductive exn_class :=
| ZeroDivisionError
| ValueError
| OverflowError
| IndexError
| AttributeError
| OSError
| OtherException.

(** An exception object; [exn_msg] is what [str(e)] returns. *)
Record exn := mk_exn { exn_cls : exn_class; exn_msg : string }.

Inductive result (A : Type) :=
| Ok (a : A)
| Raise (e : exn).
Arguments Ok {A} a.
Arguments Raise {A} e.

Definition rbind {A B} (r : result A) (k : A -> result B) : result B :=
  match r with
  | Ok a => k a
  | Raise e => Raise e
  end.

Declare Scope result_scope.
Delimit Scope result_scope with result.
Notation "x <- r ;; k" := (rbind r (fun x => k))
  (at level 61, r at next level, right associativity) : result_scope.
Notation "' pat <- r ;; k" := (rbind r (fun x => match x with pat => k end))
  (at level 61, pat pattern, r at next level, right associativity) : result_scope.

Definition is_value_error (e : exn) : bool :=
  match exn_cls e with ValueError => true | _ => false end.

Definition is_value_or_attribute_error (e : exn) : bool :=
  match exn_cls e with ValueError | AttributeError => true | _ => false end.

(** ** Python floats *)

Module PyFloat.

Definition prec : Z := 53.
Definition emax : Z := 1024.

Definition float := spec_float.

(** Conversion of an [int] operand in mixed arithmetic.  It is exact up to
    2^53 in absolute value and rounds to nearest even beyond; CPython
    raises [OverflowError] where this gives an infinity (above 1.8e308),
    far beyond any pixel or byte count. *)
Definition of_int (z : Z) : float := binary_normalize prec emax z 0 false.

Definition add : float -> float -> float := SFadd prec emax.
Definition sub : float -> float -> float := SFsub prec emax.
Definition mul : float -> float -> float := SFmul prec emax.
Definition abs : float -> float := SFabs.

Definition is_zero (x : float) : bool :=
  match x with S754_zero _ => true | _ => false end.

(** [x / y] on floats: only a zero divisor raises. *)
Definition truediv (x y : float) : result float :=
  if is_zero y
  then Raise (mk_exn ZeroDivisionError "float division by zero")
  else Ok (SFdiv prec emax x y).

(** [a / b] on two ints (true division).  The quotient of the two
    converted operands is the correctly rounded quotient whenever both
    are at most 2^53 in absolute value. *)
Definition int_truediv (a b : Z) : result float :=
  if b =? 0
  then Raise (mk_exn ZeroDivisionError "division by zero")
  else Ok (SFdiv prec emax (of_int a) (of_int b)).

Definition ltb : float -> float -> bool := SFltb.
Definition leb : float -> float -> bool := SFleb.
Definition gtb (x y : float) : bool := SFltb y x.

(** [int(x)]: truncation toward zero. *)
Definition to_int (x : float) : result Z :=
  match x with
  | S754_zero _ => Ok 0
  | S754_finite s m e => Ok (cond_Zopp s (Z.shiftl (Zpos m) e))
  | S754_infinity _ =>
      Raise (mk_exn OverflowError "cannot convert float infinity to integer")
  | S754_nan =>
      Raise (mk_exn ValueError "cannot convert float NaN to integer")
  end.

(** [round(x)]: the nearest integer, ties to even.  The program never
    calls it; it is here to state the specification's wording. *)
Definition round (x : float) : result Z :=
  match x with
  | S754_zero _ => Ok 0
  | S754_finite s m e =>
      if 0 <=? e then Ok (cond_Zopp s (Zpos m * 2 ^ e))
      else
        let n := Zpos m / 2 ^ (- e) in
        let rem := Zpos m mod 2 ^ (- e) in
        let half := 2 ^ (- e - 1) in
        Ok (cond_Zopp s
              (match rem ?= half with
               | Gt => n + 1
               | Eq => if Z.odd n then n + 1 else n
               | Lt => n
               end))
  | S754_infinity _ =>
      Raise (mk_exn OverflowError "cannot convert float infinity to integer")
  | S754_nan =>
      Raise (mk_exn ValueError "cannot convert float NaN to integer")
  end.

Definition zero : float := S754_zero false.
Definition inf : float := S754_infinity false.

(** The literals of the search: [0.01], [1.0] and [0.5]. *)
Definition lit_0_01 : float := S754_finite false 5764607523034235 (-59).
Definition lit_1_0 : float := S754_finite false 4503599627370496 (-52).
Definition lit_0_5 : float := S754_finite false 4503599627370496 (-53).

End PyFloat.

Import PyFloat.
Local Open Scope result_scope.

(** ** The engine *)

(** Encoders the estimator selects by file extension. *)
Inductive Format := JPEG | PNG | GIF.

(** Message boxes, one constructor per call site. *)
Inductive dialog :=
| Warning_NoImage
    (* showwarning "No Image": "Please select an image first." *)
| Error_InvalidSize_Target
    (* showerror "Invalid Size": "Target size must be greater than 0 KB." *)
| Info_NoResizingNeeded (initial_size : float)
    (* showinfo "No Resizing Needed" *)
| Info_DimensionsCalculated (new_width new_height : Z) (estimate : float)
    (* showinfo "Dimensions Calculated" *)
| Error_InvalidInput
    (* showerror "Invalid Input": "Please enter a valid number for target size." *)
| Error_PreviewError (e : exn)
    (* showerror "Preview Error" *)
| Warning_NoInput
    (* showwarning "No Input": "Please select images to resize." *)
| Warning_NoOutput
    (* showwarning "No Output": "Please select an output directory." *)
| Error_InvalidSize_Positive
    (* showerror "Invalid Size": "Width and height must be positive numbers." *)
| Error_InvalidSize_Number
    (* showerror "Invalid Size": "Width and height must be valid numbers." *)
| Error_ProcessingError (e : exn)
    (* showerror "Processing Error" *)
| Info_Complete (processed total : Z)
    (* showinfo "Complete" *).

Section Engine.

(** *** Pillow and the operating system *)

(** A decoded image ([PIL.Image.Image]) with its [width] and [height]. *)
Variable Image : Type.
Variable width height : Image -> Z.

(** [Image.open(path)]. *)
Variable Image_open : string -> result Image.
(** [img.resize((w, h), Image.LANCZOS)]. *)
Variable Image_resize : Image -> Z * Z -> result Image.
(** [img.save(path)] and [img.save(path, quality=q)]. *)
Variable Image_save : Image -> string -> option Z -> result unit.
(** [img.save(buffer, format=f)] or [img.save(buffer, format=f, quality=q)]
    on a fresh [io.BytesIO], followed by [buffer.tell()]. *)
Variable Image_save_buffer : Image -> Format -> option Z -> result Z.
(** [os.path.splitext(path)[1].lower()]. *)
Variable ext_lower : string -> string.
(** [os.path.getsize(path)]. *)
Variable getsize : string -> result Z.
(** [os.path.join(output_dir, f"{name}_resized{ext}")] where
    [name, ext = os.path.splitext(os.path.basename(img_path))]. *)
Variable resized_path : string -> string -> string.

Definition is_jpeg_ext (ext : string) : bool :=
  (ext =? ".jpg")%string || (ext =? ".jpeg")%string.

(** *** [cli_photo_reducer.py] *)

(** "Determine new dimensions" of [resize_image]. *)
Definition resize_image_dimensions (img : Image) (width_ height_ : Z)
    (maintain_aspect_ratio_ : bool) : result (Z * Z) :=
  if maintain_aspect_ratio_ then
    img_ratio <- int_truediv (width img) (height img) ;;
    if gtb img_ratio (of_int 1) then
      (* Landscape orientation *)
      q <- truediv (of_int width_) img_ratio ;;
      new_height <- to_int q ;;
      Ok (width_, new_height)
    else
      (* Portrait or square orientation *)
      new_width <- to_int (mul (of_int height_) img_ratio) ;;
      Ok (new_width, height_)
  else Ok (width_, height_).

(** The body of the [try] of [resize_image]. *)
Definition resize_image_body (input_path output_path : string)
    (width_ height_ : Z) (maintain_aspect_ratio_ : bool) (quality : Z)
    : result unit :=
  img <- Image_open input_path ;;
  dims <- resize_image_dimensions img width_ height_ maintain_aspect_ratio_ ;;
  resized_img <- Image_resize img dims ;;
  if is_jpeg_ext (ext_lower input_path)
  then Image_save resized_img output_path (Some quality)
  else Image_save resized_img output_path None.

(** [resize_image]: the pair [(success, error_message)]. *)
Definition resize_image (input_path output_path : string)
    (width_ height_ : Z) (maintain_aspect_ratio_ : bool) (quality : Z)
    : bool * option string :=
  match resize_image_body input_path output_path width_ height_
          maintain_aspect_ratio_ quality with
  | Ok _ => (true, None)
  | Raise e => (false, Some (exn_msg e))
  end.

(** *** [photo_reducer.py]: the state of [PhotoReducerApp] *)

(** A [StringVar] bound to an entry is held as the value the conversion
    applied to its text returns: [Some v] when [int(text)] (for the width
    and the height) or [float(text)] (for the target size) returns [v],
    [None] when the conversion raises [ValueError].  [set(str(n))] stores
    [Some n]. *)
Record App := mkApp {
  input_files : list string;
  output_dir : string;
  width_var : option Z;
  height_var : option Z;
  maintain_aspect_ratio : bool;
  quality_var : Z;
  target_size_kb_var : option float;
  size_mode : bool;            (* True = target size in KB, False = dimensions *)
  current_preview_index : nat;
  current_img : option Image;
  (* the widgets the embedded methods write *)
  file_size_label : option float;   (* "Estimated size: x KB", or "" *)
  preview_canvas_size : Z * Z;      (* winfo_width(), winfo_height() *)
  after_update_preview : nat;       (* pending root.after(100, update_preview) *)
  dialogs : list dialog;            (* message boxes shown, oldest first *)
  (* ghost: the arguments of every call of estimate_file_size, oldest first *)
  estimator_calls : list (Z * Z * Z)
}.

Definition set_width_var (v : option Z) (a : App) : App :=
  mkApp (input_files a) (output_dir a) v (height_var a)
    (maintain_aspect_ratio a) (quality_var a) (target_size_kb_var a)
    (size_mode a) (current_preview_index a) (current_img a)
    (file_size_label a) (preview_canvas_size a) (after_update_preview a)
    (dialogs a) (estimator_calls a).

Definition set_height_var (v : option Z) (a : App) : App :=
  mkApp (input_files a) (output_dir a) (width_var a) v
    (maintain_aspect_ratio a) (quality_var a) (target_size_kb_var a)
    (size_mode a) (current_preview_index a) (current_img a)
    (file_size_label a) (preview_canvas_size a) (after_update_preview a)
    (dialogs a) (estimator_calls a).

Definition set_size_mode (v : bool) (a : App) : App :=
  mkApp (input_files a) (output_dir a) (width_var a) (height_var a)
    (maintain_aspect_ratio a) (quality_var a) (target_size_kb_var a)
    v (current_preview_index a) (current_img a)
    (file_size_label a) (preview_canvas_size a) (after_update_preview a)
    (dialogs a) (estimator_calls a).

Definition set_current_img (v : option Image) (a : App) : App :=
  mkApp (input_files a) (output_dir a) (width_var a) (height_var a)
    (maintain_aspect_ratio a) (quality_var a) (target_size_kb_var a)
    (size_mode a) (current_preview_index a) v
    (file_size_label a) (preview_canvas_size a) (after_update_preview a)
    (dialogs a) (estimator_calls a).

Definition set_file_size_label (v : option float) (a : App) : App :=
  mkApp (input_files a) (output_dir a) (width_var a) (height_var a)
    (maintain_aspect_ratio a) (quality_var a) (target_size_kb_var a)
    (size_mode a) (current_preview_index a) (current_img a)
    v (preview_canvas_size a) (after_update_preview a)
    (dialogs a) (estimator_calls a).

Definition schedule_update_preview (a : App) : App :=
  mkApp (input_files a) (output_dir a) (width_var a) (height_var a)
    (maintain_aspect_ratio a) (quality_var a) (target_size_kb_var a)
    (size_mode a) (current_preview_index a) (current_img a)
    (file_size_label a) (preview_canvas_size a) (S (after_update_preview a))
    (dialogs a) (estimator_calls a).

Definition show (d : dialog) (a : App) : App :=
  mkApp (input_files a) (output_dir a) (width_var a) (height_var a)
    (maintain_aspect_ratio a) (quality_var a) (target_size_kb_var a)
    (size_mode a) (current_preview_index a) (current_img a)
    (file_size_label a) (preview_canvas_size a) (after_update_preview a)
    (dialogs a ++ [d]) (estimator_calls a).

Definition record_call (c : Z * Z * Z) (a : App) : App :=
  mkApp (input_files a) (output_dir a) (width_var a) (height_var a)
    (maintain_aspect_ratio a) (quality_var a) (target_size_kb_var a)
    (size_mode a) (current_preview_index a) (current_img a)
    (file_size_label a) (preview_canvas_size a) (after_update_preview a)
    (dialogs a) (estimator_calls a ++ [c]).

(** Methods run on the application object: state passing, where an
    exception leaves the mutations made before it in place. *)
Definition M (A : Type) : Type := App -> result A * App.

Definition ret {A} (x : A) : M A := fun a => (Ok x, a).
Definition raise {A} (e : exn) : M A := fun a => (Raise e, a).
Definition lift {A} (r : result A) : M A := fun a => (r, a).
Definition bind {A B} (m : M A) (k : A -> M B) : M B :=
  fun a =>
    match m a with
    | (Ok x, a') => k x a'
    | (Raise e, a') => (Raise e, a')
    end.
Definition get : M App := fun a => (Ok a, a).
Definition modify (f : App -> App) : M unit := fun a => (Ok tt, f a).

(** [try: m except <classes accepted by catches>: handler]. *)
Definition try_except {A} (m : M A) (catches : exn -> bool)
    (handler : exn -> M A) : M A :=
  fun a =>
    match m a with
    | (Ok x, a') => (Ok x, a')
    | (Raise e, a') => if catches e then handler e a' else (Raise e, a')
    end.

Definition any_exception (e : exn) : bool := true.

Declare Scope app_scope.
Delimit Scope app_scope with app.
Notation "x <-- m ; k" := (bind m (fun x => k))
  (at level 61, m at next level, right associativity) : app_scope.
Notation "m ;; k" := (bind m (fun _ => k))
  (at level 61, right associativity) : app_scope.

Local Open Scope app_scope.

(** [xs[i]] for a non-negative index. *)
Definition index {A} (xs : list A) (i : nat) : result A :=
  match nth_error xs i with
  | Some x => Ok x
  | None => Raise (mk_exn IndexError "list index out of range")
  end.

(** [int(var.get())] and [float(var.get())] on an entry variable. *)
Definition entry_value {A} (v : option A) (msg : string) : result A :=
  match v with
  | Some x => Ok x
  | None => Raise (mk_exn ValueError msg)
  end.

(** *** [estimate_file_size] *)

(** The dimensions [estimate_file_size] resizes to: the aspect computation
    followed by "Don't allow dimensions greater than original". *)
Definition estimate_dimensions (img : Image) (maintain : bool)
    (width_ height_ : Z) : result (Z * Z) :=
  (img_ratio <- int_truediv (width img) (height img) ;;
   '(new_width, new_height) <-
      (if maintain then
         if gtb img_ratio (of_int 1) then
           (* Landscape orientation *)
           q <- truediv (of_int width_) img_ratio ;;
           new_height <- to_int q ;;
           Ok (width_, new_height)
         else
           (* Portrait or square orientation *)
           new_width <- to_int (mul (of_int height_) img_ratio) ;;
           Ok (new_width, height_)
       else Ok (width_, height_)) ;;
   Ok (Z.min new_width (width img), Z.min new_height (height img)))%result.

(** The encoder and the quality argument chosen from the extension. *)
Definition buffer_encoder (ext : string) (quality : Z) : Format * option Z :=
  if is_jpeg_ext ext then (JPEG, Some quality)
  else if (ext =? ".png")%string then (PNG, None)
  else if (ext =? ".gif")%string then (GIF, None)
  else (JPEG, Some quality).

(** [estimate_file_size] past its guard, on the loaded image: resize in
    memory, encode into a buffer, return the size in KB. *)
Definition estimate (img : Image) (files : list string) (idx : nat)
    (maintain : bool) (width_ height_ quality : Z) : result float :=
  (dims <- estimate_dimensions img maintain width_ height_ ;;
   resized_img <- Image_resize img dims ;;
   file_path <- index files idx ;;
   let '(fmt, q) := buffer_encoder (ext_lower file_path) quality in
   tell <- Image_save_buffer resized_img fmt q ;;
   int_truediv tell 1024)%result.

Definition estimate_file_size (width_ height_ quality : Z) : M float :=
  modify (record_call (width_, height_, quality)) ;;
  a <-- get ;
  match current_img a with
  | None => ret zero
  | Some img =>
      lift (estimate img (input_files a) (current_preview_index a)
              (maintain_aspect_ratio a) width_ height_ quality)
  end.

(** *** [update_file_size_estimate], [update_preview], [toggle_mode] *)

Definition update_file_size_estimate : M unit :=
  try_except
    (a <-- get ;
     width_ <-- lift (entry_value (width_var a) "invalid literal for int()") ;
     height_ <-- lift (entry_value (height_var a) "invalid literal for int()") ;
     let quality := quality_var a in
     size_kb <-- estimate_file_size width_ height_ quality ;
     modify (set_file_size_label (Some size_kb)))
    is_value_or_attribute_error
    (fun _ => modify (set_file_size_label None)).

(** The drawing calls on the canvas and [ImageTk.PhotoImage] leave the
    modelled state alone; what remains of them is the resize for the
    display and [os.path.getsize], which can raise. *)
Definition update_preview : M unit :=
  a0 <-- get ;
  match input_files a0 with
  | [] => ret tt
  | _ :: _ =>
      try_except
        (img_path <-- lift (index (input_files a0) (current_preview_index a0)) ;
         img <-- lift (Image_open img_path) ;
         modify (set_current_img (Some img)) ;;
         let preview_width := fst (preview_canvas_size a0) - 10 in
         let preview_height := snd (preview_canvas_size a0) - 10 in
         if (preview_width <=? 1) || (preview_height <=? 1) then
           (* Canvas not yet properly sized, retry after a short delay *)
           modify schedule_update_preview
         else
           img_ratio <-- lift (int_truediv (width img) (height img)) ;
           preview_ratio <-- lift (int_truediv preview_width preview_height) ;
           display <-- lift
             (if gtb img_ratio preview_ratio then
                (q <- truediv (of_int preview_width) img_ratio ;;
                 display_height <- to_int q ;;
                 Ok (preview_width, display_height))%result
              else
                (display_width <- to_int (mul (of_int preview_height) img_ratio) ;;
                 Ok (display_width, preview_height))%result) ;
           img_preview <-- lift (Image_resize img display) ;
           file_size_bytes <-- lift (getsize img_path) ;
           a1 <-- get ;
           (* If in dimension mode, update estimated file size *)
           if negb (size_mode a1) then update_file_size_estimate else ret tt)
        any_exception
        (fun e => modify (show (Error_PreviewError e)))
  end.

(** The [grid] and [grid_remove] calls only move widgets. *)
Definition toggle_mode : M unit :=
  a <-- get ;
  match current_img a with
  | Some _ => update_preview
  | None => ret tt
  end.

(** *** [calculate_dimensions] *)

(** The variables of the binary search. *)
Record search := mkSearch {
  min_scale : float;
  max_scale : float;
  best_scale : float;
  best_diff : float
}.

Definition search_init : search :=
  mkSearch lit_0_01 lit_1_0 lit_0_5 inf.

(** One turn of [for _ in range(10)]. *)
Definition search_iteration (original_width original_height quality : Z)
    (target_kb : float) (s : search) : M search :=
  scale <-- lift (truediv (add (min_scale s) (max_scale s)) (of_int 2)) ;
  test_width <-- lift (to_int (mul (of_int original_width) scale)) ;
  test_height <-- lift (to_int (mul (of_int original_height) scale)) ;
  (* Ensure minimum dimensions of 10x10 *)
  let test_width := Z.max 10 test_width in
  let test_height := Z.max 10 test_height in
  size_kb <-- estimate_file_size test_width test_height quality ;
  let diff := abs (sub size_kb target_kb) in
  let s1 :=
    if ltb diff (best_diff s)
    then mkSearch (min_scale s) (max_scale s) scale diff
    else s in
  ret (if gtb size_kb target_kb
       then mkSearch (min_scale s1) scale (best_scale s1) (best_diff s1)
       else mkSearch scale (max_scale s1) (best_scale s1) (best_diff s1)).

Fixpoint search_loop (n : nat) (original_width original_height quality : Z)
    (target_kb : float) (s : search) : M search :=
  match n with
  | O => ret s
  | S n' =>
      s' <-- search_iteration original_width original_height quality target_kb s ;
      search_loop n' original_width original_height quality target_kb s'
  end.

Definition calculate_dimensions : M unit :=
  a <-- get ;
  match current_img a, input_files a with
  | Some img, _ :: _ =>
      try_except
        (target_kb <-- lift (entry_value (target_size_kb_var a)
                               "could not convert string to float") ;
         if leb target_kb (of_int 0) then
           modify (show Error_InvalidSize_Target)
         else
           (* Start with original dimensions *)
           let original_width := width img in
           let original_height := height img in
           (* Initial quality *)
           let quality := quality_var a in
           (* Calculate initial size estimate *)
           initial_size <-- estimate_file_size original_width original_height quality ;
           (* If original is already smaller than target, keep original *)
           if leb initial_size target_kb then
             modify (set_width_var (Some original_width)) ;;
             modify (set_height_var (Some original_height)) ;;
             modify (show (Info_NoResizingNeeded initial_size))
           else
             (* Binary search to find appropriate scaling factor *)
             s <-- search_loop 10 original_width original_height quality
                     target_kb search_init ;
             (* Apply best scale *)
             w <-- lift (to_int (mul (of_int original_width) (best_scale s))) ;
             let new_width := Z.max 10 w in
             h <-- lift (to_int (mul (of_int original_height) (best_scale s))) ;
             let new_height := Z.max 10 h in
             (* Set the new values *)
             modify (set_width_var (Some new_width)) ;;
             modify (set_height_var (Some new_height)) ;;
             (* Show manual dimensions mode *)
             modify (set_size_mode false) ;;
             toggle_mode ;;
             (* Update preview *)
             update_preview ;;
             est <-- estimate_file_size new_width new_height quality ;
             modify (show (Info_DimensionsCalculated new_width new_height est)))
        is_value_error
        (fun _ => modify (show Error_InvalidInput))
  | _, _ => modify (show Warning_NoImage)
  end.

(** *** [process_images] and its worker *)

(** [process_images] up to the start of the worker thread: [Some (w, h)]
    are the arguments the thread is started with, [None] means that no
    thread was started. *)
Definition process_images : M (option (Z * Z)) :=
  a <-- get ;
  match input_files a with
  | [] => modify (show Warning_NoInput) ;; ret None
  | _ :: _ =>
      if (output_dir a =? "")%string then
        modify (show Warning_NoOutput) ;; ret None
      else
        try_except
          (width_ <-- lift (entry_value (width_var a) "invalid literal for int()") ;
           height_ <-- lift (entry_value (height_var a) "invalid literal for int()") ;
           if (width_ <=? 0) || (height_ <=? 0) then
             modify (show Error_InvalidSize_Positive) ;; ret None
           else ret (Some (width_, height_)))
          is_value_error
          (fun _ => modify (show Error_InvalidSize_Number) ;; ret None)
  end.

(** "Determine new dimensions" of [_process_images_thread]. *)
Definition thread_dimensions (img : Image) (maintain : bool)
    (width_ height_ : Z) : result (Z * Z) :=
  (if maintain then
     img_ratio <- int_truediv (width img) (height img) ;;
     if gtb img_ratio (of_int 1) then
       (* Landscape orientation *)
       q <- truediv (of_int width_) img_ratio ;;
       new_height <- to_int q ;;
       Ok (width_, new_height)
     else
       (* Portrait or square orientation *)
       new_width <- to_int (mul (of_int height_) img_ratio) ;;
       Ok (new_width, height_)
   else Ok (width_, height_))%result.

(** [print(log_message)], the last statement of the [try]: the message is
    built from the file name, the two sizes in pixels and the two file
    sizes, and contains an arrow (U+2192); writing it raises when the
    encoding of [sys.stdout] lacks that character. *)
Variable print_log : string -> Z * Z -> Z * Z -> Z -> Z -> result unit.

(** What one file's [try] has done when it reaches [processed += 1]: the
    original size, the size written and the two file sizes. *)
Record saved := mkSaved {
  saved_original : Z * Z;
  saved_dims : Z * Z;
  saved_original_size : Z;
  saved_new_size : Z
}.

(** The body of the [try] for one path, up to [processed += 1]. *)
Definition process_save (a : App) (img_path : string)
    (width_ height_ quality : Z) : result saved :=
  (img <- Image_open img_path ;;
   original_size <- getsize img_path ;;
   dims <- thread_dimensions img (maintain_aspect_ratio a) width_ height_ ;;
   resized_img <- Image_resize img dims ;;
   let output_file := resized_path (output_dir a) img_path in
   _ <- (if is_jpeg_ext (ext_lower img_path)
         then Image_save resized_img output_file (Some quality)
         else Image_save resized_img output_file None) ;;
   new_size <- getsize output_file ;;
   Ok (mkSaved (width img, height img) dims original_size new_size))%result.

(** One turn of the [for] loop: [counted] holds the dimensions written
    when [processed += 1] was reached, [raised] the exception the [except]
    clause caught.  Both are set when the file was written and the log
    line after it raised. *)
Record attempt := mkAttempt {
  counted : option (Z * Z);
  raised : option exn
}.

Definition process_one (a : App) (img_path : string)
    (width_ height_ quality : Z) : attempt :=
  match process_save a img_path width_ height_ quality with
  | Raise e => mkAttempt None (Some e)
  | Ok s =>
      match print_log img_path (saved_original s) (saved_dims s)
              (saved_original_size s) (saved_new_size s) with
      | Ok _ => mkAttempt (Some (saved_dims s)) None
      | Raise e => mkAttempt (Some (saved_dims s)) (Some e)
      end
  end.

(** What the thread hands to [root.after(0, ...)]: lambdas that open a
    message box when Tk runs them, in the main thread.  The one for an
    error is created inside the [except] clause and builds its text from
    [img_path] and [e] as they are when it runs; once the clause has ended
    [e] is unbound.  Running the callbacks is not part of the model, and
    the callbacks that only move the progress bar are left out. *)
Inductive callback :=
| Scheduled_ProcessingError (e : exn)
    (* lambda: messagebox.showerror("Processing Error", ...), created while
       [e] was the exception caught *)
| Scheduled_Complete (processed total : Z)
    (* lambda: messagebox.showinfo("Complete",
       "Successfully processed {processed} of {total_files} images.") *).

(** What a run of the thread leaves behind. *)
Record Batch := mkBatch {
  batch_processed : Z;
  batch_written : list (string * (Z * Z));
  batch_scheduled : list callback
}.

(** The loop of [_process_images_thread] on the application as it is while
    the thread runs; the thread reads it and does not write it. *)
Fixpoint process_loop (a : App) (files : list string)
    (width_ height_ quality : Z) (processed : Z)
    (done : list (string * (Z * Z))) (scheduled : list callback) : Batch :=
  match files with
  | [] => mkBatch processed done scheduled
  | img_path :: rest =>
      let r := process_one a img_path width_ height_ quality in
      let processed :=
        match counted r with
        | Some _ => processed + 1
        | None => processed
        end in
      let done :=
        match counted r with
        | Some dims => done ++ [(img_path, dims)]
        | None => done
        end in
      let scheduled :=
        match raised r with
        | Some e => scheduled ++ [Scheduled_ProcessingError e]
        | None => scheduled
        end in
      process_loop a rest width_ height_ quality processed done scheduled
  end.

Definition _process_images_thread (width_ height_ : Z) (a : App) : Batch :=
  let total_files := Z.of_nat (List.length (input_files a)) in
  let quality := quality_var a in
  let r := process_loop a (input_files a) width_ height_ quality 0 [] [] in
  mkBatch (batch_processed r) (batch_written r)
    (batch_scheduled r ++ [Scheduled_Complete (batch_processed r) total_files]).

(** *** Selection and navigation *)

Definition set_input_files (v : list string) (a : App) : App :=
  mkApp v (output_dir a) (width_var a) (height_var a)
    (maintain_aspect_ratio a) (quality_var a) (target_size_kb_var a)
    (size_mode a) (current_preview_index a) (current_img a)
    (file_size_label a) (preview_canvas_size a) (after_update_preview a)
    (dialogs a) (estimator_calls a).

Definition set_output_dir (v : string) (a : App) : App :=
  mkApp (input_files a) v (width_var a) (height_var a)
    (maintain_aspect_ratio a) (quality_var a) (target_size_kb_var a)
    (size_mode a) (current_preview_index a) (current_img a)
    (file_size_label a) (preview_canvas_size a) (after_update_preview a)
    (dialogs a) (estimator_calls a).

Definition set_current_preview_index (v : nat) (a : App) : App :=
  mkApp (input_files a) (output_dir a) (width_var a) (height_var a)
    (maintain_aspect_ratio a) (quality_var a) (target_size_kb_var a)
    (size_mode a) v (current_img a)
    (file_size_label a) (preview_canvas_size a) (after_update_preview a)
    (dialogs a) (estimator_calls a).

(** [select_images]; [file_paths] is what [askopenfilenames] returned, empty
    when the dialog was cancelled.  The text of [file_count_label] is not
    part of the state. *)
Definition select_images (file_paths : list string) : M unit :=
  match file_paths with
  | [] => ret tt
  | _ :: _ =>
      modify (set_input_files file_paths) ;;
      modify (set_current_preview_index 0%nat) ;;
      update_preview
  end.

(** [select_output_dir]; [dir_path] is what [askdirectory] returned. *)
Definition select_output_dir (dir_path : string) : M unit :=
  if (dir_path =? "")%string then ret tt
  else modify (set_output_dir dir_path).

(** [(i + step) % n] on the preview index, with Python's non-negative
    remainder for a positive [n]. *)
Definition wrap_index (i : nat) (step : Z) (n : nat) : nat :=
  Z.to_nat ((Z.of_nat i + step) mod Z.of_nat n).

Definition show_previous_preview : M unit :=
  a <-- get ;
  match input_files a with
  | [] => ret tt
  | _ :: _ =>
      modify (set_current_preview_index
                (wrap_index (current_preview_index a) (-1)
                   (List.length (input_files a)))) ;;
      update_preview
  end.

Definition show_next_preview : M unit :=
  a <-- get ;
  match input_files a with
  | [] => ret tt
  | _ :: _ =>
      modify (set_current_preview_index
                (wrap_index (current_preview_index a) 1
                   (List.length (input_files a)))) ;;
      update_preview
  end.

(** [on_quality_change]: the scale has stored the new value in
    [quality_var] already; the text of [quality_label] is not part of the
    state. *)
Definition on_quality_change : M unit :=
  a <-- get ;
  match current_img a with
  | Some _ =>
      if negb (size_mode a) then update_file_size_estimate else ret tt
  | None => ret tt
  end.

(** *** [cli_photo_reducer.py]: [main] *)

(** [os.path.isdir], [glob.glob], [os.path.exists], [os.makedirs],
    [os.path.join], [os.path.basename] and [os.path.splitext]. *)
Variable isdir : string -> bool.
Variable glob : string -> list string.
Variable path_exists : string -> bool.
Variable makedirs : string -> result unit.
Variable join : string -> string -> string.
Variable basename : string -> string.
Variable splitext : string -> string * string.

(** The parsed command line. *)
Record Args := mkArgs {
  arg_input : string;
  arg_output : string;
  arg_width : Z;
  arg_height : Z;
  arg_no_aspect_ratio : bool;
  arg_quality : Z;
  arg_suffix : string
}.

(** What [main] prints, one constructor per [print]. *)
Inductive line :=
| Line_NoInput                          (* "Error: No input images found." *)
| Line_Found (n : nat)                  (* "Found {n} image(s) to process" *)
| Line_TargetSize (w h : Z)             (* "Target size: {w}x{h} pixels" *)
| Line_MaintainAspect (yes : bool)      (* "Maintaining aspect ratio: Yes/No" *)
| Line_Quality (q : Z)                  (* "JPEG quality: {q}" *)
| Line_Rule                             (* "---" *)
| Line_Processing (i n : nat) (name : string)
                                        (* "[{i}/{n}] Processing: {name}... " *)
| Line_Done                             (* "Done" *)
| Line_Error (error : option string)    (* "Error: {error}" *)
| Line_Complete (succeeded failed : Z)
                       (* "Processing complete: {s} succeeded, {f} failed" *)
| Line_SavedTo (output : string).       (* "Resized images saved to: {output}" *)

(** [s.upper()] on an ASCII string. *)
Definition upper_ascii (c : Ascii.ascii) : Ascii.ascii :=
  let n := Ascii.nat_of_ascii c in
  if ((97 <=? n) && (n <=? 122))%nat then Ascii.ascii_of_nat (n - 32) else c.

Fixpoint upper (s : string) : string :=
  match s with
  | EmptyString => EmptyString
  | String c rest => String (upper_ascii c) (upper rest)
  end.

(** [c in s] for a one character string [c]. *)
Definition contains (c s : string) : bool :=
  match String.index 0 c s with
  | Some _ => true
  | None => false
  end.

Definition image_patterns : list string :=
  ["*.jpg"; "*.jpeg"; "*.png"; "*.bmp"; "*.gif"; "*.tiff"]%string.

(** "Validate input path": the paths [main] will process. *)
Definition input_paths (args : Args) : list string :=
  if isdir (arg_input args) then
    (* If input is a directory, process all images in it *)
    flat_map (fun ext => glob (join (arg_input args) ext)
                         ++ glob (join (arg_input args) (upper ext)))
             image_patterns
  else if contains "*" (arg_input args) || contains "?" (arg_input args) then
    (* Input is a wildcard pattern *)
    glob (arg_input args)
  else
    (* Input is a single file *)
    [arg_input args].

(** "Create output path": [os.path.join(args.output,
    f"{name}{args.suffix}{ext}")]. *)
Definition main_output_path (args : Args) (input_path : string) : string :=
  let base := basename input_path in
  let '(name, ext) := splitext base in
  join (arg_output args) (name ++ arg_suffix args ++ ext)%string.

(** "Process the image": the call of [resize_image] for one path. *)
Definition main_resize (args : Args) (input_path : string)
    : bool * option string :=
  resize_image input_path (main_output_path args input_path)
    (arg_width args) (arg_height args)
    (negb (arg_no_aspect_ratio args)) (arg_quality args).

(** [success] of that call. *)
Definition resized_ok (args : Args) (input_path : string) : bool :=
  fst (main_resize args input_path).

(** The [for] loop of [main] from position [i] on: the two counters and
    the lines printed. *)
Fixpoint main_loop (args : Args) (paths : list string) (i n : nat)
    (success_count error_count : Z) : Z * Z * list line :=
  match paths with
  | [] => (success_count, error_count, [])
  | input_path :: rest =>
      let base := basename input_path in
      let '(success, error) := main_resize args input_path in
      let '(s, e, lines) :=
        if success
        then main_loop args rest (S i) n (success_count + 1) error_count
        else main_loop args rest (S i) n success_count (error_count + 1) in
      (s, e,
       Line_Processing i n base
         :: (if success then Line_Done else Line_Error error) :: lines)
  end.

(** One run of [main]: the exit status (or the exception that escapes),
    the lines printed and the directories created. *)
Record Run := mkRun {
  exit_status : result Z;
  printed : list line;
  created : list string
}.

Definition main (args : Args) : Run :=
  let paths := input_paths args in
  match paths with
  | [] => mkRun (Ok 1) [Line_NoInput] []
  | _ :: _ =>
      (* Make sure output directory exists *)
      let made :=
        if path_exists (arg_output args) then Ok []
        else (_ <- makedirs (arg_output args) ;; Ok [arg_output args])%result in
      match made with
      | Raise e => mkRun (Raise e) [] []
      | Ok dirs =>
          let n := List.length paths in
          let maintain_aspect_ratio_ := negb (arg_no_aspect_ratio args) in
          let '(success_count, error_count, lines) :=
            main_loop args paths 1 n 0 0 in
          mkRun (Ok (if error_count =? 0 then 0 else 1))
            ([Line_Found n;
              Line_TargetSize (arg_width args) (arg_height args);
              Line_MaintainAspect maintain_aspect_ratio_;
              Line_Quality (arg_quality args);
              Line_Rule]
             ++ lines
             ++ [Line_Rule; Line_Complete success_count error_count]
             ++ (if 0 <? success_count
                 then [Line_SavedTo (arg_output args)] else []))
            dirs
      end
  end.

End Engine.

Arguments input_files {Image} a.
Arguments output_dir {Image} a.
Arguments width_var {Image} a.
Arguments height_var {Image} a.
Arguments maintain_aspect_ratio {Image} a.
Arguments quality_var {Image} a.
Arguments target_size_kb_var {Image} a.
Arguments size_mode {Image} a.
Arguments current_preview_index {Image} a.
Arguments current_img {Image} a.
Arguments file_size_label {Image} a.
Arguments preview_canvas_size {Image} a.
Arguments after_update_preview {Image} a.
Arguments dialogs {Image} a.
Arguments estimator_calls {Image} a.
Arguments set_width_var {Image} v a.
Arguments set_height_var {Image} v a.
Arguments set_size_mode {Image} v a.
Arguments set_current_img {Image} v a.
Arguments set_file_size_label {Image} v a.
Arguments schedule_update_preview {Image} a.
Arguments show {Image} d a.
Arguments record_call {Image} c a.
Arguments set_input_files {Image} v a.
Arguments set_output_dir {Image} v a.
Arguments set_current_preview_index {Image} v a.
Arguments ret {Image A} x a.
Arguments lift {Image A} r a.
Arguments bind {Image A B} m k a.
Arguments get {Image} a.
Arguments modify {Image} f a.
Arguments try_except {Image A} m catches handler a.

(** ** The specification's Resizer, in its own words

    [resize_box] of the specification, section 4.1, with the rounding it
    names left as a parameter: [ratio = W / H]; if [ratio > 1] then
    [NW = TW], [NH = rnd (TW / ratio)], else [NH = TH],
    [NW = rnd (TH * ratio)]; without aspect preservation the box itself. *)
Definition spec_resize_box (rnd : float -> result Z) (W H TW TH : Z)
    (preserve_aspect : bool) : result (Z * Z) :=
  (if preserve_aspect then
     ratio <- int_truediv W H ;;
     if gtb ratio (of_int 1) then
       q <- truediv (of_int TW) ratio ;;
       NH <- rnd q ;;
       Ok (TW, NH)
     else
       NW <- rnd (mul (of_int TH) ratio) ;;
       Ok (NW, TH)
   else Ok (TW, TH))%result.

(** ** Auxiliary definitions for the proofs *)

(** The value of a finite float [m * 2^e] is at most the integer [K]. *)
Definition val_le (m e K : Z) : Prop :=
  m * 2 ^ (e + Z.max 0 (- e)) <= K * 2 ^ Z.max 0 (- e).

(** A positive float that is at most one. *)
Definition unit_scale (s : float) : bool :=
  match s with
  | S754_finite false m e => (e <? 0) && (Zpos m <=? 2 ^ (- e))
  | _ => false
  end.

(** [(min_scale + max_scale) / 2]. *)
Definition mid (lo hi : float) : float :=
  SFdiv prec emax (add lo hi) (of_int 2).

(** Every pair [(min_scale, max_scale)] the search can hold after [k]
    iterations: each iteration keeps one half of the interval. *)
Fixpoint bounds_after (k : nat) : list (float * float) :=
  match k with
  | O => [(lit_0_01, lit_1_0)]
  | S k' =>
      flat_map (fun p => [(fst p, mid (fst p) (snd p));
                          (mid (fst p) (snd p), snd p)])
               (bounds_after k')
  end.

Definition mids_unit (k : nat) : bool :=
  forallb (fun p => unit_scale (mid (fst p) (snd p))) (bounds_after k).

(** What one shift of [shr] does to the mantissa and to the two sticky
    bits, over [k] positions. *)
Definition shr_spec (k : Z) (x y : shr_record) : Prop :=
  shr_m y = shr_m x / 2 ^ k /\
  (shr_r y || shr_s y = true ->
   shr_r x || shr_s x = true \/ shr_m x mod 2 ^ k <> 0).

(** The float is not a negative number. *)
Definition not_negative (x : float) : Prop :=
  match x with
  | S754_finite true _ _ => False
  | _ => True
  end.

(** The application after further estimator calls [cs]. *)
Definition record_calls {Image} (cs : list (Z * Z * Z)) (a : App Image)
    : App Image :=
  mkApp Image (input_files a) (output_dir a) (width_var a) (height_var a)
    (maintain_aspect_ratio a) (quality_var a) (target_size_kb_var a)
    (size_mode a) (current_preview_index a) (current_img a)
    (file_size_label a) (preview_canvas_size a) (after_update_preview a)
    (dialogs a) (estimator_calls a ++ cs).

(** From [b] to [b'] the two dimension entries are untouched and at most
    [n] estimator calls were added. *)
Definition keeps_result {Image} (n : nat) (b b' : App Image) : Prop :=
  width_var b' = width_var b /\
  height_var b' = height_var b /\
  exists cs, estimator_calls b' = estimator_calls b ++ cs /\
             (List.length cs <= n)%nat.

Definition frames {Image A} (n : nat) (m : M Image A) : Prop :=
  forall b, keeps_result n b (snd (m b)).

(** A recorded estimator call asks for at least 10 pixels on each axis, at
    quality [q]. *)
Definition floored_call (q : Z) (c : Z * Z * Z) : Prop :=
  10 <= fst (fst c) /\ 10 <= snd (fst c) /\ snd c = q.

(** ** A stand-in for Pillow, to run the model

    Images are their size; [resize] refuses a side below one pixel as
    Pillow does ("height and width must be > 0"); an encoding takes one
    byte per pixel after a header of 600 bytes. *)
Module Sample.

Record Picture := mkPicture { pic_width : Z; pic_height : Z }.

Definition files : list (string * Picture) :=
  [("wide.jpg"%string, mkPicture 2000 1000);
   ("tall.jpg"%string, mkPicture 1000 2000);
   ("tiny.jpg"%string, mkPicture 5 5);
   ("strip.jpg"%string, mkPicture 1000 1);
   ("square.png"%string, mkPicture 100 100)].

Definition open (path : string) : result Picture :=
  match find (fun e => String.eqb (fst e) path) files with
  | Some e => Ok (snd e)
  | None => Raise (mk_exn OSError "No such file or directory")
  end.

Definition resize (img : Picture) (size : Z * Z) : result Picture :=
  if (fst size <? 1) || (snd size <? 1)
  then Raise (mk_exn ValueError "height and width must be > 0")
  else Ok (mkPicture (fst size) (snd size)).

Definition save (img : Picture) (path : string) (quality : option Z)
    : result unit := Ok tt.

Definition save_buffer (img : Picture) (fmt : Format) (quality : option Z)
    : result Z := Ok (pic_width img * pic_height img + 600).

(** The sample paths carry their extension in lower case already. *)
Definition ext_lower (path : string) : string :=
  match String.index 0 "."%string path with
  | Some i => substring i (String.length path - i) path
  | None => ""%string
  end.

Definition getsize (path : string) : result Z := Ok 4096.

(** The application with one selected file, its image loaded, the aspect
    check box as given, the target size entry holding [target] and a
    preview canvas of the given size. *)
Definition app (path : string) (img : Picture) (maintain : bool)
    (target : option float) (canvas : Z * Z) : App Picture :=
  mkApp Picture [path] "out" (Some 800) (Some 600) maintain 85 target true
    0%nat (Some img) None canvas 0%nat [] [].

Definition calculate (a : App Picture) : result unit * App Picture :=
  calculate_dimensions Picture pic_width pic_height open resize save_buffer
    ext_lower getsize a.

Definition estimate_on (a : App Picture) (img : Picture) (w h : Z)
    : result float :=
  estimate Picture pic_width pic_height resize save_buffer ext_lower img
    (input_files a) (current_preview_index a) (maintain_aspect_ratio a)
    w h (quality_var a).

Definition process (a : App Picture)
    : result (option (Z * Z)) * App Picture :=
  process_images Picture a.

(** The same application with its width and height entries set. *)
Definition with_box (w h : option Z) (a : App Picture) : App Picture :=
  set_height_var h (set_width_var w a).

Definition cli_resize (input_path output_path : string) (w h : Z)
    (maintain : bool) (quality : Z) : bool * option string :=
  resize_image Picture pic_width pic_height open resize save ext_lower
    input_path output_path w h maintain quality.

Definition wide : Picture := mkPicture 2000 1000.
Definition tall : Picture := mkPicture 1000 2000.
Definition tiny : Picture := mkPicture 5 5.
Definition strip : Picture := mkPicture 1000 1.
Definition square : Picture := mkPicture 100 100.

End Sample.

(** Estimator calls made between two states, the first of them (the
    probe at the original dimensions) left out. *)
Definition calls_after_probe {Image} (before after : App Image) : nat :=
  (List.length (estimator_calls after)
   - List.length (estimator_calls before) - 1)%nat.

(** A method leaves the relation [R] between the state it starts from and
    the state it ends in, whatever it returns or raises. *)
Definition respects {Image A} (R : App Image -> App Image -> Prop)
    (m : M Image A) : Prop :=
  forall b, R b (snd (m b)).

(** Nothing the user entered or selected has changed. *)
Definition same_settings {Image} (b b' : App Image) : Prop :=
  input_files b' = input_files b /\
  output_dir b' = output_dir b /\
  width_var b' = width_var b /\
  height_var b' = height_var b /\
  maintain_aspect_ratio b' = maintain_aspect_ratio b /\
  quality_var b' = quality_var b /\
  target_size_kb_var b' = target_size_kb_var b /\
  size_mode b' = size_mode b /\
  current_preview_index b' = current_preview_index b /\
  preview_canvas_size b' = preview_canvas_size b.

(** The selection and the encoding settings have not changed (the two
    dimension entries and the mode may have). *)
Definition same_selection {Image} (b b' : App Image) : Prop :=
  input_files b' = input_files b /\
  output_dir b' = output_dir b /\
  maintain_aspect_ratio b' = maintain_aspect_ratio b /\
  quality_var b' = quality_var b /\
  target_size_kb_var b' = target_size_kb_var b /\
  current_preview_index b' = current_preview_index b /\
  preview_canvas_size b' = preview_canvas_size b.

(** The files a batch counts, each with the size written, in order. *)
Definition files_counted (attempt_of : string -> attempt) (files : list string)
    : list (string * (Z * Z)) :=
  flat_map (fun p => match counted (attempt_of p) with
                     | Some dims => [(p, dims)]
                     | None => []
                     end) files.

(** The error callbacks a batch schedules, one per file that raised. *)
Definition errors_scheduled (attempt_of : string -> attempt) (files : list string)
    : list callback :=
  flat_map (fun p => match raised (attempt_of p) with
                     | Some e => [Scheduled_ProcessingError e]
                     | None => []
                     end) files.


(** [abs(size_kb - target_kb)]. *)
Definition distance (target_kb size_kb : float) : float :=
  abs (sub size_kb target_kb).

(** The estimator call the search makes for [scale]:
    [(max(10, int(W * scale)), max(10, int(H * scale)), quality)]. *)
Definition candidate (W H quality : Z) (scale : float) : option (Z * Z * Z) :=
  match to_int (mul (of_int W) scale), to_int (mul (of_int H) scale) with
  | Ok w, Ok h => Some (Z.max 10 w, Z.max 10 h, quality)
  | _, _ => None
  end.

(** A call stays between the 10 pixel floor and the larger of the floor
    and the original, on both axes. *)
Definition within_floor_and_original (W H : Z) (c : Z * Z * Z) : Prop :=
  10 <= fst (fst c) <= Z.max 10 W /\ 10 <= snd (fst c) <= Z.max 10 H.

(** What the search remembers is the best of the [trials] made so far: no
    trial is strictly closer to the target than [best_diff], and
    [best_scale] is the scale of a trial at that distance, unless no trial
    has improved on the initial infinity. *)
Definition best_so_far (est : Z * Z * Z -> result float)
    (W H quality : Z) (target_kb : float) (trials : list (Z * Z * Z))
    (s : search) : Prop :=
  (forall c kb, In c trials -> est c = Ok kb ->
     ltb (distance target_kb kb) (best_diff s) = false) /\
  ((best_diff s = inf /\ best_scale s = lit_0_5) \/
   exists c kb,
     In c trials /\ est c = Ok kb /\
     best_diff s = distance target_kb kb /\
     candidate W H quality (best_scale s) = Some c).

(** Every call of the list got an estimate. *)
Definition all_estimated (est : Z * Z * Z -> result float)
    (calls : list (Z * Z * Z)) : Prop :=
  Forall (fun c => exists kb, est c = Ok kb) calls.

(** How [calculate_dimensions] ends when an estimate of its search raises:
    [trials] are the calls of the loop, the last of them the one that
    raised.  Nothing is stored; a [ValueError] is caught and shown as
    "Please enter a valid number for target size.", any other exception
    leaves the method. *)
Definition search_aborted {Image} (est : Z * Z * Z -> result float)
    (probe : Z * Z * Z) (trials : list (Z * Z * Z))
    (a : App Image) (outcome : result unit * App Image) : Prop :=
  exists done c e,
    trials = done ++ [c] /\
    all_estimated est done /\
    est c = Raise e /\
    outcome
    = (if is_value_error e
       then (Ok tt, show Error_InvalidInput (record_calls (probe :: trials) a))
       else (Raise e, record_calls (probe :: trials) a)).

(** How [calculate_dimensions] ends when its search ran to the end: the
    stored size is the candidate of the best scale, and the calls are the
    probe, the ten trials, the calls of the two preview refreshes and the
    one for the message. *)
Definition search_completed {Image} (est : Z * Z * Z -> result float)
    (W H quality : Z) (target_kb : float) (trials : list (Z * Z * Z))
    (a : App Image) (outcome : result unit * App Image) : Prop :=
  exists refresh new_width new_height s,
    width_var (snd outcome) = Some new_width /\
    height_var (snd outcome) = Some new_height /\
    estimator_calls (snd outcome)
    = estimator_calls a
      ++ (W, H, quality) :: trials
      ++ refresh ++ [(new_width, new_height, quality)] /\
    (List.length refresh <= 2)%nat /\
    10 <= new_width <= Z.max 10 W /\
    10 <= new_height <= Z.max 10 H /\
    best_so_far est W H quality target_kb trials s /\
    candidate W H quality (best_scale s)
    = Some (new_width, new_height, quality) /\
    same_selection a (snd outcome).

(** ** A stand-in for the operating system, to run [main] and the worker

    One directory, [photos], holds [wide.jpg] and [square.png]; the
    directory [out] exists.  File names are matched without regard to
    case, as on Windows, so [*.JPG] finds what [*.jpg] finds. *)
Module SampleOS.

Definition isdir (path : string) : bool := (path =? "photos")%string.

Definition join (dir name : string) : string :=
  if (dir =? "")%string then name else (dir ++ "/" ++ name)%string.

Definition glob (pattern : string) : list string :=
  if (pattern =? "photos/*.jpg")%string || (pattern =? "photos/*.JPG")%string
  then ["photos/wide.jpg"%string]
  else if (pattern =? "photos/*.png")%string
          || (pattern =? "photos/*.PNG")%string
  then ["photos/square.png"%string]
  else [].

Definition path_exists (path : string) : bool := (path =? "out")%string.

Definition makedirs (path : string) : result unit :=
  if (path =? "/proc/out")%string
  then Raise (mk_exn OSError "Permission denied")
  else Ok tt.

(** The text after the last [/]. *)
Fixpoint basename (path : string) : string :=
  match path with
  | EmptyString => EmptyString
  | String c rest =>
      if contains "/" rest then basename rest
      else if (String c EmptyString =? "/")%string then rest
      else path
  end.

(** The name cut before its last dot. *)
Fixpoint splitext (name : string) : string * string :=
  match name with
  | EmptyString => (EmptyString, EmptyString)
  | String c rest =>
      if contains "." rest
      then (String c (fst (splitext rest)), snd (splitext rest))
      else if (String c EmptyString =? ".")%string then (EmptyString, name)
      else (name, EmptyString)
  end.

Definition open (path : string) : result Sample.Picture :=
  Sample.open (basename path).

Definition resized_path (output_dir img_path : string) : string :=
  let '(name, ext) := splitext (basename img_path) in
  join output_dir (name ++ "_resized" ++ ext)%string.

Definition run_main (args : Args) : Run :=
  main Sample.Picture Sample.pic_width Sample.pic_height open Sample.resize
    Sample.save Sample.ext_lower isdir glob path_exists makedirs join
    basename splitext args.

Definition paths_of (args : Args) : list string :=
  input_paths isdir glob join args.

Definition ok_on (args : Args) (input_path : string) : bool :=
  resized_ok Sample.Picture Sample.pic_width Sample.pic_height open
    Sample.resize Sample.save Sample.ext_lower join basename splitext
    args input_path.

(** A terminal that prints every log line. *)
Definition print_log (img_path : string) (original dims : Z * Z)
    (original_size new_size : Z) : result unit := Ok tt.

(** A terminal whose encoding lacks the arrow of the log line
    ([UnicodeEncodeError] derives from [ValueError]). *)
Definition print_log_cp1252 (img_path : string) (original dims : Z * Z)
    (original_size new_size : Z) : result unit :=
  Raise (mk_exn ValueError
           "'charmap' codec can't encode character '\u2192'").

(** The worker thread of the application on the sample files. *)
Definition worker (w h : Z) (a : App Sample.Picture) : Batch :=
  _process_images_thread Sample.Picture Sample.pic_width Sample.pic_height
    open Sample.resize Sample.save Sample.ext_lower Sample.getsize
    resized_path print_log w h a.

Definition worker_cp1252 (w h : Z) (a : App Sample.Picture) : Batch :=
  _process_images_thread Sample.Picture Sample.pic_width Sample.pic_height
    open Sample.resize Sample.save Sample.ext_lower Sample.getsize
    resized_path print_log_cp1252 w h a.

(** [python cli_photo_reducer.py photos out] *)
Definition directory_args : Args :=
  mkArgs "photos" "out" 800 600 false 85 "_resized".

(** [python cli_photo_reducer.py "empty/*.jpg" out] *)
Definition no_match_args : Args :=
  mkArgs "empty/*.jpg" "out" 800 600 false 85 "_resized".

(** [python cli_photo_reducer.py photos/wide.jpg /proc/out] *)
Definition unwritable_args : Args :=
  mkArgs "photos/wide.jpg" "/proc/out" 800 600 false 85 "_resized".

(** [python cli_photo_reducer.py photos/missing.jpg out] *)
Definition missing_file_args : Args :=
  mkArgs "photos/missing.jpg" "out" 800 600 false 85 "_resized".

(** The application with both sample files selected, in dimension mode. *)
Definition two_files (maintain : bool) (index : nat) : App Sample.Picture :=
  mkApp Sample.Picture ["wide.jpg"%string; "square.png"%string] "out"
    (Some 800) (Some 600) maintain 85 None false index (Some Sample.wide)
    None (400, 210) 0%nat [] [].

(** A 3000x200 image: with the aspect ratio kept, an estimate at 10x10
    asks Pillow for a height of [int(10 / 15.0) = 0]. *)
Definition panorama : Sample.Picture := Sample.mkPicture 3000 200.

(** A 1x49 image: [49 * (1 / 49)] is below 1 in binary64. *)
Definition slim : Sample.Picture := Sample.mkPicture 1 49.

End SampleOS.

(** ** Binary64 rounding: shifts, values and bounds *)

Lemma shr_spec_1 (x : shr_record) : 0 <= shr_m x -> shr_spec 1 x (shr_1 x).
Proof.
  destruct x as [m r s]; intros Hm; unfold shr_spec.
  change (2 ^ 1) with 2.
  destruct m as [|[p|p|]|p]; cbn [shr_1 shr_m shr_r shr_s orb] in *; try lia.
  - split; [reflexivity|]. intros H; left; exact H.
  - split.
    + apply Z.div_unique with 1; lia.
    + intros _. right. rewrite Pos2Z.inj_xI.
      rewrite Z.add_comm, Z.mul_comm, Z.mod_add by lia. discriminate.
  - split.
    + apply Z.div_unique with 0; lia.
    + intros H; left; exact H.
  - split; [reflexivity|]. intros _. right. discriminate.
Qed.

Lemma mod_mul_nonzero (m a b : Z) :
  0 < a -> 0 < b -> (m mod a <> 0 \/ (m / a) mod b <> 0) -> m mod (a * b) <> 0.
Proof.
  intros Ha Hb H Hz.
  rewrite Z.rem_mul_r in Hz by lia.
  pose proof (Z.mod_pos_bound m a Ha).
  pose proof (Z.mod_pos_bound (m / a) b Hb).
  destruct H as [H|H]; nia.
Qed.

Lemma shr_spec_trans (j k : Z) (x y z : shr_record) :
  0 < j -> 0 < k -> shr_spec j x y -> shr_spec k y z -> shr_spec (j + k) x z.
Proof.
  intros Hj Hk [Hy Fy] [Hz Fz].
  assert (Pj : 0 < 2 ^ j) by (apply Z.pow_pos_nonneg; lia).
  assert (Pk : 0 < 2 ^ k) by (apply Z.pow_pos_nonneg; lia).
  split.
  - rewrite Hz, Hy, Z.pow_add_r, Z.div_div by lia. reflexivity.
  - intros H. rewrite Z.pow_add_r by lia.
    destruct (Fz H) as [H1|H1].
    + destruct (Fy H1) as [H2|H2]; [left; exact H2|right].
      apply mod_mul_nonzero; auto.
    + right. apply mod_mul_nonzero; auto.
      right. rewrite <- Hy. exact H1.
Qed.

Lemma shr_spec_nonneg (k : Z) (x y : shr_record) :
  0 <= shr_m x -> shr_spec k x y -> 0 <= shr_m y.
Proof.
  intros Hx [Hy _]. rewrite Hy.
  destruct (Z.le_gt_cases 0 k) as [Hk|Hk].
  - apply Z.div_pos; [exact Hx|apply Z.pow_pos_nonneg; lia].
  - rewrite Z.pow_neg_r by lia. rewrite Z.div_0_r. lia.
Qed.

Lemma shr_spec_iter (p : positive) (x : shr_record) :
  0 <= shr_m x -> shr_spec (Zpos p) x (iter_pos shr_1 p x).
Proof.
  revert x. induction p as [p IH|p IH|]; intros x Hx; cbn [iter_pos].
  - pose proof (shr_spec_1 x Hx) as H1.
    pose proof (shr_spec_nonneg _ _ _ Hx H1) as N1.
    pose proof (IH _ N1) as H2.
    pose proof (shr_spec_nonneg _ _ _ N1 H2) as N2.
    pose proof (IH _ N2) as H3.
    replace (Zpos p~1) with (1 + (Zpos p + Zpos p)) by lia.
    eapply shr_spec_trans; [lia|lia|exact H1|].
    eapply shr_spec_trans; [lia|lia|exact H2|exact H3].
  - pose proof (IH _ Hx) as H2.
    pose proof (shr_spec_nonneg _ _ _ Hx H2) as N2.
    pose proof (IH _ N2) as H3.
    replace (Zpos p~0) with (Zpos p + Zpos p) by lia.
    eapply shr_spec_trans; [lia|lia|exact H2|exact H3].
  - apply shr_spec_1; exact Hx.
Qed.

Lemma fexp_eq (x : Z) : fexp prec emax x = Z.max (x - 53) (-1074).
Proof. reflexivity. Qed.

Lemma val_le_scaled (m e K N : Z) :
  0 <= N -> 0 <= e + N ->
  (val_le m e K <-> m * 2 ^ (e + N) <= K * 2 ^ N).
Proof.
  intros HN HeN. unfold val_le.
  set (N0 := Z.max 0 (- e)).
  assert (HN0 : 0 <= N0 /\ 0 <= e + N0 /\ N0 <= N) by (unfold N0; lia).
  replace (e + N) with ((e + N0) + (N - N0)) by lia.
  replace N with (N0 + (N - N0)) at 2 by lia.
  rewrite (Z.pow_add_r 2 (e + N0) (N - N0)), (Z.pow_add_r 2 N0 (N - N0)) by lia.
  assert (P : 0 < 2 ^ (N - N0)) by (apply Z.pow_pos_nonneg; lia).
  rewrite !Z.mul_assoc.
  split; intros H.
  - apply Z.mul_le_mono_nonneg_r; lia.
  - apply Z.mul_le_mono_pos_r in H; assumption.
Qed.

Lemma val_le_elim (m e K N : Z) :
  0 <= N -> 0 <= e + N -> val_le m e K -> m * 2 ^ (e + N) <= K * 2 ^ N.
Proof. intros H1 H2. apply val_le_scaled; assumption. Qed.

Lemma val_le_intro (m e K N : Z) :
  0 <= N -> 0 <= e + N -> m * 2 ^ (e + N) <= K * 2 ^ N -> val_le m e K.
Proof. intros H1 H2. apply val_le_scaled; assumption. Qed.

Lemma digits2_pos_lower (p : positive) :
  2 ^ (Zpos (digits2_pos p) - 1) <= Zpos p.
Proof.
  induction p as [p IH|p IH|]; cbn [digits2_pos].
  - rewrite Pos2Z.inj_succ.
    replace (Z.succ (Zpos (digits2_pos p)) - 1)
      with (1 + (Zpos (digits2_pos p) - 1)) by lia.
    rewrite Z.pow_add_r by lia. change (2 ^ 1) with 2. lia.
  - rewrite Pos2Z.inj_succ.
    replace (Z.succ (Zpos (digits2_pos p)) - 1)
      with (1 + (Zpos (digits2_pos p) - 1)) by lia.
    rewrite Z.pow_add_r by lia. change (2 ^ 1) with 2. lia.
  - simpl. lia.
Qed.

Lemma val_le_digits (p : positive) (e K : Z) :
  0 < K < 2 ^ 53 -> val_le (Zpos p) e K -> Zpos (digits2_pos p) + e <= 53.
Proof.
  intros HK H.
  set (d := Zpos (digits2_pos p)).
  set (N := Z.max 0 (- e)).
  destruct (val_le_scaled (Zpos p) e K N) as [F _]; [lia|lia|].
  apply F in H. clear F.
  pose proof (digits2_pos_lower p) as L. fold d in L.
  assert (P : 0 < 2 ^ (e + N)) by (apply Z.pow_pos_nonneg; lia).
  assert (PN : 0 < 2 ^ N) by (apply Z.pow_pos_nonneg; lia).
  assert (H1 : 2 ^ (d - 1) * 2 ^ (e + N) < 2 ^ 53 * 2 ^ N) by nia.
  rewrite <- !Z.pow_add_r in H1 by lia.
  apply Z.pow_lt_mono_r_iff in H1; lia.
Qed.

Lemma shr_fexp_exact (m e : Z) :
  0 <= m ->
  exists mrs,
    shr_fexp prec emax m e loc_Exact
    = (mrs, e + Z.max 0 (fexp prec emax (Zdigits2 m + e) - e)) /\
    (fexp prec emax (Zdigits2 m + e) - e <= 0 ->
     mrs = Build_shr_record m false false) /\
    (0 < fexp prec emax (Zdigits2 m + e) - e ->
     shr_spec (fexp prec emax (Zdigits2 m + e) - e)
       (Build_shr_record m false false) mrs).
Proof.
  intros Hm. unfold shr_fexp, shr. cbn [shr_record_of_loc].
  destruct (fexp prec emax (Zdigits2 m + e) - e) as [|n|n] eqn:E.
  - eexists; split; [rewrite Z.add_0_r; reflexivity|]. split; [reflexivity|lia].
  - eexists; split; [f_equal; lia|]. split; [lia|].
    intros _. apply shr_spec_iter. exact Hm.
  - eexists; split; [f_equal; lia|]. split; [reflexivity|lia].
Qed.

Lemma round_nearest_even_bounds (mrs : shr_record) :
  let m1 := round_nearest_even (shr_m mrs) (loc_of_shr_record mrs) in
  shr_m mrs <= m1 <= shr_m mrs + 1 /\
  (m1 <> shr_m mrs -> shr_r mrs || shr_s mrs = true).
Proof.
  destruct mrs as [q [|] [|]]; cbn; try destruct (Z.even q); split;
    try lia; auto; intros H; try reflexivity; congruence.
Qed.

Lemma val_le_nonpos_exp (m e K : Z) :
  e <= 0 -> (val_le m e K <-> m <= K * 2 ^ (- e)).
Proof.
  intros He.
  destruct (val_le_scaled m e K (- e)) as [F G]; [lia|lia|].
  replace (e + - e) with 0 in * by lia. rewrite Z.pow_0_r, Z.mul_1_r in *.
  split; assumption.
Qed.

Lemma val_le_exp_bound (p : positive) (e K : Z) :
  0 < K < 2 ^ 53 -> val_le (Zpos p) e K -> e <= 53.
Proof.
  intros HK H. pose proof (val_le_digits p e K HK H).
  pose proof (Pos2Z.is_pos (digits2_pos p)). lia.
Qed.

(** Rounding a positive value that does not exceed an integer below 2^53
    gives a float that does not exceed it either. *)
Lemma round_aux_bound (m e K : Z) :
  0 < m -> 0 < K < 2 ^ 53 -> val_le m e K ->
  binary_round_aux prec emax false m e loc_Exact = S754_zero false \/
  exists p' e',
    binary_round_aux prec emax false m e loc_Exact = S754_finite false p' e' /\
    val_le (Zpos p') e' K.
Proof.
  intros Hm HK HV. unfold binary_round_aux.
  destruct (shr_fexp_exact m e) as (mrs & E1 & Hle & Hgt); [lia|].
  rewrite E1.
  set (n := fexp prec emax (Zdigits2 m + e) - e) in *.
  destruct (Z.le_gt_cases n 0) as [Hn|Hn].
  - (* no shift *)
    rewrite (Hle Hn). cbn [shr_m loc_of_shr_record round_nearest_even].
    replace (e + Z.max 0 n) with e by lia.
    rewrite E1. fold n. rewrite (Hle Hn). cbn [shr_m].
    replace (e + Z.max 0 n) with e by lia.
    destruct m as [|p|p]; try lia.
    pose proof (val_le_exp_bound p e K HK HV) as He.
    change (emax - prec) with 971.
    replace (e <=? 971) with true by (symmetry; apply Z.leb_le; lia).
    right. exists p, e. split; [reflexivity|exact HV].
  - (* the mantissa is shifted right by n and rounded *)
    specialize (Hgt Hn). destruct Hgt as [Hq Hflags].
    cbn [shr_m shr_r shr_s orb] in Hq, Hflags.
    destruct (round_nearest_even_bounds mrs) as [Hm1 Hup].
    set (m1 := round_nearest_even (shr_m mrs) (loc_of_shr_record mrs)) in *.
    replace (e + Z.max 0 n) with (e + n) by lia.
    set (e1 := e + n).
    assert (P2n : 0 < 2 ^ n) by (apply Z.pow_pos_nonneg; lia).
    assert (Hq0 : 0 <= shr_m mrs) by (rewrite Hq; apply Z.div_pos; lia).
    (* the exponent after the shift is not positive *)
    assert (He1 : e1 <= 0).
    { destruct m as [|p|p]; try lia.
      pose proof (val_le_digits p e K HK HV) as Hd.
      unfold e1, n. rewrite fexp_eq. cbn [Zdigits2]. lia. }
    assert (He : e <= 0) by (unfold e1 in He1; lia).
    assert (HB : m1 <= K * 2 ^ (- e1)).
    { apply val_le_nonpos_exp in HV; [|exact He].
      replace (- e) with (- e1 + n) in HV by (unfold e1; lia).
      rewrite Z.pow_add_r in HV by lia.
      set (B := K * 2 ^ (- e1)) in *.
      assert (HmB : m <= B * 2 ^ n) by (unfold B; lia).
      assert (HqB : shr_m mrs <= B).
      { rewrite Hq. apply Z.div_le_upper_bound; lia. }
      destruct (Z.eq_dec m1 (shr_m mrs)) as [Eq|Ne]; [lia|].
      destruct (Hflags (Hup Ne)) as [F|Hmod]; [discriminate|].
      assert (shr_m mrs <> B).
      { intros EB. apply Hmod.
        pose proof (Z.div_mod m (2 ^ n)) as DM.
        pose proof (Z.mod_pos_bound m (2 ^ n) P2n).
        rewrite <- Hq, EB in DM. lia. }
      lia. }
    assert (Hm10 : 0 <= m1) by lia.
    destruct (shr_fexp_exact m1 e1 Hm10) as (mrs2 & E2 & Hle2 & Hgt2).
    rewrite E2.
    set (n2 := fexp prec emax (Zdigits2 m1 + e1) - e1) in *.
    destruct (Z.le_gt_cases n2 0) as [Hn2|Hn2].
    + rewrite (Hle2 Hn2). cbn [shr_m].
      replace (e1 + Z.max 0 n2) with e1 by lia.
      destruct m1 as [|p1|p1]; try lia; [left; reflexivity|].
      change (emax - prec) with 971.
      replace (e1 <=? 971) with true by (symmetry; apply Z.leb_le; lia).
      right. exists p1, e1. split; [reflexivity|].
      apply val_le_nonpos_exp; assumption.
    + specialize (Hgt2 Hn2). destruct Hgt2 as [Hq2 _].
      cbn [shr_m] in Hq2.
      assert (P2n2 : 0 < 2 ^ n2) by (apply Z.pow_pos_nonneg; lia).
      replace (e1 + Z.max 0 n2) with (e1 + n2) by lia.
      destruct (shr_m mrs2) as [|p2|p2] eqn:Em2; [left; reflexivity| |].
      * assert (Hm1p : 0 < m1).
        { destruct (Z.eq_dec m1 0) as [Z0|]; [|lia].
          rewrite Z0 in Hq2. rewrite Z.div_0_l in Hq2; lia. }
        destruct m1 as [|p1|p1]; try lia.
        assert (HV1 : val_le (Zpos p1) e1 K)
          by (apply val_le_nonpos_exp; assumption).
        pose proof (val_le_digits p1 e1 K HK HV1) as Hd1.
        assert (He2 : e1 + n2 <= 0).
        { unfold n2. rewrite fexp_eq. cbn [Zdigits2]. lia. }
        change (emax - prec) with 971.
        replace (e1 + n2 <=? 971) with true by (symmetry; apply Z.leb_le; lia).
        right. exists p2, (e1 + n2). split; [reflexivity|].
        apply val_le_nonpos_exp; [exact He2|].
        rewrite Hq2.
        apply Z.div_le_upper_bound; [lia|].
        replace (- e1) with (n2 + - (e1 + n2)) in HB by lia.
        rewrite Z.pow_add_r in HB by lia. lia.
      * exfalso.
        assert (0 <= m1 / 2 ^ n2) by (apply Z.div_pos; lia). lia.
Qed.

Lemma pos_iter_xO (m d : positive) :
  Zpos (Pos.iter xO m d) = Zpos m * 2 ^ Zpos d.
Proof.
  induction d as [|d IH] using Pos.peano_ind.
  - cbn [Pos.iter]. change (2 ^ 1) with 2. lia.
  - rewrite Pos.iter_succ, Pos2Z.inj_xO, IH, Pos2Z.inj_succ, Z.pow_succ_r; lia.
Qed.

Lemma shl_align_val_le (mx : positive) (ex ex' K : Z) :
  val_le (Zpos mx) ex K ->
  val_le (Zpos (fst (shl_align mx ex ex'))) (snd (shl_align mx ex ex')) K.
Proof.
  intros H. unfold shl_align.
  destruct (ex' - ex) as [|d|d] eqn:E; cbn [fst snd]; try exact H.
  set (N := Z.max 0 (- ex')).
  apply (val_le_intro _ _ _ N); [lia|lia|].
  apply (val_le_elim _ _ _ N) in H; [|lia|lia].
  rewrite pos_iter_xO.
  replace (ex + N) with (Zpos d + (ex' + N)) in H by lia.
  rewrite Z.pow_add_r in H by lia. lia.
Qed.

Lemma of_int_bound (W : Z) :
  0 < W < 2 ^ 53 ->
  of_int W = S754_zero false \/
  exists p e, of_int W = S754_finite false p e /\ val_le (Zpos p) e W.
Proof.
  intros HW. destruct W as [|p|p]; try lia.
  unfold of_int, binary_normalize, binary_round.
  pose proof (shl_align_val_le p 0 (fexp prec emax (Zpos (digits2_pos p) + 0)) (Zpos p)) as H.
  destruct (shl_align p 0 (fexp prec emax (Zpos (digits2_pos p) + 0))) as [mz ez].
  cbn [fst snd] in H.
  apply round_aux_bound; [lia|exact HW|].
  apply H. unfold val_le. simpl. lia.
Qed.

Lemma to_int_bound (p : positive) (e K : Z) :
  val_le (Zpos p) e K ->
  exists w, to_int (S754_finite false p e) = Ok w /\ 0 <= w <= K.
Proof.
  intros H. cbn [to_int cond_Zopp]. eexists; split; [reflexivity|].
  split; [apply Z.shiftl_nonneg; lia|].
  destruct (Z.le_gt_cases 0 e) as [He|He].
  - rewrite Z.shiftl_mul_pow2 by lia.
    apply (val_le_elim _ _ _ 0) in H; [|lia|lia].
    rewrite Z.add_0_r, Z.pow_0_r in H. lia.
  - rewrite Z.shiftl_div_pow2 by lia.
    apply val_le_nonpos_exp in H; [|lia].
    apply Z.div_le_upper_bound; [apply Z.pow_pos_nonneg; lia|lia].
Qed.

(** [int(W * scale)] for a scale in (0, 1] exists and lies in [0, W]. *)
Lemma to_int_mul_unit_scale (W : Z) (s : float) :
  0 < W < 2 ^ 53 -> unit_scale s = true ->
  exists w, to_int (mul (of_int W) s) = Ok w /\ 0 <= w <= W.
Proof.
  intros HW Hs.
  destruct s as [| | |[|] ms es]; try discriminate.
  cbn [unit_scale] in Hs. apply andb_prop in Hs. destruct Hs as [Hes Hms].
  apply Z.ltb_lt in Hes. apply Z.leb_le in Hms.
  destruct (of_int_bound W HW) as [E|(p & e & E & HV)]; rewrite E.
  - exists 0. split; [reflexivity|lia].
  - unfold mul, SFmul. cbn [xorb].
    assert (HVp : val_le (Zpos (p * ms)) (e + es) W).
    { set (N1 := Z.max 0 (- e)).
      apply (val_le_intro _ _ _ (N1 + - es)); [lia|lia|].
      apply (val_le_elim _ _ _ N1) in HV; [|lia|lia].
      replace (e + es + (N1 + - es)) with (e + N1) by lia.
      rewrite Pos2Z.inj_mul, (Z.pow_add_r 2 N1 (- es)) by lia.
      assert (0 < 2 ^ (e + N1)) by (apply Z.pow_pos_nonneg; lia).
      assert (0 < 2 ^ N1) by (apply Z.pow_pos_nonneg; lia).
      nia. }
    destruct (round_aux_bound (Zpos (p * ms)) (e + es) W) as [E2|(p2 & e2 & E2 & HV2)];
      [lia|exact HW|exact HVp| |]; rewrite E2.
    + exists 0. split; [reflexivity|lia].
    + apply to_int_bound. exact HV2.
Qed.

Lemma mids_unit_all : forall k, (k < 10)%nat -> mids_unit k = true.
Proof.
  intros k Hk.
  do 10 (destruct k as [|k]; [vm_compute; reflexivity|]).
  lia.
Qed.

(** ** Signs *)

Lemma binary_round_aux_not_negative (m e : Z) (l : location) :
  not_negative (binary_round_aux prec emax false m e l).
Proof.
  unfold binary_round_aux.
  destruct (shr_fexp prec emax m e l) as [mrs1 e1].
  destruct (shr_fexp prec emax _ e1 loc_Exact) as [mrs2 e2].
  destruct (shr_m mrs2); [exact I| |exact I].
  destruct (e2 <=? emax - prec); exact I.
Qed.

Lemma of_int_not_negative (z : Z) : 0 <= z -> not_negative (of_int z).
Proof.
  intros Hz. destruct z as [|p|p]; try lia; [exact I|].
  unfold of_int, binary_normalize, binary_round.
  destruct (shl_align p 0 _) as [mz ez].
  apply binary_round_aux_not_negative.
Qed.

Lemma div_not_negative (x y : float) :
  not_negative x -> not_negative y -> not_negative (SFdiv prec emax x y).
Proof.
  intros Hx Hy.
  destruct x as [sx|sx| |[|] mx ex], y as [sy|sy| |[|] my ey];
    try exact I; try contradiction.
  unfold SFdiv. cbn [xorb].
  destruct (SFdiv_core_binary prec emax (Zpos mx) ex (Zpos my) ey) as [[mz ez] lz].
  apply binary_round_aux_not_negative.
Qed.

Lemma mul_not_negative (x y : float) :
  not_negative x -> not_negative y -> not_negative (mul x y).
Proof.
  intros Hx Hy.
  destruct x as [sx|sx| |[|] mx ex], y as [sy|sy| |[|] my ey];
    try exact I; try contradiction.
  unfold mul, SFmul. cbn [xorb].
  apply binary_round_aux_not_negative.
Qed.

Lemma to_int_not_negative (x : float) (z : Z) :
  not_negative x -> to_int x = Ok z -> 0 <= z.
Proof.
  destruct x as [s|s| |[|] m e]; cbn [to_int not_negative cond_Zopp];
    intros Hx Hz; try contradiction; try discriminate.
  - injection Hz as <-. lia.
  - injection Hz as <-. apply Z.shiftl_nonneg. lia.
Qed.

(** ** Properties of the engine *)

Section Properties.

Variable Image : Type.
Variable width height : Image -> Z.
Variable Image_open : string -> result Image.
Variable Image_resize : Image -> Z * Z -> result Image.
Variable Image_save : Image -> string -> option Z -> result unit.
Variable Image_save_buffer : Image -> Format -> option Z -> result Z.
Variable ext_lower : string -> string.
Variable getsize : string -> result Z.
Variable resized_path : string -> string -> string.
Variable print_log : string -> Z * Z -> Z * Z -> Z -> Z -> result unit.

Local Abbreviation estimate :=
  (estimate Image width height Image_resize Image_save_buffer ext_lower).
Local Abbreviation estimate_file_size :=
  (estimate_file_size Image width height Image_resize Image_save_buffer ext_lower).
Local Abbreviation update_file_size_estimate :=
  (update_file_size_estimate Image width height Image_resize Image_save_buffer ext_lower).
Local Abbreviation update_preview :=
  (update_preview Image width height Image_open Image_resize Image_save_buffer
     ext_lower getsize).
Local Abbreviation toggle_mode :=
  (toggle_mode Image width height Image_open Image_resize Image_save_buffer
     ext_lower getsize).
Local Abbreviation search_iteration :=
  (search_iteration Image width height Image_resize Image_save_buffer ext_lower).
Local Abbreviation search_loop :=
  (search_loop Image width height Image_resize Image_save_buffer ext_lower).
Local Abbreviation resize_image_dimensions :=
  (resize_image_dimensions Image width height).
Local Abbreviation thread_dimensions := (thread_dimensions Image width height).
Local Abbreviation estimate_dimensions := (estimate_dimensions Image width height).
Local Abbreviation resize_image :=
  (resize_image Image width height Image_open Image_resize Image_save ext_lower).
Local Abbreviation resize_image_body :=
  (resize_image_body Image width height Image_open Image_resize Image_save
     ext_lower).
Local Abbreviation process_images := (process_images Image).
Local Abbreviation process_one :=
  (process_one Image width height Image_open Image_resize Image_save ext_lower
     getsize resized_path print_log).
Local Abbreviation calculate_dimensions :=
  (calculate_dimensions Image width height Image_open Image_resize
     Image_save_buffer ext_lower getsize).

(** *** The state monad, step by step *)

Lemma record_calls_nil (b : App Image) : record_calls [] b = b.
Proof. destruct b. unfold record_calls. cbn. rewrite app_nil_r. reflexivity. Qed.

Lemma record_calls_cons (c : Z * Z * Z) (cs : list (Z * Z * Z)) (b : App Image) :
  record_calls cs (record_call c b) = record_calls (c :: cs) b.
Proof.
  unfold record_calls, record_call. cbn. rewrite <- app_assoc. reflexivity.
Qed.

Lemma estimate_file_size_run (b : App Image) (img : Image) (w h q : Z) :
  current_img b = Some img ->
  estimate_file_size w h q b
  = (estimate img (input_files b) (current_preview_index b)
       (maintain_aspect_ratio b) w h q,
     record_call (w, h, q) b).
Proof.
  intros Himg. unfold estimate_file_size, bind, modify, get, lift.
  cbn. rewrite Himg. reflexivity.
Qed.

Lemma estimate_file_size_state (b : App Image) (w h q : Z) :
  snd (estimate_file_size w h q b) = record_call (w, h, q) b.
Proof.
  unfold estimate_file_size, bind, modify, get, lift, ret. cbn.
  destruct (current_img b); reflexivity.
Qed.

Lemma truediv_two (x : float) : truediv x (of_int 2) = Ok (SFdiv prec emax x (of_int 2)).
Proof. reflexivity. Qed.


(** *** The search loop *)

Lemma search_iteration_run (b : App Image) (img : Image) (W H q w h : Z)
    (t kb : float) (s : search) :
  current_img b = Some img ->
  to_int (mul (of_int W) (mid (min_scale s) (max_scale s))) = Ok w ->
  to_int (mul (of_int H) (mid (min_scale s) (max_scale s))) = Ok h ->
  estimate img (input_files b) (current_preview_index b)
    (maintain_aspect_ratio b) (Z.max 10 w) (Z.max 10 h) q = Ok kb ->
  search_iteration W H q t s b
  = (Ok (let scale := mid (min_scale s) (max_scale s) in
         let diff := abs (sub kb t) in
         let s1 := if ltb diff (best_diff s)
                   then mkSearch (min_scale s) (max_scale s) scale diff
                   else s in
         if gtb kb t
         then mkSearch (min_scale s1) scale (best_scale s1) (best_diff s1)
         else mkSearch scale (max_scale s1) (best_scale s1) (best_diff s1)),
     record_call (Z.max 10 w, Z.max 10 h, q) b).
Proof.
  intros Himg Hw Hh Hest.
  unfold search_iteration, bind, lift, ret.
  rewrite truediv_two. fold (mid (min_scale s) (max_scale s)).
  rewrite Hw, Hh.
  rewrite (estimate_file_size_run b img _ _ _ Himg), Hest.
  reflexivity.
Qed.

Lemma bounds_after_step (k : nat) (lo hi : float) :
  In (lo, hi) (bounds_after k) ->
  In (lo, mid lo hi) (bounds_after (S k)) /\
  In (mid lo hi, hi) (bounds_after (S k)).
Proof.
  intros Hin. cbn [bounds_after].
  split; apply in_flat_map; exists (lo, hi); (split; [exact Hin|]);
    cbn [fst snd In]; auto.
Qed.

Lemma mid_unit_scale (k : nat) (lo hi : float) :
  (k < 10)%nat -> In (lo, hi) (bounds_after k) -> unit_scale (mid lo hi) = true.
Proof.
  intros Hk Hin. pose proof (mids_unit_all k Hk) as Hall.
  unfold mids_unit in Hall. rewrite forallb_forall in Hall.
  exact (Hall (lo, hi) Hin).
Qed.

Lemma search_loop_O (W H q : Z) (t : float) (s : search) :
  search_loop 0 W H q t s = ret s.
Proof. reflexivity. Qed.

Lemma search_loop_S (n : nat) (W H q : Z) (t : float) (s : search) :
  search_loop (S n) W H q t s
  = bind (search_iteration W H q t s) (search_loop n W H q t).
Proof. reflexivity. Qed.

(** *** What the preview refresh leaves alone *)

Lemma keeps_result_refl (b : App Image) : keeps_result 0 b b.
Proof.
  repeat split. exists []. rewrite app_nil_r. auto.
Qed.

Lemma keeps_result_trans (n k : nat) (b1 b2 b3 : App Image) :
  keeps_result n b1 b2 -> keeps_result k b2 b3 -> keeps_result (n + k) b1 b3.
Proof.
  intros (W1 & H1 & cs1 & C1 & L1) (W2 & H2 & cs2 & C2 & L2).
  split; [congruence|]. split; [congruence|].
  exists (cs1 ++ cs2). rewrite C2, C1, app_assoc, length_app. split; [reflexivity|lia].
Qed.

Lemma keeps_result_weaken (n k : nat) (b b' : App Image) :
  (n <= k)%nat -> keeps_result n b b' -> keeps_result k b b'.
Proof.
  intros Hnk (W1 & H1 & cs & C & L). repeat split; auto.
  exists cs. split; [exact C|lia].
Qed.

Lemma frames_ret {A} (x : A) : frames 0 (ret (Image:=Image) x).
Proof. intros b. apply keeps_result_refl. Qed.

Lemma frames_lift {A} (r : result A) : frames 0 (lift (Image:=Image) r).
Proof. intros b. apply keeps_result_refl. Qed.

Lemma frames_get : frames 0 (get (Image:=Image)).
Proof. intros b. apply keeps_result_refl. Qed.

Lemma frames_modify (f : App Image -> App Image) :
  (forall b, keeps_result 0 b (f b)) -> frames 0 (modify f).
Proof. intros Hf b. apply Hf. Qed.

Lemma frames_bind {A B} (n k j : nat) (m : M Image A) (f : A -> M Image B) :
  frames n m -> (forall x, frames k (f x)) -> (n + k <= j)%nat ->
  frames j (bind m f).
Proof.
  intros Hm Hf Hj b. unfold bind. specialize (Hm b).
  destruct (m b) as [[x|e] b1]; cbn [snd] in *.
  - apply keeps_result_weaken with (n + k)%nat; [exact Hj|].
    eapply keeps_result_trans; [exact Hm|apply Hf].
  - apply keeps_result_weaken with n; [lia|exact Hm].
Qed.

Lemma frames_try_except {A} (n : nat) (m : M Image A) (c : exn -> bool)
    (h : exn -> M Image A) :
  frames n m -> (forall e, frames 0 (h e)) -> frames n (try_except m c h).
Proof.
  intros Hm Hh b. unfold try_except. specialize (Hm b).
  destruct (m b) as [[x|e] b1]; cbn [snd] in *; [exact Hm|].
  destruct (c e); cbn [snd]; [|exact Hm].
  replace n with (n + 0)%nat by lia.
  eapply keeps_result_trans; [exact Hm|apply Hh].
Qed.

Lemma frames_estimate_file_size (w h q : Z) : frames 1 (estimate_file_size w h q).
Proof.
  intros b. rewrite estimate_file_size_state.
  repeat split. exists [(w, h, q)]. split; [reflexivity|cbn; lia].
Qed.

Lemma keeps_show (d : dialog) (b : App Image) : keeps_result 0 b (show d b).
Proof. repeat split. exists []. cbn. rewrite app_nil_r. auto. Qed.

Lemma keeps_set_current_img (v : option Image) (b : App Image) :
  keeps_result 0 b (set_current_img v b).
Proof. repeat split. exists []. cbn. rewrite app_nil_r. auto. Qed.

Lemma keeps_set_file_size_label (v : option float) (b : App Image) :
  keeps_result 0 b (set_file_size_label v b).
Proof. repeat split. exists []. cbn. rewrite app_nil_r. auto. Qed.

Lemma keeps_schedule_update_preview (b : App Image) :
  keeps_result 0 b (schedule_update_preview b).
Proof. repeat split. exists []. cbn. rewrite app_nil_r. auto. Qed.

Lemma frames_update_file_size_estimate : frames 1 update_file_size_estimate.
Proof.
  unfold update_file_size_estimate.
  apply frames_try_except.
  - eapply frames_bind with (n := 0%nat) (k := 1%nat); [apply frames_get| |lia].
    intros a.
    eapply frames_bind with (n := 0%nat) (k := 1%nat); [apply frames_lift| |lia].
    intros w.
    eapply frames_bind with (n := 0%nat) (k := 1%nat); [apply frames_lift| |lia].
    intros h.
    eapply frames_bind with (n := 1%nat) (k := 0%nat);
      [apply frames_estimate_file_size| |lia].
    intros kb. apply frames_modify, keeps_set_file_size_label.
  - intros e. apply frames_modify, keeps_set_file_size_label.
Qed.

Lemma frames_update_preview : frames 1 update_preview.
Proof.
  unfold update_preview.
  eapply frames_bind with (n := 0%nat) (k := 1%nat); [apply frames_get| |lia].
  intros a0. destruct (input_files a0) as [|f fs].
  - intros b. apply keeps_result_weaken with 0%nat; [lia|apply keeps_result_refl].
  - apply frames_try_except.
    + eapply frames_bind with (n := 0%nat) (k := 1%nat); [apply frames_lift| |lia].
      intros img_path.
      eapply frames_bind with (n := 0%nat) (k := 1%nat); [apply frames_lift| |lia].
      intros img.
      eapply frames_bind with (n := 0%nat) (k := 1%nat);
        [apply frames_modify, keeps_set_current_img| |lia].
      intros _.
      destruct ((fst (preview_canvas_size a0) - 10 <=? 1)
                || (snd (preview_canvas_size a0) - 10 <=? 1)).
      * intros b. apply keeps_result_weaken with 0%nat; [lia|].
        apply keeps_schedule_update_preview.
      * eapply frames_bind with (n := 0%nat) (k := 1%nat); [apply frames_lift| |lia].
        intros img_ratio.
        eapply frames_bind with (n := 0%nat) (k := 1%nat); [apply frames_lift| |lia].
        intros preview_ratio.
        eapply frames_bind with (n := 0%nat) (k := 1%nat); [apply frames_lift| |lia].
        intros display.
        eapply frames_bind with (n := 0%nat) (k := 1%nat); [apply frames_lift| |lia].
        intros img_preview.
        eapply frames_bind with (n := 0%nat) (k := 1%nat); [apply frames_lift| |lia].
        intros file_size_bytes.
        eapply frames_bind with (n := 0%nat) (k := 1%nat); [apply frames_get| |lia].
        intros a1. destruct (negb (size_mode a1)).
        -- apply frames_update_file_size_estimate.
        -- intros b. apply keeps_result_weaken with 0%nat; [lia|apply keeps_result_refl].
    + intros e. apply frames_modify, keeps_show.
Qed.

Lemma update_preview_ok (b : App Image) : fst (update_preview b) = Ok tt.
Proof.
  unfold update_preview, bind at 1, get.
  destruct (input_files b) as [|f fs]; [reflexivity|].
  unfold try_except.
  match goal with |- context [match ?m b with _ => _ end] => destruct (m b) as [[[]|e] b1] end.
  - reflexivity.
  - reflexivity.
Qed.

Lemma toggle_mode_run (b : App Image) :
  exists b', toggle_mode b = (Ok tt, b') /\ keeps_result 1 b b'.
Proof.
  unfold toggle_mode, bind, get.
  destruct (current_img b).
  - pose proof (update_preview_ok b) as Hok.
    pose proof (frames_update_preview b) as Hfr.
    destruct (update_preview b) as [r b']. cbn [fst snd] in *. subst r.
    exists b'. split; [reflexivity|exact Hfr].
  - exists b. split; [reflexivity|].
    apply keeps_result_weaken with 0%nat; [lia|apply keeps_result_refl].
Qed.

Lemma update_preview_run (b : App Image) :
  exists b', update_preview b = (Ok tt, b') /\ keeps_result 1 b b'.
Proof.
  pose proof (update_preview_ok b) as Hok.
  pose proof (frames_update_preview b) as Hfr.
  destruct (update_preview b) as [r b']. cbn [fst snd] in *. subst r.
  exists b'. split; [reflexivity|exact Hfr].
Qed.


(** *** [calculate_dimensions], path by path *)

Lemma positive_not_leb_zero (t : float) :
  ltb zero t = true -> leb t (of_int 0) = false.
Proof.
  destruct t as [[|]|[|]| |[|] m e]; cbn; intros H; congruence.
Qed.

Lemma calculate_dimensions_invalid_target (a : App Image) (img : Image)
    (f : string) (fs : list string) (t : float) :
  current_img a = Some img ->
  input_files a = f :: fs ->
  target_size_kb_var a = Some t ->
  leb t (of_int 0) = true ->
  calculate_dimensions a = (Ok tt, show Error_InvalidSize_Target a).
Proof.
  intros Himg Hfiles Ht Hle.
  unfold calculate_dimensions, bind at 1, get.
  rewrite Himg, Hfiles.
  unfold try_except, bind, lift, modify.
  rewrite Ht. cbn [entry_value]. rewrite Hle. reflexivity.
Qed.

Lemma calculate_dimensions_fast_path (a : App Image) (img : Image)
    (f : string) (fs : list string) (t initial : float) :
  current_img a = Some img ->
  input_files a = f :: fs ->
  target_size_kb_var a = Some t ->
  leb t (of_int 0) = false ->
  estimate img (input_files a) (current_preview_index a)
    (maintain_aspect_ratio a) (width img) (height img) (quality_var a)
  = Ok initial ->
  leb initial t = true ->
  calculate_dimensions a
  = (Ok tt,
     show (Info_NoResizingNeeded initial)
       (set_height_var (Some (height img))
          (set_width_var (Some (width img))
             (record_call (width img, height img, quality_var a) a)))).
Proof.
  intros Himg Hfiles Ht Hpos Hest Hle.
  unfold calculate_dimensions, bind at 1, get.
  rewrite Himg, Hfiles.
  unfold try_except, bind, lift, modify.
  rewrite Ht. cbn [entry_value]. rewrite Hpos.
  rewrite (estimate_file_size_run a img _ _ _ Himg), Hest, Hle.
  reflexivity.
Qed.


(** *** The validation of [process_images] *)

Lemma process_images_gate (a : App Image) (f : string) (fs : list string)
    (w h : Z) :
  input_files a = f :: fs ->
  (output_dir a =? "")%string = false ->
  width_var a = Some w ->
  height_var a = Some h ->
  process_images a
  = if (w <=? 0) || (h <=? 0)
    then (Ok None, show Error_InvalidSize_Positive a)
    else (Ok (Some (w, h)), a).
Proof.
  intros Hfiles Hout Hw Hh.
  unfold process_images, bind at 1, get. rewrite Hfiles, Hout.
  unfold try_except, bind, lift, modify, ret. rewrite Hw, Hh. cbn [entry_value].
  destruct ((w <=? 0) || (h <=? 0)); reflexivity.
Qed.

(** *** The three copies of the dimension computation *)

Lemma thread_dimensions_eq (img : Image) (TW TH : Z) (maintain : bool) :
  thread_dimensions img maintain TW TH = resize_image_dimensions img TW TH maintain.
Proof. reflexivity. Qed.

Lemma resize_image_dimensions_spec (img : Image) (TW TH : Z) (maintain : bool) :
  resize_image_dimensions img TW TH maintain
  = spec_resize_box to_int (width img) (height img) TW TH maintain.
Proof. reflexivity. Qed.

(** ** The specification, statement by statement *)

(** C1. Fast path: with an image loaded and a positive target, if the
    estimate at the original dimensions is at most the target, then
    [calculate_dimensions] stores the original width and height, shows
    "No Resizing Needed", and the probe is the only estimator call made. *)
Theorem fast_path_returns_original (a : App Image) (img : Image)
    (f : string) (fs : list string) (t initial : float) :
  current_img a = Some img ->
  input_files a = f :: fs ->
  target_size_kb_var a = Some t ->
  ltb zero t = true ->
  estimate img (input_files a) (current_preview_index a)
    (maintain_aspect_ratio a) (width img) (height img) (quality_var a)
  = Ok initial ->
  leb initial t = true ->
  exists a',
    calculate_dimensions a = (Ok tt, a') /\
    width_var a' = Some (width img) /\
    height_var a' = Some (height img) /\
    estimator_calls a'
    = estimator_calls a ++ [(width img, height img, quality_var a)] /\
    dialogs a' = dialogs a ++ [Info_NoResizingNeeded initial].
Proof.
  intros Himg Hfiles Ht Hpos Hest Hle.
  eexists. split.
  - apply (calculate_dimensions_fast_path a img f fs t initial); auto.
    apply positive_not_leb_zero; exact Hpos.
  - repeat split.
Qed.

(** C8. A target of zero or less, with an image loaded: the call returns
    after the error box "Target size must be greater than 0 KB."; the width
    and height entries are as before and the estimator was not called. *)
Theorem nonpositive_target_rejected (a : App Image) (img : Image)
    (f : string) (fs : list string) (t : float) :
  current_img a = Some img ->
  input_files a = f :: fs ->
  target_size_kb_var a = Some t ->
  leb t zero = true ->
  exists a',
    calculate_dimensions a = (Ok tt, a') /\
    dialogs a' = dialogs a ++ [Error_InvalidSize_Target] /\
    width_var a' = width_var a /\
    height_var a' = height_var a /\
    estimator_calls a' = estimator_calls a.
Proof.
  intros Himg Hfiles Ht Hle.
  eexists. split.
  - apply (calculate_dimensions_invalid_target a img f fs t); auto.
  - repeat split.
Qed.

(** C3, amended. With the aspect ratio kept, the dimensions are those of
    the specification's [resize_box] with [int()], truncation toward zero,
    where it says [round]: [(TW, int(TW / (W/H)))] when [W/H > 1], else
    [(int(TH * (W/H)), TH)].  The command line tool and the worker thread
    compute exactly this, and the estimator computes it before clamping
    to the original size. *)
Theorem aspect_dimensions_truncate (img : Image) (TW TH : Z) :
  resize_image_dimensions img TW TH true
  = spec_resize_box to_int (width img) (height img) TW TH true /\
  thread_dimensions img true TW TH
  = spec_resize_box to_int (width img) (height img) TW TH true /\
  estimate_dimensions img true TW TH
  = rbind (spec_resize_box to_int (width img) (height img) TW TH true)
      (fun d => Ok (Z.min (fst d) (width img), Z.min (snd d) (height img))).
Proof.
  split; [reflexivity|]. split; [reflexivity|].
  unfold estimate_dimensions, spec_resize_box.
  destruct (int_truediv (width img) (height img)) as [ratio|e]; [|reflexivity].
  cbn [rbind].
  destruct (gtb ratio (of_int 1)).
  - destruct (truediv (of_int TW) ratio) as [q|e]; [|reflexivity].
    cbn [rbind]. destruct (to_int q); reflexivity.
  - destruct (to_int (mul (of_int TH) ratio)); reflexivity.
Qed.

(** C6, amended. Without aspect preservation the resize of the command
    line tool and of the worker thread is to exactly [(TW, TH)]; the
    estimator resizes to [(min(TW, W), min(TH, H))], which is [(TW, TH)]
    only for a box that fits inside the original. *)
Theorem free_aspect_dimensions (img : Image) (TW TH : Z) :
  resize_image_dimensions img TW TH false = Ok (TW, TH) /\
  thread_dimensions img false TW TH = Ok (TW, TH) /\
  estimate_dimensions img false TW TH
  = if height img =? 0
    then Raise (mk_exn ZeroDivisionError "division by zero")
    else Ok (Z.min TW (width img), Z.min TH (height img)).
Proof.
  split; [reflexivity|]. split; [reflexivity|].
  unfold estimate_dimensions, int_truediv.
  destruct (height img =? 0); reflexivity.
Qed.

(** The computation alone gives less than one pixel per axis: for a
    positive original and a positive box it keeps one side of the box,
    hence at least 1 there, and the other side is a truncated quotient or
    product, never negative, which nothing keeps from being 0. *)
Lemma resize_dimensions_signs (img : Image) (TW TH : Z) (maintain : bool)
    (new_width new_height : Z) :
  0 < width img -> 0 < height img -> 0 < TW -> 0 < TH ->
  resize_image_dimensions img TW TH maintain = Ok (new_width, new_height) ->
  thread_dimensions img maintain TW TH = Ok (new_width, new_height) /\
  (new_width = TW /\ 1 <= new_width /\ 0 <= new_height \/
   new_height = TH /\ 1 <= new_height /\ 0 <= new_width) /\
  (maintain = false -> new_width = TW /\ new_height = TH).
Proof.
  intros HW HH HTW HTH Hdims.
  split; [exact Hdims|].
  unfold resize_image_dimensions in Hdims.
  destruct maintain.
  - unfold int_truediv in Hdims.
    destruct (height img =? 0); [discriminate|]. cbn [rbind] in Hdims.
    assert (Hratio : not_negative (SFdiv prec emax (of_int (width img))
                                     (of_int (height img))))
      by (apply div_not_negative; apply of_int_not_negative; lia).
    destruct (gtb _ (of_int 1)).
    + unfold truediv in Hdims. destruct (is_zero _); [discriminate|].
      cbn [rbind] in Hdims.
      destruct (to_int _) as [nh|e] eqn:Hnh; [|discriminate].
      cbn [rbind] in Hdims. injection Hdims as <- <-.
      split; [|discriminate]. left. repeat split; try lia.
      apply (to_int_not_negative _ _ (div_not_negative _ _
               (of_int_not_negative TW ltac:(lia)) Hratio) Hnh).
    + destruct (to_int _) as [nw|e] eqn:Hnw; [|discriminate].
      cbn [rbind] in Hdims. injection Hdims as <- <-.
      split; [|discriminate]. right. repeat split; try lia.
      apply (to_int_not_negative _ _ (mul_not_negative _ _
               (of_int_not_negative TH ltac:(lia)) Hratio) Hnw).
  - injection Hdims as <- <-. split; [|auto]. left. lia.
Qed.


(** C10. [resize_image] always returns a pair and raises nothing, whatever
    Pillow and the file system do.  The pair is [(True, None)] exactly
    when the open, the dimension computation, the resize and the save all
    succeed; otherwise it is [(False, str(e))] with [e] the exception of
    the first of these steps that raised. *)
Theorem resize_image_returns_pair (input_path output_path : string)
    (width_ height_ : Z) (maintain_aspect_ratio_ : bool) (quality : Z) :
  (resize_image input_path output_path width_ height_ maintain_aspect_ratio_
     quality = (true, None) /\
   exists img dims resized,
     Image_open input_path = Ok img /\
     resize_image_dimensions img width_ height_ maintain_aspect_ratio_
     = Ok dims /\
     Image_resize img dims = Ok resized /\
     (if is_jpeg_ext (ext_lower input_path)
      then Image_save resized output_path (Some quality)
      else Image_save resized output_path None) = Ok tt) \/
  (exists e,
     resize_image input_path output_path width_ height_
       maintain_aspect_ratio_ quality = (false, Some (exn_msg e)) /\
     (Image_open input_path = Raise e \/
      exists img,
        Image_open input_path = Ok img /\
        (resize_image_dimensions img width_ height_ maintain_aspect_ratio_
         = Raise e \/
         exists dims,
           resize_image_dimensions img width_ height_ maintain_aspect_ratio_
           = Ok dims /\
           (Image_resize img dims = Raise e \/
            exists resized,
              Image_resize img dims = Ok resized /\
              (if is_jpeg_ext (ext_lower input_path)
               then Image_save resized output_path (Some quality)
               else Image_save resized output_path None) = Raise e)))).
Proof.
  unfold resize_image, resize_image_body.
  destruct (Image_open input_path) as [img|e];
    [|right; exists e; split; [reflexivity|left; reflexivity]].
  cbn [rbind].
  destruct (resize_image_dimensions img width_ height_ maintain_aspect_ratio_)
    as [dims|e] eqn:Hd;
    [|right; exists e; split; [reflexivity|];
      right; exists img; split; [reflexivity|left; exact Hd]].
  cbn [rbind].
  destruct (Image_resize img dims) as [resized|e] eqn:Hr;
    [|right; exists e; split; [reflexivity|];
      right; exists img; split; [reflexivity|];
      right; exists dims; split; [exact Hd|left; exact Hr]].
  cbn [rbind].
  destruct (if is_jpeg_ext (ext_lower input_path)
            then Image_save resized output_path (Some quality)
            else Image_save resized output_path None) as [[]|e] eqn:Hsave.
  - left. split; [reflexivity|]. exists img, dims, resized.
    split; [reflexivity|]. split; [exact Hd|]. split; [exact Hr|exact Hsave].
  - right. exists e. split; [reflexivity|].
    right. exists img. split; [reflexivity|].
    right. exists dims. split; [exact Hd|].
    right. exists resized. split; [exact Hr|exact Hsave].
Qed.

End Properties.

(** ** The specification on concrete runs *)

(** Split conjunctions only, then evaluate each part. *)
Ltac conjuncts :=
  cbv zeta; repeat match goal with |- _ /\ _ => split end.
Ltac evaluate := vm_compute; reflexivity.

(** The scenarios of the specification, on the code. *)
Example scenario_landscape :
  resize_image_dimensions Sample.Picture Sample.pic_width Sample.pic_height
    Sample.wide 800 600 true = Ok (800, 400).
Proof. vm_compute. reflexivity. Qed.

Example scenario_portrait :
  resize_image_dimensions Sample.Picture Sample.pic_width Sample.pic_height
    Sample.tall 800 600 true = Ok (300, 600).
Proof. vm_compute. reflexivity. Qed.

Example scenario_zero_width_box :
  Sample.cli_resize "wide.jpg" "out/wide_resized.jpg" 0 500 false 85
  = (false, Some "height and width must be > 0"%string) /\
  Sample.process
    (Sample.with_box (Some 0) (Some 500)
       (Sample.app "wide.jpg" Sample.wide false (Some (of_int 600)) (400, 210)))
  = (Ok None,
     show Error_InvalidSize_Positive
       (Sample.with_box (Some 0) (Some 500)
          (Sample.app "wide.jpg" Sample.wide false (Some (of_int 600)) (400, 210)))).
Proof. conjuncts; evaluate. Qed.

(** C9, the code at the failing input.  A box of height 0 for a landscape
    image with the aspect ratio kept: the command line [resize_image]
    ignores the height, resizes to 800x400 and reports success, where
    [process_images] of the application refuses the same box with
    "Width and height must be positive numbers." *)
Theorem cli_accepts_zero_height_box :
  Sample.cli_resize "wide.jpg" "out/wide_resized.jpg" 800 0 true 85
  = (true, None) /\
  resize_image_dimensions Sample.Picture Sample.pic_width Sample.pic_height
    Sample.wide 800 0 true = Ok (800, 400) /\
  Sample.process
    (Sample.with_box (Some 800) (Some 0)
       (Sample.app "wide.jpg" Sample.wide true (Some (of_int 600)) (400, 210)))
  = (Ok None,
     show Error_InvalidSize_Positive
       (Sample.with_box (Some 800) (Some 0)
          (Sample.app "wide.jpg" Sample.wide true (Some (of_int 600)) (400, 210)))).
Proof. conjuncts; evaluate. Qed.

(** C2 as stated fails: a 2000x1000 image whose probe (1953.7 KB) is above
    the target of 600 KB, the preview canvas laid out.  Thirteen estimator
    calls follow the probe, not ten. *)
Lemma search_calls_counterexample :
  let a := Sample.app "wide.jpg" Sample.wide true (Some (of_int 600)) (400, 210) in
  (exists probe,
     Sample.estimate_on a Sample.wide 2000 1000 = Ok probe /\
     leb probe (of_int 600) = false) /\
  calls_after_probe a (snd (Sample.calculate a)) = 13%nat /\
  calls_after_probe a (snd (Sample.calculate a)) <> 10%nat.
Proof.
  conjuncts; [|evaluate|vm_compute; discriminate].
  exists (S754_finite false 8592511572377600 (-42)). conjuncts; evaluate.
Qed.

(** C3 as stated fails: a 3x2 image into the box (10, 10).  The code gives
    [int(10 / 1.5) = 6] for the height where [round] gives 7. *)
Lemma round_differs_counterexample :
  let img := Sample.mkPicture 3 2 in
  resize_image_dimensions Sample.Picture Sample.pic_width Sample.pic_height
    img 10 10 true = Ok (10, 6) /\
  spec_resize_box round 3 2 10 10 true = Ok (10, 7) /\
  resize_image_dimensions Sample.Picture Sample.pic_width Sample.pic_height
    img 10 10 true <> spec_resize_box round 3 2 10 10 true.
Proof.
  conjuncts; [evaluate|evaluate|vm_compute; discriminate].
Qed.

(** C4 as stated fails: a 5x5 image whose probe (0.61 KB) is above the
    target of 0.5 KB.  The search ends on the floor, (10, 10), which is
    larger than the original on both axes. *)
Lemma tiny_image_counterexample :
  let a := Sample.app "tiny.jpg" Sample.tiny true (Some lit_0_5) (400, 210) in
  ltb zero lit_0_5 = true /\
  width_var (snd (Sample.calculate a)) = Some 10 /\
  height_var (snd (Sample.calculate a)) = Some 10 /\
  Sample.pic_width Sample.tiny < 10 /\
  Sample.pic_height Sample.tiny < 10.
Proof. conjuncts; evaluate. Qed.

(** C5 as stated fails: the same 5x5 image with a target of 1 KB.  The
    probe (0.61 KB) is below the target, the fast path stores the original
    (5, 5), below the 10 pixel floor. *)
Lemma fast_path_below_floor_counterexample :
  let a := Sample.app "tiny.jpg" Sample.tiny true (Some lit_1_0) (400, 210) in
  ltb zero lit_1_0 = true /\
  width_var (snd (Sample.calculate a)) = Some 5 /\
  height_var (snd (Sample.calculate a)) = Some 5 /\
  ~ (10 <= 5).
Proof. conjuncts; try evaluate. lia. Qed.

(** C6 as stated fails: a 100x100 image and the box (200, 200) without
    aspect preservation.  The estimator resizes to (100, 100). *)
Lemma estimator_clamps_counterexample :
  estimate_dimensions Sample.Picture Sample.pic_width Sample.pic_height
    Sample.square false 200 200 = Ok (100, 100) /\
  estimate_dimensions Sample.Picture Sample.pic_width Sample.pic_height
    Sample.square false 200 200 <> Ok (200, 200).
Proof. split; [vm_compute; reflexivity|vm_compute; discriminate]. Qed.

(** An extreme ratio: a 1000x1 image into the box (800, 600) with the
    aspect ratio kept.  The computed height is [int(800 / 1000.0) = 0];
    Pillow refuses the size, so the command line tool reports the failure
    and the worker thread counts no file: no size is produced. *)
Example extreme_ratio_is_refused :
  resize_image_dimensions Sample.Picture Sample.pic_width Sample.pic_height
    Sample.strip 800 600 true = Ok (800, 0) /\
  thread_dimensions Sample.Picture Sample.pic_width Sample.pic_height
    Sample.strip true 800 600 = Ok (800, 0) /\
  Sample.cli_resize "strip.jpg" "out/strip_resized.jpg" 800 600 true 85
  = (false, Some "height and width must be > 0"%string) /\
  batch_written
    (SampleOS.worker 800 600
       (Sample.app "strip.jpg" Sample.strip true None (400, 210))) = [].
Proof. conjuncts; evaluate. Qed.

(** ** The theorems at concrete inputs *)


Lemma fast_path_returns_original_witness :
  let a := Sample.app "wide.jpg" Sample.wide true (Some (of_int 6000)) (400, 210) in
  exists a',
    Sample.calculate a = (Ok tt, a') /\
    width_var a' = Some 2000 /\
    height_var a' = Some 1000 /\
    estimator_calls a' = [(2000, 1000, 85)] /\
    dialogs a'
    = [Info_NoResizingNeeded (S754_finite false 8592511572377600 (-42))].
Proof.
  apply (fast_path_returns_original Sample.Picture Sample.pic_width
           Sample.pic_height Sample.open Sample.resize Sample.save_buffer
           Sample.ext_lower Sample.getsize
           (Sample.app "wide.jpg" Sample.wide true (Some (of_int 6000)) (400, 210))
           Sample.wide "wide.jpg" [] (of_int 6000)
           (S754_finite false 8592511572377600 (-42)));
    [reflexivity|reflexivity|reflexivity|reflexivity
    |vm_compute; reflexivity|vm_compute; reflexivity].
Defined.

Lemma nonpositive_target_rejected_witness :
  let a := Sample.app "wide.jpg" Sample.wide true (Some (of_int (-5))) (400, 210) in
  leb (of_int (-5)) zero = true /\
  exists a',
    Sample.calculate a = (Ok tt, a') /\
    dialogs a' = [Error_InvalidSize_Target] /\
    width_var a' = Some 800 /\
    height_var a' = Some 600 /\
    estimator_calls a' = [].
Proof.
  split; [vm_compute; reflexivity|].
  apply (nonpositive_target_rejected Sample.Picture Sample.pic_width
           Sample.pic_height Sample.open Sample.resize Sample.save_buffer
           Sample.ext_lower Sample.getsize
           (Sample.app "wide.jpg" Sample.wide true (Some (of_int (-5))) (400, 210))
           Sample.wide "wide.jpg" [] (of_int (-5)));
    [reflexivity|reflexivity|reflexivity|vm_compute; reflexivity].
Defined.



(** ** The order of floats *)

Lemma ltb_irrefl (x : float) : ltb x x = false.
Proof.
  destruct x as [[|]|[|]| |[|] m e]; try reflexivity;
    unfold ltb, SFltb, SFcompare; rewrite Z.compare_refl;
    change (Pos.compare_cont Eq m m) with (m ?= m)%positive;
    rewrite Pos.compare_refl; reflexivity.
Qed.

Lemma lex_lt_trans (e1 e2 e3 : Z) (m1 m2 m3 : positive) :
  match e1 ?= e2 with Lt => Lt | Gt => Gt | Eq => (m1 ?= m2)%positive end = Lt ->
  match e2 ?= e3 with Lt => Lt | Gt => Gt | Eq => (m2 ?= m3)%positive end = Lt ->
  match e1 ?= e3 with Lt => Lt | Gt => Gt | Eq => (m1 ?= m3)%positive end = Lt.
Proof.
  destruct (Z.compare_spec e1 e2), (Z.compare_spec e2 e3),
    (Z.compare_spec e1 e3); intros L1 L2; try discriminate; try lia;
    try reflexivity.
  rewrite Pos.compare_lt_iff in *. lia.
Qed.

Lemma lex_gt_trans (e1 e2 e3 : Z) (m1 m2 m3 : positive) :
  match e1 ?= e2 with Lt => Lt | Gt => Gt | Eq => (m1 ?= m2)%positive end = Gt ->
  match e2 ?= e3 with Lt => Lt | Gt => Gt | Eq => (m2 ?= m3)%positive end = Gt ->
  match e1 ?= e3 with Lt => Lt | Gt => Gt | Eq => (m1 ?= m3)%positive end = Gt.
Proof.
  destruct (Z.compare_spec e1 e2), (Z.compare_spec e2 e3),
    (Z.compare_spec e1 e3); intros L1 L2; try discriminate; try lia;
    try reflexivity.
  rewrite Pos.compare_gt_iff in *. lia.
Qed.

Lemma ltb_trans (x y z : float) :
  ltb x y = true -> ltb y z = true -> ltb x z = true.
Proof.
  unfold ltb, SFltb.
  destruct x as [[|]|[|]| |[|] mx ex], y as [[|]|[|]| |[|] my ey],
    z as [[|]|[|]| |[|] mz ez];
    cbn [SFcompare]; intros H1 H2; try discriminate; try reflexivity.
  - (* negative, negative, negative *)
    change (Pos.compare_cont Eq mx my) with (mx ?= my)%positive in H1.
    change (Pos.compare_cont Eq my mz) with (my ?= mz)%positive in H2.
    change (Pos.compare_cont Eq mx mz) with (mx ?= mz)%positive.
    assert (G1 : match ex ?= ey with
                 | Lt => Lt | Gt => Gt | Eq => (mx ?= my)%positive end = Gt).
    { destruct (ex ?= ey); try discriminate; try reflexivity.
      destruct (mx ?= my)%positive; try discriminate; reflexivity. }
    assert (G2 : match ey ?= ez with
                 | Lt => Lt | Gt => Gt | Eq => (my ?= mz)%positive end = Gt).
    { destruct (ey ?= ez); try discriminate; try reflexivity.
      destruct (my ?= mz)%positive; try discriminate; reflexivity. }
    pose proof (lex_gt_trans _ _ _ _ _ _ G1 G2) as G3.
    destruct (ex ?= ez); try discriminate; try reflexivity.
    rewrite G3. reflexivity.
  - (* positive, positive, positive *)
    change (Pos.compare_cont Eq mx my) with (mx ?= my)%positive in H1.
    change (Pos.compare_cont Eq my mz) with (my ?= mz)%positive in H2.
    change (Pos.compare_cont Eq mx mz) with (mx ?= mz)%positive.
    assert (G1 : match ex ?= ey with
                 | Lt => Lt | Gt => Gt | Eq => (mx ?= my)%positive end = Lt).
    { destruct (ex ?= ey); try discriminate; try reflexivity.
      destruct (mx ?= my)%positive; try discriminate; reflexivity. }
    assert (G2 : match ey ?= ez with
                 | Lt => Lt | Gt => Gt | Eq => (my ?= mz)%positive end = Lt).
    { destruct (ey ?= ez); try discriminate; try reflexivity.
      destruct (my ?= mz)%positive; try discriminate; reflexivity. }
    pose proof (lex_lt_trans _ _ _ _ _ _ G1 G2) as G3.
    destruct (ex ?= ez); try discriminate; try reflexivity.
    rewrite G3. reflexivity.
Qed.

(** A value that does not beat the old best does not beat a better one. *)
Lemma not_ltb_improved (d best best' : float) :
  ltb d best = false -> ltb best' best = true -> ltb d best' = false.
Proof.
  intros Hd Hb. destruct (ltb d best') eqn:Hc; [|reflexivity].
  rewrite (ltb_trans _ _ _ Hc Hb) in Hd. discriminate.
Qed.

(** ** More of the application *)

Section Application.

Variable Image : Type.
Variable width height : Image -> Z.
Variable Image_open : string -> result Image.
Variable Image_resize : Image -> Z * Z -> result Image.
Variable Image_save : Image -> string -> option Z -> result unit.
Variable Image_save_buffer : Image -> Format -> option Z -> result Z.
Variable ext_lower : string -> string.
Variable getsize : string -> result Z.
Variable resized_path : string -> string -> string.
Variable print_log : string -> Z * Z -> Z * Z -> Z -> Z -> result unit.

Local Abbreviation estimate :=
  (estimate Image width height Image_resize Image_save_buffer ext_lower).
Local Abbreviation estimate_dimensions := (estimate_dimensions Image width height).
Local Abbreviation estimate_file_size :=
  (estimate_file_size Image width height Image_resize Image_save_buffer ext_lower).
Local Abbreviation update_file_size_estimate :=
  (update_file_size_estimate Image width height Image_resize Image_save_buffer ext_lower).
Local Abbreviation update_preview :=
  (update_preview Image width height Image_open Image_resize Image_save_buffer
     ext_lower getsize).
Local Abbreviation toggle_mode :=
  (toggle_mode Image width height Image_open Image_resize Image_save_buffer
     ext_lower getsize).
Local Abbreviation search_iteration :=
  (search_iteration Image width height Image_resize Image_save_buffer ext_lower).
Local Abbreviation search_loop :=
  (search_loop Image width height Image_resize Image_save_buffer ext_lower).
Local Abbreviation calculate_dimensions :=
  (calculate_dimensions Image width height Image_open Image_resize
     Image_save_buffer ext_lower getsize).
Local Abbreviation process_images := (process_images Image).
Local Abbreviation thread_dimensions := (thread_dimensions Image width height).
Local Abbreviation process_save :=
  (process_save Image width height Image_open Image_resize Image_save ext_lower
     getsize resized_path).
Local Abbreviation process_one :=
  (process_one Image width height Image_open Image_resize Image_save ext_lower
     getsize resized_path print_log).
Local Abbreviation process_loop :=
  (process_loop Image width height Image_open Image_resize Image_save ext_lower
     getsize resized_path print_log).
Local Abbreviation _process_images_thread :=
  (_process_images_thread Image width height Image_open Image_resize Image_save
     ext_lower getsize resized_path print_log).
Local Abbreviation select_images :=
  (select_images Image width height Image_open Image_resize Image_save_buffer
     ext_lower getsize).
Local Abbreviation select_output_dir := (select_output_dir Image).
Local Abbreviation show_previous_preview :=
  (show_previous_preview Image width height Image_open Image_resize
     Image_save_buffer ext_lower getsize).
Local Abbreviation show_next_preview :=
  (show_next_preview Image width height Image_open Image_resize
     Image_save_buffer ext_lower getsize).
Local Abbreviation on_quality_change :=
  (on_quality_change Image width height Image_resize Image_save_buffer ext_lower).

(** *** Relations kept along a method *)

Section Respects.

Variable R : App Image -> App Image -> Prop.
Hypothesis R_refl : forall b, R b b.
Hypothesis R_trans : forall b1 b2 b3, R b1 b2 -> R b2 b3 -> R b1 b3.

Lemma respects_ret {A} (x : A) : respects R (ret (Image:=Image) x).
Proof. intros b. apply R_refl. Qed.

Lemma respects_lift {A} (r : result A) : respects R (lift (Image:=Image) r).
Proof. intros b. apply R_refl. Qed.

Lemma respects_get : respects R (get (Image:=Image)).
Proof. intros b. apply R_refl. Qed.

Lemma respects_modify (f : App Image -> App Image) :
  (forall b, R b (f b)) -> respects R (modify f).
Proof. intros Hf b. apply Hf. Qed.

Lemma respects_bind {A B} (m : M Image A) (f : A -> M Image B) :
  respects R m -> (forall x, respects R (f x)) -> respects R (bind m f).
Proof.
  intros Hm Hf b. unfold bind. specialize (Hm b).
  destruct (m b) as [[x|e] b1]; cbn [snd] in *; [|exact Hm].
  eapply R_trans; [exact Hm|apply Hf].
Qed.

Lemma respects_try_except {A} (m : M Image A) (c : exn -> bool)
    (h : exn -> M Image A) :
  respects R m -> (forall e, respects R (h e)) -> respects R (try_except m c h).
Proof.
  intros Hm Hh b. unfold try_except. specialize (Hm b).
  destruct (m b) as [[x|e] b1]; cbn [snd] in *; [exact Hm|].
  destruct (c e); cbn [snd]; [|exact Hm].
  eapply R_trans; [exact Hm|apply Hh].
Qed.

(** The methods below only use setters that [R] does not see. *)
Hypothesis R_record_call : forall c b, R b (record_call c b).
Hypothesis R_show : forall d b, R b (show d b).
Hypothesis R_set_current_img : forall v b, R b (set_current_img v b).
Hypothesis R_set_file_size_label : forall v b, R b (set_file_size_label v b).
Hypothesis R_schedule : forall b, R b (schedule_update_preview b).

Lemma respects_estimate_file_size (w h q : Z) :
  respects R (estimate_file_size w h q).
Proof.
  unfold estimate_file_size.
  apply respects_bind; [apply respects_modify, R_record_call|]. intros _.
  apply respects_bind; [apply respects_get|]. intros a.
  destruct (current_img a); [apply respects_lift|apply respects_ret].
Qed.

Lemma respects_update_file_size_estimate : respects R update_file_size_estimate.
Proof.
  unfold update_file_size_estimate. apply respects_try_except.
  - apply respects_bind; [apply respects_get|]. intros a.
    apply respects_bind; [apply respects_lift|]. intros w.
    apply respects_bind; [apply respects_lift|]. intros h.
    apply respects_bind; [apply respects_estimate_file_size|]. intros kb.
    apply respects_modify, R_set_file_size_label.
  - intros e. apply respects_modify, R_set_file_size_label.
Qed.

Lemma respects_update_preview : respects R update_preview.
Proof.
  unfold update_preview.
  apply respects_bind; [apply respects_get|]. intros a0.
  destruct (input_files a0) as [|f fs]; [apply respects_ret|].
  apply respects_try_except.
  - apply respects_bind; [apply respects_lift|]. intros img_path.
    apply respects_bind; [apply respects_lift|]. intros img.
    apply respects_bind; [apply respects_modify, R_set_current_img|]. intros _.
    destruct ((fst (preview_canvas_size a0) - 10 <=? 1)
              || (snd (preview_canvas_size a0) - 10 <=? 1)).
    + apply respects_modify, R_schedule.
    + apply respects_bind; [apply respects_lift|]. intros img_ratio.
      apply respects_bind; [apply respects_lift|]. intros preview_ratio.
      apply respects_bind; [apply respects_lift|]. intros display.
      apply respects_bind; [apply respects_lift|]. intros img_preview.
      apply respects_bind; [apply respects_lift|]. intros file_size_bytes.
      apply respects_bind; [apply respects_get|]. intros a1.
      destruct (negb (size_mode a1));
        [apply respects_update_file_size_estimate|apply respects_ret].
  - intros e. apply respects_modify, R_show.
Qed.

Lemma respects_toggle_mode : respects R toggle_mode.
Proof.
  unfold toggle_mode.
  apply respects_bind; [apply respects_get|]. intros a.
  destruct (current_img a); [apply respects_update_preview|apply respects_ret].
Qed.

Lemma respects_search_loop (n : nat) (W H q : Z) (t : float) (s : search) :
  respects R (search_loop n W H q t s).
Proof.
  revert s. induction n as [|n IH]; intros s.
  - apply respects_ret.
  - change (respects R (bind (search_iteration W H q t s) (search_loop n W H q t))).
    apply respects_bind; [|exact IH].
    unfold search_iteration.
    apply respects_bind; [apply respects_lift|]. intros scale.
    apply respects_bind; [apply respects_lift|]. intros tw.
    apply respects_bind; [apply respects_lift|]. intros th.
    apply respects_bind; [apply respects_estimate_file_size|]. intros kb.
    apply respects_ret.
Qed.

End Respects.


(** *** The settings survive every refresh *)

Lemma same_settings_refl (b : App Image) : same_settings b b.
Proof. repeat split. Qed.

Lemma same_settings_trans (b1 b2 b3 : App Image) :
  same_settings b1 b2 -> same_settings b2 b3 -> same_settings b1 b3.
Proof.
  unfold same_settings. intros H1 H2.
  repeat match goal with H : _ /\ _ |- _ => destruct H end.
  repeat split; congruence.
Qed.

Lemma same_selection_refl (b : App Image) : same_selection b b.
Proof. repeat split. Qed.

Lemma same_selection_trans (b1 b2 b3 : App Image) :
  same_selection b1 b2 -> same_selection b2 b3 -> same_selection b1 b3.
Proof.
  unfold same_selection. intros H1 H2.
  repeat match goal with H : _ /\ _ |- _ => destruct H end.
  repeat split; congruence.
Qed.

Lemma same_settings_selection (b b' : App Image) :
  same_settings b b' -> same_selection b b'.
Proof.
  unfold same_settings, same_selection. intros H.
  repeat match goal with H : _ /\ _ |- _ => destruct H end.
  repeat split; assumption.
Qed.

Lemma update_preview_settings (b : App Image) :
  same_settings b (snd (update_preview b)).
Proof.
  apply (respects_update_preview same_settings same_settings_refl
           same_settings_trans); intros; repeat split.
Qed.

Lemma update_preview_returns (b : App Image) : fst (update_preview b) = Ok tt.
Proof.
  unfold update_preview, bind at 1, get.
  destruct (input_files b) as [|f fs]; [reflexivity|].
  unfold try_except.
  match goal with
  | |- context [match ?m b with _ => _ end] => destruct (m b) as [[[]|e] b1]
  end; reflexivity.
Qed.

Lemma preview_error_dialogs (m : M Image unit) (b : App Image) :
  dialogs (snd (m b)) = dialogs b ->
  dialogs (snd (try_except m any_exception
                  (fun e => modify (show (Error_PreviewError e))) b))
  = dialogs b \/
  exists e,
    dialogs (snd (try_except m any_exception
                    (fun e => modify (show (Error_PreviewError e))) b))
    = dialogs b ++ [Error_PreviewError e].
Proof.
  intros Hbody. unfold try_except.
  destruct (m b) as [[x|e] b1]; cbn [snd any_exception modify] in *.
  - left. exact Hbody.
  - right. exists e. cbn [dialogs show]. rewrite Hbody. reflexivity.
Qed.

Lemma update_preview_dialogs (b : App Image) :
  dialogs (snd (update_preview b)) = dialogs b \/
  exists e, dialogs (snd (update_preview b)) = dialogs b ++ [Error_PreviewError e].
Proof.
  assert (Hany : forall r, r = update_preview b ->
            dialogs (snd r) = dialogs b \/
            exists e, dialogs (snd r) = dialogs b ++ [Error_PreviewError e]);
    [|exact (Hany _ eq_refl)].
  intros r Hr. unfold update_preview, bind at 1, get in Hr.
  destruct (input_files b) as [|f fs]; [subst r; left; reflexivity|].
  subst r. apply (preview_error_dialogs _ b).
  unfold bind, lift, modify, ret.
    destruct (index (f :: fs) (current_preview_index b)) as [img_path|e];
      [|reflexivity].
    destruct (Image_open img_path) as [img|e]; [|reflexivity].
    destruct ((fst (preview_canvas_size b) - 10 <=? 1)
              || (snd (preview_canvas_size b) - 10 <=? 1)); [reflexivity|].
    destruct (int_truediv (width img) (height img)) as [img_ratio|e];
      [|reflexivity].
    destruct (int_truediv _ _) as [preview_ratio|e]; [|reflexivity].
    destruct (if gtb img_ratio preview_ratio then _ else _) as [display|e];
      [|reflexivity].
    destruct (Image_resize img display) as [img_preview|e]; [|reflexivity].
    destruct (getsize img_path) as [bytes|e]; [|reflexivity].
    unfold get. cbn [size_mode set_current_img].
    destruct (negb (size_mode b)); [|reflexivity].
    set (b1 := set_current_img (Some img) b).
    change (dialogs b) with (dialogs b1).
    unfold update_file_size_estimate, try_except, bind, get, lift, modify.
    destruct (entry_value (width_var b1) _) as [w|e];
      [|destruct (is_value_or_attribute_error e); reflexivity].
    destruct (entry_value (height_var b1) _) as [h|e];
      [|destruct (is_value_or_attribute_error e); reflexivity].
    pose proof (estimate_file_size_state Image width height Image_resize
                  Image_save_buffer ext_lower b1 w h (quality_var b1)) as Hst.
    destruct (estimate_file_size w h (quality_var b1) b1) as [[kb|e] b2];
      cbn [snd] in Hst; subst b2; [reflexivity|].
    destruct (is_value_or_attribute_error e); reflexivity.
Qed.

Lemma update_preview_open_failure (b : App Image) (f : string)
    (fs : list string) (e : exn) :
  input_files b = f :: fs ->
  index (input_files b) (current_preview_index b) = Raise e \/
  (exists img_path,
     index (input_files b) (current_preview_index b) = Ok img_path /\
     Image_open img_path = Raise e) ->
  update_preview b = (Ok tt, show (Error_PreviewError e) b).
Proof.
  intros Hf Hfail.
  unfold update_preview, bind at 1, get. rewrite Hf in *.
  unfold try_except, bind, lift.
  destruct Hfail as [Hi|(img_path & Hi & Ho)]; rewrite Hi; [reflexivity|].
  rewrite Ho. reflexivity.
Qed.

(** X1. [update_preview] never raises: it returns normally and leaves the
    files, the output directory, the two dimension entries, the check
    box, the quality, the target, the mode and the preview index as they
    were.  It shows at most one message box, a "Preview Error", and it
    does show it with the exception caught: when the preview index is
    outside the list, or when Pillow cannot open the file, the state is
    otherwise unchanged and the box carries that exception. *)
Theorem update_preview_is_harmless (b : App Image) :
  fst (update_preview b) = Ok tt /\
  same_settings b (snd (update_preview b)) /\
  (dialogs (snd (update_preview b)) = dialogs b \/
   exists e,
     dialogs (snd (update_preview b)) = dialogs b ++ [Error_PreviewError e]) /\
  (forall f fs e,
     input_files b = f :: fs ->
     index (input_files b) (current_preview_index b) = Raise e \/
     (exists img_path,
        index (input_files b) (current_preview_index b) = Ok img_path /\
        Image_open img_path = Raise e) ->
     update_preview b = (Ok tt, show (Error_PreviewError e) b)).
Proof.
  split; [apply update_preview_returns|].
  split; [apply update_preview_settings|].
  split; [apply update_preview_dialogs|].
  intros f fs e. apply update_preview_open_failure.
Qed.

(** X2. In target-size mode, or while the preview canvas is not laid out
    (a side of 11 pixels or less), [update_preview] does not call the
    estimator and does not touch the estimated-size label. *)
Theorem update_preview_without_estimate (b : App Image) :
  size_mode b = true \/
  fst (preview_canvas_size b) - 10 <= 1 \/
  snd (preview_canvas_size b) - 10 <= 1 ->
  estimator_calls (snd (update_preview b)) = estimator_calls b /\
  file_size_label (snd (update_preview b)) = file_size_label b.
Proof.
  intros Hcase.
  unfold update_preview, bind, get, try_except, lift, modify, ret.
  destruct (input_files b) as [|f fs]; [split; reflexivity|].
  destruct (index (f :: fs) (current_preview_index b)) as [img_path|e];
    [|split; reflexivity].
  destruct (Image_open img_path) as [img|e]; [|split; reflexivity].
  cbn [any_exception].
  destruct ((fst (preview_canvas_size b) - 10 <=? 1)
            || (snd (preview_canvas_size b) - 10 <=? 1)) eqn:Hcanvas;
    [split; reflexivity|].
  apply orb_false_elim in Hcanvas. destruct Hcanvas as [Hw Hh].
  apply Z.leb_gt in Hw. apply Z.leb_gt in Hh.
  destruct Hcase as [Hmode|[Hc|Hc]]; try lia.
  destruct (int_truediv (width img) (height img)) as [img_ratio|e];
    [|split; reflexivity].
  destruct (int_truediv _ _) as [preview_ratio|e]; [|split; reflexivity].
  destruct (if gtb img_ratio preview_ratio then _ else _) as [display|e];
    [|split; reflexivity].
  destruct (Image_resize img display) as [img_preview|e]; [|split; reflexivity].
  destruct (getsize img_path) as [bytes|e]; [|split; reflexivity].
  cbn [size_mode set_current_img]. rewrite Hmode. split; reflexivity.
Qed.


(** X3. Switching between the two modes never raises and changes none
    of the settings; without a loaded image it changes nothing at all. *)
Theorem toggle_mode_is_harmless (b : App Image) :
  fst (toggle_mode b) = Ok tt /\
  same_settings b (snd (toggle_mode b)) /\
  (current_img b = None -> toggle_mode b = (Ok tt, b)).
Proof.
  unfold toggle_mode, bind, get.
  destruct (current_img b) as [img|].
  - split; [apply update_preview_returns|].
    split; [apply update_preview_settings|discriminate].
  - split; [reflexivity|]. split; [apply same_settings_refl|reflexivity].
Qed.

(** *** Selection and navigation *)

Lemma wrap_index_lt (i : nat) (step : Z) (n : nat) :
  (0 < n)%nat -> (wrap_index i step n < n)%nat.
Proof.
  intros Hn. unfold wrap_index.
  pose proof (Z.mod_pos_bound (Z.of_nat i + step) (Z.of_nat n)) as B. lia.
Qed.

Lemma wrap_index_back (i : nat) (step : Z) (n : nat) :
  (i < n)%nat -> wrap_index (wrap_index i step n) (- step) n = i.
Proof.
  intros Hi. unfold wrap_index.
  pose proof (Z.mod_pos_bound (Z.of_nat i + step) (Z.of_nat n)) as B.
  rewrite Z2Nat.id by lia.
  rewrite Zplus_mod_idemp_l.
  replace (Z.of_nat i + step + - step) with (Z.of_nat i) by lia.
  rewrite Z.mod_small by lia. apply Nat2Z.id.
Qed.

Lemma show_next_preview_state (b : App Image) (f : string) (fs : list string) :
  input_files b = f :: fs ->
  show_next_preview b
  = update_preview
      (set_current_preview_index
         (wrap_index (current_preview_index b) 1 (List.length (input_files b))) b).
Proof.
  intros Hf. unfold show_next_preview, bind, get, modify. rewrite Hf. reflexivity.
Qed.

Lemma show_previous_preview_state (b : App Image) (f : string) (fs : list string) :
  input_files b = f :: fs ->
  show_previous_preview b
  = update_preview
      (set_current_preview_index
         (wrap_index (current_preview_index b) (-1) (List.length (input_files b))) b).
Proof.
  intros Hf. unfold show_previous_preview, bind, get, modify. rewrite Hf. reflexivity.
Qed.

Lemma navigation_index (b : App Image) (f : string) (fs : list string) :
  input_files b = f :: fs ->
  (input_files (snd (show_next_preview b)) = input_files b /\
   current_preview_index (snd (show_next_preview b))
   = wrap_index (current_preview_index b) 1 (List.length (input_files b))) /\
  (input_files (snd (show_previous_preview b)) = input_files b /\
   current_preview_index (snd (show_previous_preview b))
   = wrap_index (current_preview_index b) (-1) (List.length (input_files b))).
Proof.
  intros Hf.
  rewrite (show_next_preview_state b f fs Hf),
          (show_previous_preview_state b f fs Hf).
  split.
  - destruct (update_preview_settings
                (set_current_preview_index
                   (wrap_index (current_preview_index b) 1
                      (List.length (input_files b))) b))
      as (Hfiles & _ & _ & _ & _ & _ & _ & _ & Hidx & _).
    split; [exact Hfiles|exact Hidx].
  - destruct (update_preview_settings
                (set_current_preview_index
                   (wrap_index (current_preview_index b) (-1)
                      (List.length (input_files b))) b))
      as (Hfiles & _ & _ & _ & _ & _ & _ & _ & Hidx & _).
    split; [exact Hfiles|exact Hidx].
Qed.

(** X4. With at least one file selected, "Next" and "Previous" never raise
    and leave the preview index inside the list (it wraps around at both
    ends), whatever the index was before; the list itself is unchanged. *)
Theorem navigation_stays_in_range (b : App Image) (f : string)
    (fs : list string) :
  input_files b = f :: fs ->
  (fst (show_next_preview b) = Ok tt /\
   input_files (snd (show_next_preview b)) = input_files b /\
   current_preview_index (snd (show_next_preview b))
   = wrap_index (current_preview_index b) 1 (List.length (input_files b)) /\
   (current_preview_index (snd (show_next_preview b))
    < List.length (input_files b))%nat) /\
  (fst (show_previous_preview b) = Ok tt /\
   input_files (snd (show_previous_preview b)) = input_files b /\
   current_preview_index (snd (show_previous_preview b))
   = wrap_index (current_preview_index b) (-1) (List.length (input_files b)) /\
   (current_preview_index (snd (show_previous_preview b))
    < List.length (input_files b))%nat).
Proof.
  intros Hf.
  assert (Hlen : (0 < List.length (input_files b))%nat)
    by (rewrite Hf; cbn; lia).
  destruct (navigation_index b f fs Hf) as [[Hn_files Hn_idx] [Hp_files Hp_idx]].
  split.
  - split.
    { rewrite (show_next_preview_state b f fs Hf). apply update_preview_returns. }
    split; [exact Hn_files|]. split; [exact Hn_idx|].
    rewrite Hn_idx. apply wrap_index_lt, Hlen.
  - split.
    { rewrite (show_previous_preview_state b f fs Hf).
      apply update_preview_returns. }
    split; [exact Hp_files|]. split; [exact Hp_idx|].
    rewrite Hp_idx. apply wrap_index_lt, Hlen.
Qed.

(** X5. "Next" followed by "Previous" shows the image one started from, and
    so does "Previous" followed by "Next", for an index inside the list. *)
Theorem next_and_previous_cancel (b : App Image) :
  (current_preview_index b < List.length (input_files b))%nat ->
  current_preview_index
    (snd (show_previous_preview (snd (show_next_preview b))))
  = current_preview_index b /\
  current_preview_index
    (snd (show_next_preview (snd (show_previous_preview b))))
  = current_preview_index b.
Proof.
  intros Hi.
  destruct (input_files b) as [|f fs] eqn:Hf; [cbn in Hi; lia|].
  destruct (navigation_index b f fs Hf)
    as [[Hn_files Hn_idx] [Hp_files Hp_idx]].
  rewrite Hf in Hn_files, Hp_files.
  destruct (navigation_index _ f fs Hn_files) as [_ [_ Hnp]].
  destruct (navigation_index _ f fs Hp_files) as [[_ Hpn] _].
  rewrite Hnp, Hpn, Hn_idx, Hp_idx, Hn_files, Hp_files, ?Hf.
  split.
  - apply (wrap_index_back _ 1). exact Hi.
  - change 1 with (- (-1)). apply wrap_index_back. exact Hi.
Qed.

(** X6. Choosing a non-empty set of files replaces the selection, moves the
    preview to the first file and never raises; the output directory and
    the entries are kept. *)
Theorem select_images_resets_preview (b : App Image) (p : string)
    (ps : list string) :
  fst (select_images (p :: ps) b) = Ok tt /\
  input_files (snd (select_images (p :: ps) b)) = p :: ps /\
  current_preview_index (snd (select_images (p :: ps) b)) = 0%nat /\
  output_dir (snd (select_images (p :: ps) b)) = output_dir b /\
  width_var (snd (select_images (p :: ps) b)) = width_var b /\
  height_var (snd (select_images (p :: ps) b)) = height_var b.
Proof.
  unfold select_images, bind, modify.
  set (b1 := set_current_preview_index 0 (set_input_files (p :: ps) b)).
  destruct (update_preview_settings b1)
    as (Hfiles & Hout & Hw & Hh & _ & _ & _ & _ & Hidx & _).
  split; [apply update_preview_returns|].
  repeat split; assumption.
Qed.


(** *** The size estimate shown beside the entries *)

(** X7. When the width or the height entry does not hold an integer,
    [update_file_size_estimate] clears the label and returns: the
    [ValueError] of the conversion is not raised further, the estimator is
    not called and nothing else changes. *)
Theorem size_estimate_needs_both_entries (b : App Image) :
  width_var b = None \/ height_var b = None ->
  update_file_size_estimate b = (Ok tt, set_file_size_label None b).
Proof.
  intros Hcase.
  unfold update_file_size_estimate, try_except, bind, get, lift, modify.
  destruct (width_var b) as [w|] eqn:Hw.
  - destruct (height_var b) as [h|] eqn:Hh; [destruct Hcase; discriminate|].
    reflexivity.
  - reflexivity.
Qed.

(** X8. With both entries valid and an image loaded,
    [update_file_size_estimate] makes one estimator call at the entries and
    the current quality.  The label shows the estimate when there is one;
    a [ValueError] or [AttributeError] of the estimator clears the label
    and is swallowed; any other exception is raised to the caller with the
    label as it was. *)
Theorem size_estimate_outcome (b : App Image) (img : Image) (w h : Z) :
  current_img b = Some img ->
  width_var b = Some w ->
  height_var b = Some h ->
  update_file_size_estimate b
  = match estimate img (input_files b) (current_preview_index b)
            (maintain_aspect_ratio b) w h (quality_var b) with
    | Ok size_kb =>
        (Ok tt,
         set_file_size_label (Some size_kb)
           (record_call (w, h, quality_var b) b))
    | Raise e =>
        if is_value_or_attribute_error e
        then (Ok tt,
              set_file_size_label None (record_call (w, h, quality_var b) b))
        else (Raise e, record_call (w, h, quality_var b) b)
    end.
Proof.
  intros Himg Hw Hh.
  unfold update_file_size_estimate, try_except, bind at 1 2 3, get, lift.
  rewrite Hw, Hh. cbn [entry_value].
  unfold bind.
  rewrite (estimate_file_size_run Image width height Image_resize
             Image_save_buffer ext_lower b img w h (quality_var b) Himg).
  destruct (estimate img _ _ _ w h (quality_var b)) as [kb|e]; [reflexivity|].
  destruct (is_value_or_attribute_error e); reflexivity.
Qed.

(** *** [calculate_dimensions] away from the search *)

(** X9. Without a loaded image or without files, [calculate_dimensions] only
    shows "Please select an image first."; with them but with a target
    entry that is not a number, it only shows "Please enter a valid
    number for target size."  In both cases it returns normally, calls no
    estimator and changes nothing else. *)
Theorem calculate_dimensions_not_ready (b : App Image) :
  current_img b = None \/ input_files b = [] \/ target_size_kb_var b = None ->
  calculate_dimensions b
  = (Ok tt,
     show (match current_img b, input_files b with
           | Some _, _ :: _ => Error_InvalidInput
           | _, _ => Warning_NoImage
           end) b).
Proof.
  intros Hcase.
  unfold calculate_dimensions, bind at 1, get.
  destruct (current_img b) as [img|]; [|reflexivity].
  destruct (input_files b) as [|f fs]; [reflexivity|].
  destruct Hcase as [H|[H|H]]; try discriminate.
  unfold try_except, bind, lift, modify. rewrite H. reflexivity.
Qed.

(** X10. When the very first estimate (at the original size) fails: a
    [ValueError], such as Pillow's refusal of an empty size, is reported
    as "Please enter a valid number for target size." and the call
    returns; any other exception is raised to the caller.  Either way the
    width and height entries keep their values. *)
Theorem calculate_dimensions_probe_failure (b : App Image) (img : Image)
    (f : string) (fs : list string) (t : float) (e : exn) :
  current_img b = Some img ->
  input_files b = f :: fs ->
  target_size_kb_var b = Some t ->
  leb t zero = false ->
  estimate img (input_files b) (current_preview_index b)
    (maintain_aspect_ratio b) (width img) (height img) (quality_var b)
  = Raise e ->
  calculate_dimensions b
  = (if is_value_error e
     then (Ok tt,
           show Error_InvalidInput
             (record_call (width img, height img, quality_var b) b))
     else (Raise e, record_call (width img, height img, quality_var b) b))
  /\ width_var (snd (calculate_dimensions b)) = width_var b
  /\ height_var (snd (calculate_dimensions b)) = height_var b.
Proof.
  intros Himg Hfiles Ht Hpos Hest.
  assert (Hrun : calculate_dimensions b
    = (if is_value_error e
       then (Ok tt,
             show Error_InvalidInput
               (record_call (width img, height img, quality_var b) b))
       else (Raise e, record_call (width img, height img, quality_var b) b))).
  { unfold calculate_dimensions, bind at 1, get.
    rewrite Himg, Hfiles.
    unfold try_except, bind, lift, modify.
    rewrite Ht. cbn [entry_value].
    change (of_int 0) with zero. rewrite Hpos.
    rewrite (estimate_file_size_run Image width height Image_resize
               Image_save_buffer ext_lower b img _ _ _ Himg), Hest.
    destruct (is_value_error e); reflexivity. }
  split; [exact Hrun|]. rewrite Hrun.
  destruct (is_value_error e); split; reflexivity.
Qed.

(** *** [process_images] *)

Lemma process_images_cases (b : App Image) :
  process_images b
  = match input_files b with
    | [] => (Ok None, show Warning_NoInput b)
    | _ :: _ =>
        if (output_dir b =? "")%string
        then (Ok None, show Warning_NoOutput b)
        else
          match width_var b, height_var b with
          | Some w, Some h =>
              if (w <=? 0) || (h <=? 0)
              then (Ok None, show Error_InvalidSize_Positive b)
              else (Ok (Some (w, h)), b)
          | _, _ => (Ok None, show Error_InvalidSize_Number b)
          end
    end.
Proof.
  unfold process_images, bind at 1, get.
  destruct (input_files b) as [|f fs]; [reflexivity|].
  destruct (output_dir b =? "")%string; [reflexivity|].
  unfold try_except, bind, lift, modify, ret.
  destruct (width_var b) as [w|]; [|reflexivity].
  destruct (height_var b) as [h|]; [|reflexivity].
  cbn [entry_value].
  destruct ((w <=? 0) || (h <=? 0)); reflexivity.
Qed.

(** X11. [process_images] never raises, and it starts the worker thread
    exactly when files and an output directory are selected and both
    entries hold positive integers; the thread then gets these two
    integers and no message box is shown.  In every other case no thread
    is started and exactly one message box is shown. *)
Theorem process_images_starts_worker_iff (b : App Image) (w h : Z) :
  (process_images b = (Ok (Some (w, h)), b) <->
   input_files b <> [] /\ output_dir b <> ""%string /\
   width_var b = Some w /\ height_var b = Some h /\ 0 < w /\ 0 < h) /\
  ((exists d, process_images b = (Ok None, show d b)) \/
   (exists w' h', process_images b = (Ok (Some (w', h')), b))).
Proof.
  rewrite process_images_cases.
  destruct (input_files b) as [|f fs] eqn:Hfiles.
  { split.
    - split; [discriminate|]. intros (H & _). congruence.
    - left. eexists. reflexivity. }
  destruct (output_dir b =? "")%string eqn:Hout.
  { apply String.eqb_eq in Hout. split.
    - split; [discriminate|]. intros (_ & H & _). congruence.
    - left. eexists. reflexivity. }
  apply String.eqb_neq in Hout.
  destruct (width_var b) as [w0|] eqn:Hw.
  2:{ split.
      - split; [discriminate|]. intros (_ & _ & H & _). discriminate.
      - left. eexists. reflexivity. }
  destruct (height_var b) as [h0|] eqn:Hh.
  2:{ split.
      - split; [discriminate|]. intros (_ & _ & _ & H & _). discriminate.
      - left. eexists. reflexivity. }
  destruct ((w0 <=? 0) || (h0 <=? 0)) eqn:Hpos.
  - split.
    + split; [discriminate|]. intros (_ & _ & Ew & Eh & Pw & Ph).
      injection Ew as <-. injection Eh as <-.
      apply orb_true_iff in Hpos. destruct Hpos as [H|H]; apply Z.leb_le in H; lia.
    + left. eexists. reflexivity.
  - apply orb_false_elim in Hpos. destruct Hpos as [Pw Ph].
    apply Z.leb_gt in Pw. apply Z.leb_gt in Ph.
    split.
    + split.
      * intros H. injection H as <- <-.
        repeat split; auto; discriminate.
      * intros (_ & _ & Ew & Eh & _). congruence.
    + right. exists w0, h0. reflexivity.
Qed.

(** *** The worker thread *)

Lemma process_loop_run (b : App Image) (files : list string) (w h q : Z) :
  forall (processed : Z) (done : list (string * (Z * Z)))
         (scheduled : list callback),
  process_loop b files w h q processed done scheduled
  = mkBatch
      (processed
       + Z.of_nat (List.length
                     (files_counted (fun p => process_one b p w h q) files)))
      (done ++ files_counted (fun p => process_one b p w h q) files)
      (scheduled ++ errors_scheduled (fun p => process_one b p w h q) files).
Proof.
  induction files as [|p rest IH]; intros processed done scheduled.
  - cbn. rewrite Z.add_0_r, !app_nil_r. reflexivity.
  - cbn [process_loop]. cbv zeta. rewrite IH.
    unfold files_counted, errors_scheduled. cbn [flat_map].
    destruct (counted (process_one b p w h q)) as [dims|],
             (raised (process_one b p w h q)) as [e|];
      cbn [app List.length]; rewrite <- ?app_assoc; cbn [app];
      rewrite ?Nat2Z.inj_succ; f_equal; lia.
Qed.

Lemma process_one_counted (b : App Image) (p : string) (w h q : Z)
    (dims : Z * Z) :
  counted (process_one b p w h q) = Some dims <->
  exists s, process_save b p w h q = Ok s /\ saved_dims s = dims.
Proof.
  unfold process_one.
  destruct (process_save b p w h q) as [s|e].
  - destruct (print_log _ _ _ _ _); cbn [counted]; split.
    + intros H. injection H as <-. exists s. split; reflexivity.
    + intros (s' & Hs & <-). injection Hs as <-. reflexivity.
    + intros H. injection H as <-. exists s. split; reflexivity.
    + intros (s' & Hs & <-). injection Hs as <-. reflexivity.
  - cbn [counted]. split; [discriminate|]. intros (s & Hs & _). discriminate.
Qed.





(** X13. With "Maintain aspect ratio" off, every file the worker writes has
    exactly the requested width and height. *)
Theorem batch_free_aspect_sizes (b : App Image) (w h : Z) :
  maintain_aspect_ratio b = false ->
  Forall (fun e => snd e = (w, h)) (batch_written (_process_images_thread w h b)).
Proof.
  intros Hoff. unfold _process_images_thread. cbv zeta.
  rewrite process_loop_run. cbn [batch_written app].
  unfold files_counted. apply Forall_forall. intros [p dims] Hin.
  apply in_flat_map in Hin. destruct Hin as (p' & _ & Hin).
  destruct (counted (process_one b p' w h (quality_var b))) as [d|] eqn:Hc;
    [|contradiction].
  destruct Hin as [Heq|[]]. injection Heq as -> ->.
  apply process_one_counted in Hc. destruct Hc as (s & Hs & <-).
  cbn [snd]. unfold process_save in Hs. rewrite Hoff in Hs.
  destruct (Image_open p) as [img|e]; [|discriminate]. cbn [rbind] in Hs.
  destruct (getsize p) as [sz|e]; [|discriminate]. cbn [rbind] in Hs.
  unfold thread_dimensions in Hs. cbn [rbind] in Hs.
  destruct (Image_resize img (w, h)) as [r|e]; [|discriminate].
  cbn [rbind] in Hs.
  destruct (if is_jpeg_ext (ext_lower p) then _ else _) as [u|e];
    [|discriminate].
  cbn [rbind] in Hs.
  destruct (getsize _) as [sz2|e]; [|discriminate].
  cbn [rbind] in Hs. injection Hs as <-. reflexivity.
Qed.

(** *** The estimator's own resize *)

(** X14. The size the estimator resizes to never exceeds the original on
    either axis, whatever box it is asked for ("Don't allow dimensions
    greater than original"). *)
Theorem estimate_never_upscales (img : Image) (maintain : bool)
    (w h new_width new_height : Z) :
  estimate_dimensions img maintain w h = Ok (new_width, new_height) ->
  new_width <= width img /\ new_height <= height img.
Proof.
  unfold estimate_dimensions. intros Hrun.
  destruct (int_truediv (width img) (height img)) as [ratio|e];
    [|discriminate].
  cbn [rbind] in Hrun.
  destruct (if maintain then _ else _) as [[nw nh]|e]; [|discriminate].
  cbn [rbind] in Hrun. injection Hrun as <- <-. lia.
Qed.

(** X15. With the aspect check box off, a box that is at least the original
    on both axes gets the estimate of the original: enlarging is never
    estimated. *)
Theorem estimate_saturates_at_original (img : Image) (files : list string)
    (idx : nat) (w h quality : Z) :
  width img <= w ->
  height img <= h ->
  estimate img files idx false w h quality
  = estimate img files idx false (width img) (height img) quality.
Proof.
  intros Hw Hh. unfold estimate, estimate_dimensions.
  destruct (int_truediv (width img) (height img)) as [ratio|e];
    [|reflexivity].
  cbn [rbind]. rewrite !Z.min_id, (Z.min_r w), (Z.min_r h) by lia.
  reflexivity.
Qed.

(** X16. The estimator encodes as PNG or GIF only a file whose extension is
    [.png] or [.gif]; every other file, a [.bmp] or [.tiff] among them, is
    estimated as a JPEG at the current quality, and the quality is passed
    to the encoder exactly when the format is JPEG. *)
Theorem estimator_encodes_unknown_as_jpeg (ext : string) (quality : Z) :
  (fst (buffer_encoder ext quality) = JPEG <->
   ext <> ".png"%string /\ ext <> ".gif"%string) /\
  snd (buffer_encoder ext quality)
  = match fst (buffer_encoder ext quality) with
    | JPEG => Some quality
    | _ => None
    end.
Proof.
  unfold buffer_encoder, is_jpeg_ext.
  destruct (ext =? ".jpg")%string eqn:J1;
    [apply String.eqb_eq in J1; subst ext; cbn;
     split; [split; [split; discriminate|reflexivity]|reflexivity]|].
  destruct (ext =? ".jpeg")%string eqn:J2;
    [apply String.eqb_eq in J2; subst ext; cbn;
     split; [split; [split; discriminate|reflexivity]|reflexivity]|].
  cbn [orb].
  destruct (ext =? ".png")%string eqn:P.
  { apply String.eqb_eq in P. cbn [fst snd].
    split; [|reflexivity]. split; [discriminate|]. intros [H _]. contradiction. }
  destruct (ext =? ".gif")%string eqn:G.
  { apply String.eqb_eq in G. cbn [fst snd].
    split; [|reflexivity]. split; [discriminate|]. intros [_ H]. contradiction. }
  apply String.eqb_neq in P. apply String.eqb_neq in G. cbn [fst snd].
  split; [|reflexivity]. split; [intros _; split; assumption|reflexivity].
Qed.

(** *** The quality slider *)

(** X17. Moving the quality slider never changes an entry or the selection
    and calls the estimator at most once; without a loaded image, or in
    target-size mode, it does nothing at all. *)
Theorem quality_change_refreshes_estimate (b : App Image) :
  same_settings b (snd (on_quality_change b)) /\
  keeps_result 1 b (snd (on_quality_change b)) /\
  (current_img b = None \/ size_mode b = true ->
   on_quality_change b = (Ok tt, b)).
Proof.
  unfold on_quality_change, bind, get.
  destruct (current_img b) as [img|] eqn:Himg.
  - destruct (size_mode b) eqn:Hmode; cbn [negb].
    + split; [apply same_settings_refl|].
      split; [|reflexivity].
      apply (keeps_result_weaken Image 0 1); [lia|apply keeps_result_refl].
    + split.
      { apply (respects_update_file_size_estimate same_settings
                 same_settings_refl same_settings_trans);
          intros; repeat split. }
      split.
      { apply (frames_update_file_size_estimate Image width height
                 Image_resize Image_save_buffer ext_lower). }
      intros [H|H]; discriminate.
  - split; [apply same_settings_refl|].
    split; [|reflexivity].
    apply (keeps_result_weaken Image 0 1); [lia|apply keeps_result_refl].
Qed.

(** *** [calculate_dimensions] on every path *)

Lemma selection_modify (f : App Image -> App Image) :
  (forall b, same_selection b (f b)) -> respects same_selection (modify f).
Proof. apply respects_modify. Qed.

Lemma selection_bind {A B} (m : M Image A) (f : A -> M Image B) :
  respects same_selection m -> (forall x, respects same_selection (f x)) ->
  respects same_selection (bind m f).
Proof. apply respects_bind. exact same_selection_trans. Qed.

Lemma selection_update_preview : respects same_selection update_preview.
Proof.
  apply (respects_update_preview same_selection same_selection_refl
           same_selection_trans); intros; repeat split.
Qed.

Lemma calculate_dimensions_selection :
  respects same_selection calculate_dimensions.
Proof.
  unfold calculate_dimensions.
  apply selection_bind; [apply respects_get, same_selection_refl|]. intros a.
  destruct (current_img a) as [img|];
    [|apply selection_modify; intros; repeat split].
  destruct (input_files a) as [|f fs];
    [apply selection_modify; intros; repeat split|].
  apply (respects_try_except same_selection same_selection_trans);
    [|intros e; apply selection_modify; intros; repeat split].
  apply selection_bind; [apply respects_lift, same_selection_refl|]. intros t.
  destruct (leb t (of_int 0));
    [apply selection_modify; intros; repeat split|].
  cbv zeta.
  apply selection_bind;
    [apply (respects_estimate_file_size same_selection same_selection_refl
              same_selection_trans); intros; repeat split|].
  intros initial.
  destruct (leb initial t).
  - apply selection_bind; [apply selection_modify; intros; repeat split|].
    intros _.
    apply selection_bind; [apply selection_modify; intros; repeat split|].
    intros _. apply selection_modify; intros; repeat split.
  - apply selection_bind;
      [apply (respects_search_loop same_selection same_selection_refl
                same_selection_trans); intros; repeat split|].
    intros s.
    apply selection_bind; [apply respects_lift, same_selection_refl|]. intros w.
    apply selection_bind; [apply respects_lift, same_selection_refl|]. intros h.
    apply selection_bind; [apply selection_modify; intros; repeat split|].
    intros _.
    apply selection_bind; [apply selection_modify; intros; repeat split|].
    intros _.
    apply selection_bind; [apply selection_modify; intros; repeat split|].
    intros _.
    apply selection_bind;
      [apply (respects_toggle_mode same_selection same_selection_refl
                same_selection_trans); intros; repeat split|].
    intros _.
    apply selection_bind; [apply selection_update_preview|]. intros _.
    apply selection_bind;
      [apply (respects_estimate_file_size same_selection same_selection_refl
                same_selection_trans); intros; repeat split|].
    intros est. apply selection_modify; intros; repeat split.
Qed.

(** X18. On every path, whatever Pillow does, "Calculate Dimensions" leaves
    the selected files, the output directory, the aspect check box, the
    quality, the target entry and the preview index as they were; and a
    [ValueError] never leaves it: an exception it raises is of another
    class. *)
Theorem calculate_dimensions_keeps_selection (b : App Image) :
  same_selection b (snd (calculate_dimensions b)) /\
  (forall e, fst (calculate_dimensions b) = Raise e ->
             is_value_error e = false).
Proof.
  split; [apply calculate_dimensions_selection|].
  intros e. unfold calculate_dimensions, bind at 1, get.
  destruct (current_img b) as [img|]; [|discriminate].
  destruct (input_files b) as [|f fs]; [discriminate|].
  unfold try_except.
  match goal with
  | |- fst (match ?body with _ => _ end) = _ -> _ =>
      destruct body as [[x|e'] b1]
  end; [discriminate|].
  destruct (is_value_error e') eqn:Hclass; [discriminate|].
  cbn [fst]. intros H. injection H as <-. exact Hclass.
Qed.

(** *** From the selection to the worker *)

(** X19. Once files are chosen and an output directory is picked, "PROCESS
    IMAGES" no longer asks for either: it depends on the two dimension
    entries alone, starts the worker when both hold positive integers and
    shows one "Invalid Size" box otherwise. *)
Theorem selection_enables_processing (b : App Image) (p : string)
    (ps : list string) (dir : string) :
  dir <> ""%string ->
  let ready := snd (select_output_dir dir (snd (select_images (p :: ps) b))) in
  process_images ready
  = match width_var b, height_var b with
    | Some w, Some h =>
        if (w <=? 0) || (h <=? 0)
        then (Ok None, show Error_InvalidSize_Positive ready)
        else (Ok (Some (w, h)), ready)
    | _, _ => (Ok None, show Error_InvalidSize_Number ready)
    end.
Proof.
  intros Hdir. cbv zeta.
  unfold select_output_dir.
  destruct (dir =? "")%string eqn:E;
    [apply String.eqb_eq in E; contradiction|].
  unfold select_images, bind, modify at 1 2 3. cbn [snd].
  set (b1 := set_current_preview_index 0 (set_input_files (p :: ps) b)).
  destruct (update_preview_settings b1)
    as (Hfiles & _ & Hw & Hh & _).
  rewrite process_images_cases.
  cbn [input_files output_dir width_var height_var set_output_dir].
  rewrite Hfiles, Hw, Hh, E. reflexivity.
Qed.


End Application.

(** ** The binary search keeps the best trial *)

Section BinarySearch.

Variable Image : Type.
Variable width height : Image -> Z.
Variable Image_open : string -> result Image.
Variable Image_resize : Image -> Z * Z -> result Image.
Variable Image_save : Image -> string -> option Z -> result unit.
Variable Image_save_buffer : Image -> Format -> option Z -> result Z.
Variable ext_lower : string -> string.
Variable getsize : string -> result Z.
Variable resized_path : string -> string -> string.

Local Abbreviation estimate :=
  (estimate Image width height Image_resize Image_save_buffer ext_lower).
Local Abbreviation estimate_file_size :=
  (estimate_file_size Image width height Image_resize Image_save_buffer ext_lower).
Local Abbreviation update_preview :=
  (update_preview Image width height Image_open Image_resize Image_save_buffer
     ext_lower getsize).
Local Abbreviation toggle_mode :=
  (toggle_mode Image width height Image_open Image_resize Image_save_buffer
     ext_lower getsize).
Local Abbreviation search_iteration :=
  (search_iteration Image width height Image_resize Image_save_buffer ext_lower).
Local Abbreviation search_loop :=
  (search_loop Image width height Image_resize Image_save_buffer ext_lower).
Local Abbreviation calculate_dimensions :=
  (calculate_dimensions Image width height Image_open Image_resize
     Image_save_buffer ext_lower getsize).
Local Abbreviation process_images := (process_images Image).

(** The estimate a recorded call got, on the state [b]. *)
Local Abbreviation estimate_of b img :=
  (fun c : Z * Z * Z =>
     estimate img (input_files b) (current_preview_index b)
       (maintain_aspect_ratio b) (fst (fst c)) (snd (fst c)) (snd c)).

Lemma best_so_far_step (est : Z * Z * Z -> result float) (W H q w h : Z)
    (t kb : float) (trials : list (Z * Z * Z)) (s : search) :
  to_int (mul (of_int W) (mid (min_scale s) (max_scale s))) = Ok w ->
  to_int (mul (of_int H) (mid (min_scale s) (max_scale s))) = Ok h ->
  est (Z.max 10 w, Z.max 10 h, q) = Ok kb ->
  best_so_far est W H q t trials s ->
  best_so_far est W H q t (trials ++ [(Z.max 10 w, Z.max 10 h, q)])
    (let scale := mid (min_scale s) (max_scale s) in
     let diff := abs (sub kb t) in
     let s1 := if ltb diff (best_diff s)
               then mkSearch (min_scale s) (max_scale s) scale diff
               else s in
     if gtb kb t
     then mkSearch (min_scale s1) scale (best_scale s1) (best_diff s1)
     else mkSearch scale (max_scale s1) (best_scale s1) (best_diff s1)).
Proof.
  intros Hw Hh Hkb [Hall Hbest]. cbv zeta.
  fold (distance t kb).
  set (c := (Z.max 10 w, Z.max 10 h, q)) in *.
  assert (Hcand : candidate W H q (mid (min_scale s) (max_scale s)) = Some c).
  { unfold candidate. rewrite Hw, Hh. reflexivity. }
  destruct (ltb (distance t kb) (best_diff s)) eqn:Hlt.
  - assert (Hnew : best_so_far est W H q t (trials ++ [c])
                     (mkSearch (min_scale s) (max_scale s)
                        (mid (min_scale s) (max_scale s)) (distance t kb))).
    { split.
      - intros c0 kb0 Hin Hc0. cbn [best_diff].
        apply in_app_or in Hin. destruct Hin as [Hin|[<-|[]]].
        + apply (not_ltb_improved _ (best_diff s)); [apply (Hall c0); assumption|].
          exact Hlt.
        + rewrite Hkb in Hc0. injection Hc0 as <-. apply ltb_irrefl.
      - right. exists c, kb. cbn [best_diff best_scale].
        repeat split; auto. apply in_or_app. right. left. reflexivity. }
    destruct Hnew as [Ha Hb].
    destruct (gtb kb t); split; cbn [best_diff best_scale] in *; assumption.
  - assert (Hold : best_so_far est W H q t (trials ++ [c]) s).
    { split.
      - intros c0 kb0 Hin Hc0.
        apply in_app_or in Hin. destruct Hin as [Hin|[<-|[]]].
        + apply (Hall c0); assumption.
        + rewrite Hkb in Hc0. injection Hc0 as <-. exact Hlt.
      - destruct Hbest as [Hinit|(c0 & kb0 & Hin & Hc0 & Hd & Hs)];
          [left; exact Hinit|right].
        exists c0, kb0. repeat split; auto. apply in_or_app. left. exact Hin. }
    destruct Hold as [Ha Hb].
    destruct (gtb kb t); split; cbn [best_diff best_scale] in *; assumption.
Qed.

Lemma search_iteration_raise (b : App Image) (img : Image) (W H q w h : Z)
    (t : float) (e : exn) (s : search) :
  current_img b = Some img ->
  to_int (mul (of_int W) (mid (min_scale s) (max_scale s))) = Ok w ->
  to_int (mul (of_int H) (mid (min_scale s) (max_scale s))) = Ok h ->
  estimate img (input_files b) (current_preview_index b)
    (maintain_aspect_ratio b) (Z.max 10 w) (Z.max 10 h) q = Raise e ->
  search_iteration W H q t s b
  = (Raise e, record_call (Z.max 10 w, Z.max 10 h, q) b).
Proof.
  intros Himg Hw Hh Hest.
  unfold search_iteration, bind, lift, ret.
  rewrite (truediv_two (add (min_scale s) (max_scale s))).
  fold (mid (min_scale s) (max_scale s)).
  rewrite Hw, Hh.
  rewrite (estimate_file_size_run Image width height Image_resize
             Image_save_buffer ext_lower b img _ _ _ Himg), Hest.
  reflexivity.
Qed.

Lemma record_calls_one (c : Z * Z * Z) (b : App Image) :
  record_call c b = record_calls [c] b.
Proof.
  rewrite <- (record_calls_nil Image (record_call c b)).
  apply (record_calls_cons Image).
Qed.

(** The loop on every image: it runs to its end when each estimate
    returns a size, and stops at the first one that raises. *)
Lemma search_loop_outcome (n : nat) :
  forall (k : nat) (s : search) (b : App Image) (img : Image) (W H q : Z)
         (t : float) (before : list (Z * Z * Z)),
  (k + n = 10)%nat ->
  current_img b = Some img ->
  0 < W < 2 ^ 53 -> 0 < H < 2 ^ 53 ->
  In (min_scale s, max_scale s) (bounds_after k) ->
  unit_scale (best_scale s) = true ->
  best_so_far (estimate_of b img) W H q t before s ->
  exists trials,
    (List.length trials <= n)%nat /\
    Forall (floored_call q) trials /\
    Forall (within_floor_and_original W H) trials /\
    ((exists s',
        search_loop n W H q t s b = (Ok s', record_calls trials b) /\
        List.length trials = n /\
        all_estimated (estimate_of b img) trials /\
        unit_scale (best_scale s') = true /\
        best_so_far (estimate_of b img) W H q t (before ++ trials) s') \/
     (exists done c e,
        trials = done ++ [c] /\
        all_estimated (estimate_of b img) done /\
        estimate_of b img c = Raise e /\
        search_loop n W H q t s b = (Raise e, record_calls trials b))).
Proof.
  induction n as [|n IH];
    intros k s b img W H q t before Hk Himg HW HH Hin Hbest Hinv.
  - exists []. split; [reflexivity|]. split; [constructor|].
    split; [constructor|]. left. exists s.
    change (search_loop 0 W H q t s b) with (Ok s, b).
    rewrite (record_calls_nil Image), app_nil_r.
    split; [reflexivity|]. split; [reflexivity|]. split; [constructor|].
    split; [exact Hbest|exact Hinv].
  - assert (Hk10 : (k < 10)%nat) by lia.
    pose proof (mid_unit_scale k _ _ Hk10 Hin) as Hmid.
    destruct (to_int_mul_unit_scale W _ HW Hmid) as (w & Hw & Hwb).
    destruct (to_int_mul_unit_scale H _ HH Hmid) as (h & Hh & Hhb).
    set (c := (Z.max 10 w, Z.max 10 h, q)).
    assert (Hfloor : floored_call q c)
      by (unfold floored_call, c; cbn [fst snd]; repeat split; lia).
    assert (Hwithin : within_floor_and_original W H c)
      by (unfold within_floor_and_original, c; cbn [fst snd]; lia).
    destruct (estimate img (input_files b) (current_preview_index b)
                (maintain_aspect_ratio b) (Z.max 10 w) (Z.max 10 h) q)
      as [kb|e] eqn:Hkb.
    + pose proof (best_so_far_step (estimate_of b img) W H q w h t kb before s
                    Hw Hh Hkb Hinv) as Hinv'.
      pose proof (search_iteration_run Image width height Image_resize
                    Image_save_buffer ext_lower b img W H q w h t kb s
                    Himg Hw Hh Hkb) as Hiter.
      cbv zeta in Hinv', Hiter.
      set (s' := if gtb kb t then _ else _) in *.
      assert (Hloop : search_loop (S n) W H q t s b
                      = search_loop n W H q t s' (record_call c b)).
      { rewrite (search_loop_S Image width height Image_resize
                   Image_save_buffer ext_lower).
        unfold bind. rewrite Hiter. reflexivity. }
      rewrite Hloop.
      destruct (bounds_after_step k _ _ Hin) as [Hlo Hhi].
      destruct (IH (S k) s' (record_call c b) img W H q t (before ++ [c]))
        as (trials & Hlen & Hfl & Hwi & Hcase).
      * lia.
      * exact Himg.
      * exact HW.
      * exact HH.
      * unfold s'. destruct (gtb kb t), (ltb (abs (sub kb t)) (best_diff s));
          cbn [min_scale max_scale]; assumption.
      * unfold s'. destruct (gtb kb t), (ltb (abs (sub kb t)) (best_diff s));
          cbn [best_scale]; assumption.
      * exact Hinv'.
      * exists (c :: trials).
        split; [cbn [List.length]; lia|].
        split; [constructor; assumption|].
        split; [constructor; assumption|].
        destruct Hcase as [(s'' & Hrun & Hn & Hok & Hbest'' & Hinv'')
                          |(done & c' & e & Htr & Hok & Hc' & Hrun)].
        -- left. exists s''. rewrite Hrun, (record_calls_cons Image).
           split; [reflexivity|]. split; [cbn [List.length]; lia|].
           split; [constructor; [exists kb; exact Hkb|exact Hok]|].
           split; [exact Hbest''|].
           rewrite <- app_assoc in Hinv''. exact Hinv''.
        -- right. exists (c :: done), c', e.
           rewrite Hrun, (record_calls_cons Image), Htr.
           split; [reflexivity|].
           split; [constructor; [exists kb; exact Hkb|exact Hok]|].
           split; [exact Hc'|reflexivity].
    + assert (Hloop : search_loop (S n) W H q t s b
                      = (Raise e, record_calls [c] b)).
      { rewrite (search_loop_S Image width height Image_resize
                   Image_save_buffer ext_lower).
        unfold bind.
        rewrite (search_iteration_raise b img W H q w h t e s Himg Hw Hh Hkb).
        fold c. rewrite (record_calls_one c b). reflexivity. }
      rewrite Hloop.
      exists [c].
      split; [cbn [List.length]; lia|].
      split; [constructor; [exact Hfloor|constructor]|].
      split; [constructor; [exact Hwithin|constructor]|].
      right. exists [], c, e.
      split; [reflexivity|]. split; [constructor|].
      split; [exact Hkb|reflexivity].
Qed.

Lemma toggle_mode_settings (b : App Image) :
  same_settings b (snd (toggle_mode b)).
Proof.
  apply (respects_toggle_mode Image width height Image_open Image_resize
           Image_save_buffer ext_lower getsize same_settings
           (same_settings_refl Image) (same_settings_trans Image));
    intros; repeat split.
Qed.

Lemma calculate_dimensions_search_outcome (a : App Image) (img : Image)
    (f : string) (fs : list string) (t initial : float) :
  current_img a = Some img ->
  input_files a = f :: fs ->
  target_size_kb_var a = Some t ->
  leb t (of_int 0) = false ->
  0 < width img < 2 ^ 53 ->
  0 < height img < 2 ^ 53 ->
  estimate img (input_files a) (current_preview_index a)
    (maintain_aspect_ratio a) (width img) (height img) (quality_var a)
  = Ok initial ->
  leb initial t = false ->
  exists trials,
    (1 <= List.length trials <= 10)%nat /\
    Forall (floored_call (quality_var a)) trials /\
    Forall (within_floor_and_original (width img) (height img)) trials /\
    ((List.length trials = 10%nat /\
      all_estimated (estimate_of a img) trials /\
      search_completed (estimate_of a img) (width img) (height img)
        (quality_var a) t trials a (calculate_dimensions a)) \/
     search_aborted (estimate_of a img)
       (width img, height img, quality_var a) trials a
       (calculate_dimensions a)).
Proof.
  intros Himg Hfiles Ht Hpos HW HH Hprobe Hgt.
  set (q := quality_var a) in *.
  set (b0 := record_call (width img, height img, q) a).
  destruct (search_loop_outcome 10 0 search_init b0 img (width img)
              (height img) q t [])
    as (trials & Hlen & Hfl & Hwi & Hcase);
    [reflexivity|exact Himg|exact HW|exact HH|left; reflexivity|reflexivity| |].
  { split; [intros c kb []|left; split; reflexivity]. }
  cbn [app] in Hcase.
  exists trials.
  destruct Hcase as [(s & Hrun & Hn & Hok & Hbest & Hinv)
                    |(done & c & e & Htr & Hok & Hc & Hrun)].
  - split; [lia|]. split; [exact Hfl|]. split; [exact Hwi|]. left.
    split; [exact Hn|]. split; [exact Hok|].
    destruct (to_int_mul_unit_scale (width img) _ HW Hbest) as (w & Hw & Hwb).
    destruct (to_int_mul_unit_scale (height img) _ HH Hbest) as (h & Hh & Hhb).
    set (b1 := set_size_mode false
                 (set_height_var (Some (Z.max 10 h))
                    (set_width_var (Some (Z.max 10 w)) (record_calls trials b0)))).
    pose proof (toggle_mode_settings b1) as S12.
    destruct (toggle_mode_run Image width height Image_open Image_resize
                Image_save_buffer ext_lower getsize b1) as (b2 & Htog & K12).
    rewrite Htog in S12. cbn [snd] in S12.
    pose proof (update_preview_settings Image width height Image_open
                  Image_resize Image_save_buffer ext_lower getsize b2) as S23.
    destruct (update_preview_run Image width height Image_open Image_resize
                Image_save_buffer ext_lower getsize b2) as (b3 & Hupd & K23).
    rewrite Hupd in S23. cbn [snd] in S23.
    pose proof (estimate_file_size_state Image width height Image_resize
                  Image_save_buffer ext_lower b3 (Z.max 10 w) (Z.max 10 h) q)
      as Hfin.
    pose proof (keeps_result_trans Image _ _ _ _ _ K12 K23) as K13.
    destruct K13 as (Kw & Kh & pre & Kc & Kl).
    pose proof (same_settings_trans Image _ _ _ S12 S23) as S13.
    assert (Hsel : same_selection a b3).
    { apply same_settings_selection in S13.
      unfold same_selection in *.
      repeat match goal with H : _ /\ _ |- _ => destruct H end.
      repeat split; assumption. }
    assert (Hcd : exists r a',
               calculate_dimensions a = (r, a') /\
               (a' = record_call (Z.max 10 w, Z.max 10 h, q) b3 \/
                exists d, a' = show d (record_call (Z.max 10 w, Z.max 10 h, q) b3))).
    { unfold calculate_dimensions, bind at 1, get.
      rewrite Himg, Hfiles.
      unfold try_except, bind, lift, modify.
      rewrite Ht. cbn [entry_value]. rewrite Hpos.
      rewrite (estimate_file_size_run Image width height Image_resize
                 Image_save_buffer ext_lower a img _ _ _ Himg).
      fold q. rewrite Hprobe, Hgt.
      fold b0. rewrite Hrun, Hw, Hh. fold b1. rewrite Htog, Hupd.
      destruct (estimate_file_size (Z.max 10 w) (Z.max 10 h) q b3) as [[est|e] b4];
        cbn [snd] in Hfin; subst b4.
      - eexists _, _. split; [reflexivity|]. right. eexists. reflexivity.
      - destruct (is_value_error e).
        + eexists _, _. split; [reflexivity|]. right. eexists. reflexivity.
        + eexists _, _. split; [reflexivity|]. left. reflexivity. }
    destruct Hcd as (r & a' & Hcd & Ha').
    rewrite Hcd. exists pre, (Z.max 10 w), (Z.max 10 h), s. cbn [snd].
    assert (Hcand : candidate (width img) (height img) q (best_scale s)
                    = Some (Z.max 10 w, Z.max 10 h, q))
      by (unfold candidate; rewrite Hw, Hh; reflexivity).
    assert (Hb3w : width_var b3 = Some (Z.max 10 w)) by (rewrite Kw; reflexivity).
    assert (Hb3h : height_var b3 = Some (Z.max 10 h)) by (rewrite Kh; reflexivity).
    assert (Hb3c : estimator_calls b3 ++ [(Z.max 10 w, Z.max 10 h, q)]
                   = estimator_calls a
                     ++ (width img, height img, q) :: trials
                     ++ pre ++ [(Z.max 10 w, Z.max 10 h, q)]).
    { rewrite Kc. cbn. rewrite <- !app_assoc. reflexivity. }
    destruct Ha' as [->|[d ->]];
      (split; [exact Hb3w|]); (split; [exact Hb3h|]);
      (split; [exact Hb3c|]); (split; [exact Kl|]);
      (split; [lia|]); (split; [lia|]);
      (split; [exact Hinv|]); (split; [exact Hcand|]); exact Hsel.
  - assert (Hlen1 : (1 <= List.length trials)%nat)
      by (rewrite Htr, length_app; cbn [List.length]; lia).
    split; [lia|]. split; [exact Hfl|]. split; [exact Hwi|]. right.
    exists done, c, e.
    split; [exact Htr|]. split; [exact Hok|]. split; [exact Hc|].
    unfold calculate_dimensions, bind at 1, get.
    rewrite Himg, Hfiles.
    unfold try_except, bind, lift, modify.
    rewrite Ht. cbn [entry_value]. rewrite Hpos.
    rewrite (estimate_file_size_run Image width height Image_resize
               Image_save_buffer ext_lower a img _ _ _ Himg).
    fold q. rewrite Hprobe, Hgt.
    fold b0. rewrite Hrun.
    unfold b0. rewrite (record_calls_cons Image).
    destruct (is_value_error e); reflexivity.
Qed.

Lemma search_aborted_state (est : Z * Z * Z -> result float)
    (probe : Z * Z * Z) (trials : list (Z * Z * Z)) (a : App Image)
    (outcome : result unit * App Image) :
  search_aborted est probe trials a outcome ->
  estimator_calls (snd outcome) = estimator_calls a ++ probe :: trials /\
  width_var (snd outcome) = width_var a /\
  height_var (snd outcome) = height_var a /\
  ((fst outcome = Ok tt /\
    dialogs (snd outcome) = dialogs a ++ [Error_InvalidInput]) \/
   (exists e, fst outcome = Raise e /\ is_value_error e = false /\
              dialogs (snd outcome) = dialogs a)) /\
  exists c e, In c trials /\ est c = Raise e.
Proof.
  intros (done & c & e & Htr & _ & Hc & ->).
  assert (Hin : exists c e, In c trials /\ est c = Raise e).
  { exists c, e. split; [|exact Hc]. rewrite Htr. apply in_or_app.
    right. left. reflexivity. }
  destruct (is_value_error e) eqn:Hcls; cbn [fst snd].
  - split; [reflexivity|]. split; [reflexivity|]. split; [reflexivity|].
    split; [left; split; reflexivity|exact Hin].
  - split; [reflexivity|]. split; [reflexivity|]. split; [reflexivity|].
    split; [right; exists e; repeat split; assumption|exact Hin].
Qed.



(** X21. The dimensions a search stores are those of its best trial.  When
    the loop runs to its end (each of the ten trial estimates returns a
    size), the stored dimensions are one of the ten candidates and no
    candidate's estimate is strictly closer to the target than the
    estimate at the stored dimensions; or no trial had a distance below
    the initial infinity, and the stored dimensions are those of scale
    0.5.  When a trial estimate raises, the search stops there and
    nothing is stored. *)
Theorem search_returns_closest_trial (a : App Image) (img : Image)
    (f : string) (fs : list string) (t initial : float) :
  current_img a = Some img ->
  input_files a = f :: fs ->
  target_size_kb_var a = Some t ->
  ltb zero t = true ->
  0 < width img < 2 ^ 53 ->
  0 < height img < 2 ^ 53 ->
  estimate img (input_files a) (current_preview_index a)
    (maintain_aspect_ratio a) (width img) (height img) (quality_var a)
  = Ok initial ->
  leb initial t = false ->
  exists trials,
    (List.length trials = 10%nat /\
     all_estimated (estimate_of a img) trials /\
     exists rest new_width new_height,
       width_var (snd (calculate_dimensions a)) = Some new_width /\
       height_var (snd (calculate_dimensions a)) = Some new_height /\
       estimator_calls (snd (calculate_dimensions a))
       = estimator_calls a
         ++ (width img, height img, quality_var a) :: trials ++ rest /\
       ((In (new_width, new_height, quality_var a) trials /\
         exists best_kb,
           estimate img (input_files a) (current_preview_index a)
             (maintain_aspect_ratio a) new_width new_height (quality_var a)
           = Ok best_kb /\
           forall c kb, In c trials -> estimate_of a img c = Ok kb ->
             ltb (distance t kb) (distance t best_kb) = false) \/
        (candidate (width img) (height img) (quality_var a) lit_0_5
         = Some (new_width, new_height, quality_var a) /\
         forall c kb, In c trials -> estimate_of a img c = Ok kb ->
           ltb (distance t kb) inf = false))) \/
    (search_aborted (estimate_of a img)
       (width img, height img, quality_var a) trials a
       (calculate_dimensions a) /\
     width_var (snd (calculate_dimensions a)) = width_var a /\
     height_var (snd (calculate_dimensions a)) = height_var a).
Proof.
  intros Himg Hfiles Ht Hpos HW HH Hprobe Hgt.
  destruct (calculate_dimensions_search_outcome a img f fs t initial)
    as (trials & _ & _ & _ & Hcase); auto using positive_not_leb_zero.
  exists trials.
  destruct Hcase as [(Hn & Hok & Hdone)|Habort].
  - left. split; [exact Hn|]. split; [exact Hok|].
    destruct Hdone as (pre & nw & nh & s & Hw & Hh & Hc & _ & _ & _
                       & [Hall Hbest] & Hcand & _).
    exists (pre ++ [(nw, nh, quality_var a)]), nw, nh.
    split; [exact Hw|]. split; [exact Hh|]. split; [exact Hc|].
    destruct Hbest as [[Hinf Hhalf]|(c & kb & Hin & Hkb & Hd & Hs)].
    + right. rewrite Hhalf in Hcand. split; [exact Hcand|].
      intros c kb Hin Hkb. rewrite <- Hinf. apply (Hall c kb Hin Hkb).
    + left. rewrite Hcand in Hs. injection Hs as <-.
      cbn [fst snd] in Hkb.
      split; [exact Hin|]. exists kb. split; [exact Hkb|].
      intros c kb' Hin' Hkb'. rewrite <- Hd. apply (Hall c kb' Hin' Hkb').
  - right. split; [exact Habort|].
    destruct (search_aborted_state _ _ _ _ _ Habort) as (_ & Hw & Hh & _).
    split; assumption.
Qed.

(** X22. What "Calculate Dimensions" stores, "PROCESS IMAGES" accepts: when
    the search runs to its end (each of the ten trial estimates returns a
    size), with an output directory selected, [process_images] starts the
    worker with exactly the stored width and height, both at least 10, and
    shows no message box.  When a trial estimate raises, nothing is
    stored. *)
Theorem calculated_dimensions_are_accepted (a : App Image) (img : Image)
    (f : string) (fs : list string) (t initial : float) :
  current_img a = Some img ->
  input_files a = f :: fs ->
  output_dir a <> ""%string ->
  target_size_kb_var a = Some t ->
  ltb zero t = true ->
  0 < width img < 2 ^ 53 ->
  0 < height img < 2 ^ 53 ->
  estimate img (input_files a) (current_preview_index a)
    (maintain_aspect_ratio a) (width img) (height img) (quality_var a)
  = Ok initial ->
  leb initial t = false ->
  exists trials,
    (List.length trials = 10%nat /\
     all_estimated (estimate_of a img) trials /\
     exists new_width new_height,
       width_var (snd (calculate_dimensions a)) = Some new_width /\
       height_var (snd (calculate_dimensions a)) = Some new_height /\
       10 <= new_width /\ 10 <= new_height /\
       process_images (snd (calculate_dimensions a))
       = (Ok (Some (new_width, new_height)), snd (calculate_dimensions a))) \/
    (search_aborted (estimate_of a img)
       (width img, height img, quality_var a) trials a
       (calculate_dimensions a) /\
     width_var (snd (calculate_dimensions a)) = width_var a /\
     height_var (snd (calculate_dimensions a)) = height_var a).
Proof.
  intros Himg Hfiles Hout Ht Hpos HW HH Hprobe Hgt.
  destruct (calculate_dimensions_search_outcome a img f fs t initial)
    as (trials & _ & _ & _ & Hcase); auto using positive_not_leb_zero.
  exists trials.
  destruct Hcase as [(Hn & Hok & Hdone)|Habort].
  - left. split; [exact Hn|]. split; [exact Hok|].
    destruct Hdone as (pre & nw & nh & s & Hw & Hh & _ & _ & Bw & Bh
                       & _ & _ & Hsel).
    exists nw, nh.
    split; [exact Hw|]. split; [exact Hh|]. split; [lia|]. split; [lia|].
    destruct Hsel as (Sfiles & Sout & _).
    rewrite (process_images_cases Image), Sfiles, Hfiles, Hw, Hh, Sout.
    destruct (output_dir a =? "")%string eqn:E;
      [apply String.eqb_eq in E; contradiction|].
    replace ((nw <=? 0) || (nh <=? 0)) with false; [reflexivity|].
    symmetry. apply orb_false_intro; apply Z.leb_gt; lia.
  - right. split; [exact Habort|].
    destruct (search_aborted_state _ _ _ _ _ Habort) as (_ & Hw & Hh & _).
    split; assumption.
Qed.

(** *** The search on every image *)

Lemma calculate_dimensions_probe_raise (a : App Image) (img : Image)
    (f : string) (fs : list string) (t : float) (e : exn) :
  current_img a = Some img ->
  input_files a = f :: fs ->
  target_size_kb_var a = Some t ->
  leb t (of_int 0) = false ->
  estimate img (input_files a) (current_preview_index a)
    (maintain_aspect_ratio a) (width img) (height img) (quality_var a)
  = Raise e ->
  calculate_dimensions a
  = (if is_value_error e
     then (Ok tt,
           show Error_InvalidInput
             (record_call (width img, height img, quality_var a) a))
     else (Raise e, record_call (width img, height img, quality_var a) a)).
Proof.
  intros Himg Hfiles Ht Hpos Hest.
  unfold calculate_dimensions, bind at 1, get.
  rewrite Himg, Hfiles.
  unfold try_except, bind, lift, modify.
  rewrite Ht. cbn [entry_value]. rewrite Hpos.
  rewrite (estimate_file_size_run Image width height Image_resize
             Image_save_buffer ext_lower a img _ _ _ Himg), Hest.
  destruct (is_value_error e); reflexivity.
Qed.

(** C2, amended. When the probe is above the target, the loop has a fixed
    budget of ten estimator calls.  It makes all ten when each of them
    returns a size, and they are not the last ones: after them come at
    most two calls from the preview refreshes of [toggle_mode] and
    [update_preview], then one call at the chosen dimensions for the size
    shown in the "Dimensions Calculated" box, so eleven to thirteen calls
    follow the probe.  The loop stops at the first trial estimate that
    raises: between one and ten calls follow the probe, nothing is stored,
    a [ValueError] is shown as "Please enter a valid number for target
    size." and any other exception is raised. *)
Theorem search_ten_calls_then_report (a : App Image) (img : Image)
    (f : string) (fs : list string) (t initial : float) :
  current_img a = Some img ->
  input_files a = f :: fs ->
  target_size_kb_var a = Some t ->
  ltb zero t = true ->
  0 < width img < 2 ^ 53 ->
  0 < height img < 2 ^ 53 ->
  estimate img (input_files a) (current_preview_index a)
    (maintain_aspect_ratio a) (width img) (height img) (quality_var a)
  = Ok initial ->
  leb initial t = false ->
  exists trials,
    (1 <= List.length trials <= 10)%nat /\
    ((List.length trials = 10%nat /\
      all_estimated (estimate_of a img) trials /\
      exists refresh new_width new_height,
        estimator_calls (snd (calculate_dimensions a))
        = estimator_calls a
          ++ (width img, height img, quality_var a) :: trials
          ++ refresh ++ [(new_width, new_height, quality_var a)] /\
        (List.length refresh <= 2)%nat /\
        width_var (snd (calculate_dimensions a)) = Some new_width /\
        height_var (snd (calculate_dimensions a)) = Some new_height) \/
     (search_aborted (estimate_of a img)
        (width img, height img, quality_var a) trials a
        (calculate_dimensions a) /\
      estimator_calls (snd (calculate_dimensions a))
      = estimator_calls a
        ++ (width img, height img, quality_var a) :: trials /\
      width_var (snd (calculate_dimensions a)) = width_var a /\
      height_var (snd (calculate_dimensions a)) = height_var a)).
Proof.
  intros Himg Hfiles Ht Hpos HW HH Hprobe Hgt.
  destruct (calculate_dimensions_search_outcome a img f fs t initial)
    as (trials & Hlen & _ & _ & Hcase); auto using positive_not_leb_zero.
  exists trials. split; [exact Hlen|].
  destruct Hcase as [(Hn & Hok & Hdone)|Habort].
  - left. split; [exact Hn|]. split; [exact Hok|].
    destruct Hdone as (pre & nw & nh & s & Hw & Hh & Hc & Hl & _).
    exists pre, nw, nh.
    split; [exact Hc|]. split; [exact Hl|]. split; [exact Hw|exact Hh].
  - right. split; [exact Habort|].
    destruct (search_aborted_state _ _ _ _ _ Habort) as (Hc & Hw & Hh & _).
    split; [exact Hc|]. split; assumption.
Qed.

(** C4, amended. Whenever [calculate_dimensions] stores dimensions they
    never exceed the larger of the original side and the 10 pixel floor:
    on the fast path they are the original ones, after a search that ran
    to its end each side is [max(10, int(side * best_scale))] with
    [best_scale] at most one.  They stay within the original on every
    axis that has at least 10 pixels.  When the probe or a trial estimate
    raises, nothing is stored and both entries keep their values. *)
Theorem result_within_original_or_floor (a : App Image) (img : Image)
    (f : string) (fs : list string) (t : float) :
  current_img a = Some img ->
  input_files a = f :: fs ->
  target_size_kb_var a = Some t ->
  ltb zero t = true ->
  0 < width img < 2 ^ 53 ->
  0 < height img < 2 ^ 53 ->
  let probe :=
    estimate img (input_files a) (current_preview_index a)
      (maintain_aspect_ratio a) (width img) (height img) (quality_var a) in
  let a' := snd (calculate_dimensions a) in
  (exists initial,
     probe = Ok initial /\ leb initial t = true /\
     width_var a' = Some (width img) /\
     height_var a' = Some (height img)) \/
  (exists initial new_width new_height,
     probe = Ok initial /\ leb initial t = false /\
     width_var a' = Some new_width /\
     height_var a' = Some new_height /\
     new_width <= Z.max 10 (width img) /\
     new_height <= Z.max 10 (height img) /\
     (10 <= width img -> new_width <= width img) /\
     (10 <= height img -> new_height <= height img)) \/
  (((exists e, probe = Raise e) \/
    (exists initial trials,
       probe = Ok initial /\ leb initial t = false /\
       search_aborted (estimate_of a img)
         (width img, height img, quality_var a) trials a
         (calculate_dimensions a))) /\
   width_var a' = width_var a /\
   height_var a' = height_var a).
Proof.
  intros Himg Hfiles Ht Hpos HW HH. cbv zeta.
  pose proof (positive_not_leb_zero t Hpos) as Hnz.
  destruct (estimate img (input_files a) (current_preview_index a)
              (maintain_aspect_ratio a) (width img) (height img)
              (quality_var a)) as [initial|e] eqn:Hprobe.
  - destruct (leb initial t) eqn:Hcmp.
    + left. exists initial.
      rewrite (calculate_dimensions_fast_path Image width height Image_open
                 Image_resize Image_save_buffer ext_lower getsize
                 a img f fs t initial Himg Hfiles Ht Hnz Hprobe Hcmp).
      repeat split; assumption.
    + right.
      destruct (calculate_dimensions_search_outcome a img f fs t initial)
        as (trials & _ & _ & _ & Hcase); auto.
      destruct Hcase as [(_ & _ & Hdone)|Habort].
      * left.
        destruct Hdone as (pre & nw & nh & s & Hw & Hh & _ & _ & Bw & Bh & _).
        exists initial, nw, nh.
        split; [reflexivity|]. split; [exact Hcmp|].
        split; [exact Hw|]. split; [exact Hh|].
        split; [lia|]. split; [lia|]. split; lia.
      * right.
        destruct (search_aborted_state _ _ _ _ _ Habort) as (_ & Hw & Hh & _).
        split; [|split; assumption].
        right. exists initial, trials.
        split; [reflexivity|]. split; [exact Hcmp|exact Habort].
  - right. right.
    rewrite (calculate_dimensions_probe_raise a img f fs t e
               Himg Hfiles Ht Hnz Hprobe).
    split; [left; exists e; reflexivity|].
    destruct (is_value_error e); split; reflexivity.
Qed.

(** C5, amended. Whenever the search runs (the probe is above the target),
    however small the target, every candidate handed to the estimator is
    at least 10 pixels on each axis, and so are the dimensions stored when
    the search runs to its end; when a trial estimate raises, the search
    stops there and nothing is stored.  On the fast path the original
    dimensions are stored as they are, so the result is at least 10 pixels
    on each axis exactly for an image that is. *)
Theorem search_respects_floor (a : App Image) (img : Image)
    (f : string) (fs : list string) (t : float) :
  current_img a = Some img ->
  input_files a = f :: fs ->
  target_size_kb_var a = Some t ->
  ltb zero t = true ->
  0 < width img < 2 ^ 53 ->
  0 < height img < 2 ^ 53 ->
  let probe_call := (width img, height img, quality_var a) in
  let probe :=
    estimate img (input_files a) (current_preview_index a)
      (maintain_aspect_ratio a) (width img) (height img) (quality_var a) in
  let a' := snd (calculate_dimensions a) in
  (exists initial,
     probe = Ok initial /\ leb initial t = true /\
     width_var a' = Some (width img) /\
     height_var a' = Some (height img) /\
     estimator_calls a' = estimator_calls a ++ [probe_call]) \/
  (exists initial trials rest,
     probe = Ok initial /\ leb initial t = false /\
     estimator_calls a' = estimator_calls a ++ probe_call :: trials ++ rest /\
     (1 <= List.length trials <= 10)%nat /\
     Forall (floored_call (quality_var a)) trials /\
     ((List.length trials = 10%nat /\
       all_estimated (estimate_of a img) trials /\
       exists new_width new_height,
         width_var a' = Some new_width /\
         height_var a' = Some new_height /\
         10 <= new_width /\ 10 <= new_height) \/
      (rest = [] /\
       search_aborted (estimate_of a img) probe_call trials a
         (calculate_dimensions a) /\
       width_var a' = width_var a /\
       height_var a' = height_var a))) \/
  (exists e,
     probe = Raise e /\
     width_var a' = width_var a /\
     height_var a' = height_var a /\
     estimator_calls a' = estimator_calls a ++ [probe_call]).
Proof.
  intros Himg Hfiles Ht Hpos HW HH. cbv zeta.
  pose proof (positive_not_leb_zero t Hpos) as Hnz.
  destruct (estimate img (input_files a) (current_preview_index a)
              (maintain_aspect_ratio a) (width img) (height img)
              (quality_var a)) as [initial|e] eqn:Hprobe.
  - destruct (leb initial t) eqn:Hcmp.
    + left. exists initial.
      rewrite (calculate_dimensions_fast_path Image width height Image_open
                 Image_resize Image_save_buffer ext_lower getsize
                 a img f fs t initial Himg Hfiles Ht Hnz Hprobe Hcmp).
      repeat split; assumption.
    + right. left.
      destruct (calculate_dimensions_search_outcome a img f fs t initial)
        as (trials & Hlen & Hfl & _ & Hcase); auto.
      destruct Hcase as [(Hn & Hok & Hdone)|Habort].
      * destruct Hdone as (pre & nw & nh & s & Hw & Hh & Hc & _ & Bw & Bh & _).
        exists initial, trials, (pre ++ [(nw, nh, quality_var a)]).
        split; [reflexivity|]. split; [exact Hcmp|]. split; [exact Hc|].
        split; [exact Hlen|]. split; [exact Hfl|]. left.
        split; [exact Hn|]. split; [exact Hok|]. exists nw, nh.
        split; [exact Hw|]. split; [exact Hh|]. split; lia.
      * destruct (search_aborted_state _ _ _ _ _ Habort) as (Hc & Hw & Hh & _).
        exists initial, trials, [].
        split; [reflexivity|]. split; [exact Hcmp|].
        split; [rewrite app_nil_r; exact Hc|].
        split; [exact Hlen|]. split; [exact Hfl|]. right.
        split; [reflexivity|]. split; [exact Habort|]. split; assumption.
  - right. right. exists e.
    rewrite (calculate_dimensions_probe_raise a img f fs t e
               Himg Hfiles Ht Hnz Hprobe).
    split; [reflexivity|].
    destruct (is_value_error e); repeat split.
Qed.

End BinarySearch.

(** ** The command line tool *)

Section CommandLine.

Variable Image : Type.
Variable width height : Image -> Z.
Variable Image_open : string -> result Image.
Variable Image_resize : Image -> Z * Z -> result Image.
Variable Image_save : Image -> string -> option Z -> result unit.
Variable ext_lower : string -> string.
Variable isdir : string -> bool.
Variable glob : string -> list string.
Variable path_exists : string -> bool.
Variable makedirs : string -> result unit.
Variable join : string -> string -> string.
Variable basename : string -> string.
Variable splitext : string -> string * string.

Local Abbreviation input_paths := (input_paths isdir glob join).
Local Abbreviation main_resize :=
  (main_resize Image width height Image_open Image_resize Image_save ext_lower
     join basename splitext).
Local Abbreviation main_loop :=
  (main_loop Image width height Image_open Image_resize Image_save ext_lower
     join basename splitext).
Local Abbreviation main :=
  (main Image width height Image_open Image_resize Image_save ext_lower
     isdir glob path_exists makedirs join basename splitext).

Local Abbreviation resized_ok :=
  (resized_ok Image width height Image_open Image_resize Image_save ext_lower
     join basename splitext).

Lemma main_loop_cons (args : Args) (p : string) (rest : list string)
    (i n : nat) (s e : Z) :
  main_loop args (p :: rest) i n s e
  = (let '(s', e', lines) :=
       if resized_ok args p
       then main_loop args rest (S i) n (s + 1) e
       else main_loop args rest (S i) n s (e + 1) in
     (s', e',
      Line_Processing i n (basename p)
        :: (if resized_ok args p then Line_Done
            else Line_Error (snd (main_resize args p))) :: lines)).
Proof.
  unfold resized_ok. cbn [main_loop].
  destruct (main_resize args p) as [ok err]. reflexivity.
Qed.

Lemma main_loop_counts (args : Args) (paths : list string) :
  forall (i n : nat) (s e : Z),
  fst (fst (main_loop args paths i n s e))
  = s + Z.of_nat (List.length (filter (resized_ok args) paths)) /\
  snd (fst (main_loop args paths i n s e))
  = e + Z.of_nat (List.length
                    (filter (fun p => negb (resized_ok args p)) paths)).
Proof.
  induction paths as [|p rest IH]; intros i n s e.
  - cbn. lia.
  - rewrite main_loop_cons. cbn [filter].
    destruct (resized_ok args p); cbn [negb].
    + destruct (IH (S i) n (s + 1) e) as [Hs He].
      destruct (main_loop args rest (S i) n (s + 1) e) as [[s' e'] lines].
      cbn [fst snd List.length] in *. lia.
    + destruct (IH (S i) n s (e + 1)) as [Hs He].
      destruct (main_loop args rest (S i) n s (e + 1)) as [[s' e'] lines].
      cbn [fst snd List.length] in *. lia.
Qed.

Lemma filter_partition_length {A} (f : A -> bool) (xs : list A) :
  (List.length (filter f xs)
   + List.length (filter (fun x => negb (f x)) xs))%nat = List.length xs.
Proof.
  induction xs as [|x xs IH]; [reflexivity|].
  cbn [filter]. destruct (f x); cbn [negb List.length]; lia.
Qed.

Lemma filter_none_iff {A} (f : A -> bool) (xs : list A) :
  filter (fun x => negb (f x)) xs = [] <-> Forall (fun x => f x = true) xs.
Proof.
  induction xs as [|x xs IH]; [split; constructor|].
  cbn [filter]. destruct (f x) eqn:Hx; cbn [negb].
  - rewrite IH. split; intros H; [constructor; assumption|].
    inversion H; assumption.
  - split; [discriminate|]. intros H. inversion H. congruence.
Qed.

(** X23. Without any input path [main] prints "Error: No input images
    found.", creates no directory and exits with status 1. *)
Theorem main_without_input (args : Args) :
  input_paths args = [] ->
  main args = mkRun (Ok 1) [Line_NoInput] [].
Proof.
  intros Hnone. unfold main. rewrite Hnone. reflexivity.
Qed.

(** X24. With input paths and an output directory that exists or can be
    created, [main] tries every path once, in order, and its summary line
    counts them all: the successes and the failures add up to the number
    of paths.  The exit status is 0 exactly when every call of
    [resize_image] succeeded, and 1 otherwise; "Resized images saved to"
    is printed exactly when at least one succeeded. *)
Theorem main_summary (args : Args) (p : string) (ps : list string) :
  input_paths args = p :: ps ->
  path_exists (arg_output args) = true \/ makedirs (arg_output args) = Ok tt ->
  let succeeded :=
    Z.of_nat (List.length (filter (resized_ok args) (p :: ps))) in
  let failed :=
    Z.of_nat (List.length
                (filter (fun q => negb (resized_ok args q)) (p :: ps))) in
  succeeded + failed = Z.of_nat (List.length (p :: ps)) /\
  In (Line_Complete succeeded failed) (printed (main args)) /\
  exit_status (main args) = Ok (if failed =? 0 then 0 else 1) /\
  (exit_status (main args) = Ok 0 <->
   Forall (fun q => resized_ok args q = true) (p :: ps)) /\
  (In (Line_SavedTo (arg_output args)) (printed (main args)) <->
   0 < succeeded).
Proof.
  intros Hpaths Hdir. cbv zeta.
  set (succeeded := Z.of_nat (List.length (filter (resized_ok args) (p :: ps)))).
  set (failed := Z.of_nat (List.length
                   (filter (fun q => negb (resized_ok args q)) (p :: ps)))).
  assert (Hsum : succeeded + failed = Z.of_nat (List.length (p :: ps))).
  { unfold succeeded, failed. rewrite <- Nat2Z.inj_add.
    f_equal. apply filter_partition_length. }
  assert (Hrun : exists dirs lines,
             main args
             = mkRun (Ok (if failed =? 0 then 0 else 1))
                 ([Line_Found (List.length (p :: ps));
                   Line_TargetSize (arg_width args) (arg_height args);
                   Line_MaintainAspect (negb (arg_no_aspect_ratio args));
                   Line_Quality (arg_quality args);
                   Line_Rule]
                  ++ lines
                  ++ [Line_Rule; Line_Complete succeeded failed]
                  ++ (if 0 <? succeeded
                      then [Line_SavedTo (arg_output args)] else []))
                 dirs /\
             Forall (fun l => match l with
                              | Line_SavedTo _ | Line_Complete _ _ => False
                              | _ => True
                              end) lines).
  { unfold main. rewrite Hpaths.
    destruct (main_loop_counts args (p :: ps) 1 (List.length (p :: ps)) 0 0)
      as [Hs He].
    assert (Hlines : forall paths i n s e,
              Forall (fun l => match l with
                               | Line_SavedTo _ | Line_Complete _ _ => False
                               | _ => True
                               end)
                     (snd (main_loop args paths i n s e))).
    { induction paths as [|q rest IH]; intros i n s e; [constructor|].
      rewrite main_loop_cons.
      destruct (resized_ok args q).
      - specialize (IH (S i) n (s + 1) e).
        destruct (main_loop args rest (S i) n (s + 1) e) as [[s' e'] lines].
        cbn [snd] in *. repeat constructor. exact IH.
      - specialize (IH (S i) n s (e + 1)).
        destruct (main_loop args rest (S i) n s (e + 1)) as [[s' e'] lines].
        cbn [snd] in *. repeat constructor. exact IH. }
    specialize (Hlines (p :: ps) 1%nat (List.length (p :: ps)) 0 0).
    destruct (main_loop args (p :: ps) 1 (List.length (p :: ps)) 0 0)
      as [[s e] lines].
    cbn [fst snd] in Hs, He, Hlines.
    assert (Es : s = succeeded) by (unfold succeeded; lia).
    assert (Ee : e = failed) by (unfold failed; lia).
    subst s e.
    destruct Hdir as [Hex|Hmk].
    - rewrite Hex. eexists _, lines. split; [reflexivity|exact Hlines].
    - destruct (path_exists (arg_output args)).
      + eexists _, lines. split; [reflexivity|exact Hlines].
      + rewrite Hmk. cbn [rbind]. eexists _, lines.
        split; [reflexivity|exact Hlines]. }
  destruct Hrun as (dirs & lines & Hrun & Hlines).
  rewrite Hrun. cbn [printed exit_status].
  split; [exact Hsum|]. split.
  { apply in_or_app. right. apply in_or_app. right.
    apply in_or_app. left. right. left. reflexivity. }
  split; [reflexivity|]. split.
  - rewrite <- filter_none_iff. split.
    + intros H. destruct (failed =? 0) eqn:Hf; [|discriminate].
      apply Z.eqb_eq in Hf. unfold failed in Hf.
      apply List.length_zero_iff_nil. lia.
    + intros H. unfold failed. rewrite H. reflexivity.
  - split.
    + intros Hin.
      apply in_app_or in Hin. destruct Hin as [Hin|Hin].
      { cbn in Hin. repeat (destruct Hin as [Hin|Hin]; [discriminate|]).
        contradiction. }
      apply in_app_or in Hin. destruct Hin as [Hin|Hin].
      { rewrite Forall_forall in Hlines. exact (False_ind _ (Hlines _ Hin)). }
      apply in_app_or in Hin. destruct Hin as [Hin|Hin].
      { cbn in Hin. repeat (destruct Hin as [Hin|Hin]; [discriminate|]).
        contradiction. }
      destruct (0 <? succeeded) eqn:Hpos; [apply Z.ltb_lt; exact Hpos|].
      contradiction.
    + intros Hpos. apply Z.ltb_lt in Hpos. rewrite Hpos.
      apply in_or_app. right. apply in_or_app. right.
      apply in_or_app. right. left. reflexivity.
Qed.


Lemma count_occ_flat_map_ge {A B} (dec : forall x y : B, {x = y} + {x <> y})
    (g : A -> list B) (xs : list A) (x : A) (y : B) :
  In x xs ->
  (count_occ dec (g x) y <= count_occ dec (flat_map g xs) y)%nat.
Proof.
  induction xs as [|a xs IH]; [contradiction|].
  intros [->|Hin]; cbn [flat_map]; rewrite count_occ_app; [lia|].
  specialize (IH Hin). lia.
Qed.

(** X25. Where [glob] does not tell upper from lower case (each upper-case
    pattern matching what the lower-case one matches, as on a
    case-insensitive file system), a directory input lists every matching
    image at least twice, so [main] resizes it at least twice. *)
Theorem directory_lists_matches_twice (args : Args) (ext p : string) :
  isdir (arg_input args) = true ->
  (forall e, In e image_patterns ->
     glob (join (arg_input args) (upper e)) = glob (join (arg_input args) e)) ->
  In ext image_patterns ->
  In p (glob (join (arg_input args) ext)) ->
  (2 <= count_occ string_dec (input_paths args) p)%nat.
Proof.
  intros Hdir Hcase Hext Hp.
  unfold input_paths. rewrite Hdir.
  pose proof (count_occ_flat_map_ge string_dec
                (fun e => glob (join (arg_input args) e)
                          ++ glob (join (arg_input args) (upper e)))
                image_patterns ext p Hext) as Hge.
  cbn beta in Hge. rewrite count_occ_app, (Hcase ext Hext) in Hge.
  apply (count_occ_In string_dec) in Hp. lia.
Qed.

(** X26. When the output directory is missing and cannot be created, the
    exception of [os.makedirs] leaves [main]: nothing has been printed and
    no image has been opened. *)
Theorem main_output_directory_failure (args : Args) (p : string)
    (ps : list string) (e : exn) :
  input_paths args = p :: ps ->
  path_exists (arg_output args) = false ->
  makedirs (arg_output args) = Raise e ->
  main args = mkRun (Raise e) [] [].
Proof.
  intros Hpaths Hmissing Hfail. unfold main.
  rewrite Hpaths, Hmissing, Hfail. reflexivity.
Qed.

Lemma main_resize_open_failure (args : Args) (p : string) (e : exn) :
  Image_open p = Raise e ->
  main_resize args p = (false, Some (exn_msg e)).
Proof.
  intros Hopen.
  unfold main_resize, resize_image, resize_image_body. rewrite Hopen.
  reflexivity.
Qed.

(** X27. An input that is neither a directory nor a wildcard pattern is
    taken as one file without looking whether it exists: [main] announces
    one image, calls [resize_image] on it and exits with 0 when that call
    succeeded.  When Pillow cannot open the file, a missing one for
    instance, [main] prints "Error:" with the message of the exception,
    counts one failure and exits with status 1. *)
Theorem main_single_file (args : Args) :
  isdir (arg_input args) = false ->
  contains "*" (arg_input args) = false ->
  contains "?" (arg_input args) = false ->
  path_exists (arg_output args) = true ->
  main args
  = mkRun (Ok (if resized_ok args (arg_input args) then 0 else 1))
      ([Line_Found 1;
        Line_TargetSize (arg_width args) (arg_height args);
        Line_MaintainAspect (negb (arg_no_aspect_ratio args));
        Line_Quality (arg_quality args);
        Line_Rule;
        Line_Processing 1 1 (basename (arg_input args));
        (if resized_ok args (arg_input args) then Line_Done
         else Line_Error (snd (main_resize args (arg_input args))));
        Line_Rule;
        (if resized_ok args (arg_input args) then Line_Complete 1 0
         else Line_Complete 0 1)]
       ++ (if resized_ok args (arg_input args)
           then [Line_SavedTo (arg_output args)] else []))
      [] /\
  (forall e,
     Image_open (arg_input args) = Raise e ->
     main args
     = mkRun (Ok 1)
         [Line_Found 1;
          Line_TargetSize (arg_width args) (arg_height args);
          Line_MaintainAspect (negb (arg_no_aspect_ratio args));
          Line_Quality (arg_quality args);
          Line_Rule;
          Line_Processing 1 1 (basename (arg_input args));
          Line_Error (Some (exn_msg e));
          Line_Rule;
          Line_Complete 0 1]
         []).
Proof.
  intros Hdir Hstar Hmark Hout.
  assert (Hrun : main args
    = mkRun (Ok (if resized_ok args (arg_input args) then 0 else 1))
        ([Line_Found 1;
          Line_TargetSize (arg_width args) (arg_height args);
          Line_MaintainAspect (negb (arg_no_aspect_ratio args));
          Line_Quality (arg_quality args);
          Line_Rule;
          Line_Processing 1 1 (basename (arg_input args));
          (if resized_ok args (arg_input args) then Line_Done
           else Line_Error (snd (main_resize args (arg_input args))));
          Line_Rule;
          (if resized_ok args (arg_input args) then Line_Complete 1 0
           else Line_Complete 0 1)]
         ++ (if resized_ok args (arg_input args)
             then [Line_SavedTo (arg_output args)] else []))
        []).
  { unfold main, input_paths.
    rewrite Hdir, Hstar, Hmark, Hout. cbn [orb].
    rewrite main_loop_cons. cbn [main_loop List.length].
    destruct (resized_ok args (arg_input args)); reflexivity. }
  split; [exact Hrun|].
  intros e Hopen. rewrite Hrun. unfold resized_ok.
  rewrite (main_resize_open_failure args (arg_input args) e Hopen).
  reflexivity.
Qed.

End CommandLine.

(** ** The further properties at concrete inputs *)

Local Abbreviation sample_update_preview :=
  (update_preview Sample.Picture Sample.pic_width Sample.pic_height
     Sample.open Sample.resize Sample.save_buffer Sample.ext_lower
     Sample.getsize).
Local Abbreviation sample_next :=
  (show_next_preview Sample.Picture Sample.pic_width Sample.pic_height
     Sample.open Sample.resize Sample.save_buffer Sample.ext_lower
     Sample.getsize).
Local Abbreviation sample_previous :=
  (show_previous_preview Sample.Picture Sample.pic_width Sample.pic_height
     Sample.open Sample.resize Sample.save_buffer Sample.ext_lower
     Sample.getsize).
Local Abbreviation sample_size_estimate :=
  (update_file_size_estimate Sample.Picture Sample.pic_width
     Sample.pic_height Sample.resize Sample.save_buffer Sample.ext_lower).
Local Abbreviation sample_select_images :=
  (select_images Sample.Picture Sample.pic_width Sample.pic_height
     Sample.open Sample.resize Sample.save_buffer Sample.ext_lower
     Sample.getsize).

Local Abbreviation sample_estimate_of a img :=
  (fun c : Z * Z * Z =>
     estimate Sample.Picture Sample.pic_width Sample.pic_height Sample.resize
       Sample.save_buffer Sample.ext_lower img (input_files a)
       (current_preview_index a) (maintain_aspect_ratio a)
       (fst (fst c)) (snd (fst c)) (snd c)).

Lemma update_preview_without_estimate_witness :
  let b := Sample.app "wide.jpg" Sample.wide true (Some (of_int 600)) (400, 210) in
  estimator_calls (snd (sample_update_preview b)) = estimator_calls b /\
  file_size_label (snd (sample_update_preview b)) = file_size_label b.
Proof.
  apply (update_preview_without_estimate Sample.Picture Sample.pic_width
           Sample.pic_height Sample.open Sample.resize Sample.save_buffer
           Sample.ext_lower Sample.getsize
           (Sample.app "wide.jpg" Sample.wide true (Some (of_int 600)) (400, 210)));
    left; reflexivity.
Defined.

Lemma navigation_stays_in_range_witness :
  let b := SampleOS.two_files true 1 in
  (fst (sample_next b) = Ok tt /\
   input_files (snd (sample_next b)) = input_files b /\
   current_preview_index (snd (sample_next b))
   = wrap_index (current_preview_index b) 1 (List.length (input_files b)) /\
   (current_preview_index (snd (sample_next b))
    < List.length (input_files b))%nat) /\
  (fst (sample_previous b) = Ok tt /\
   input_files (snd (sample_previous b)) = input_files b /\
   current_preview_index (snd (sample_previous b))
   = wrap_index (current_preview_index b) (-1) (List.length (input_files b)) /\
   (current_preview_index (snd (sample_previous b))
    < List.length (input_files b))%nat).
Proof.
  apply (navigation_stays_in_range Sample.Picture Sample.pic_width
           Sample.pic_height Sample.open Sample.resize Sample.save_buffer
           Sample.ext_lower Sample.getsize (SampleOS.two_files true 1)
           "wide.jpg" ["square.png"%string]);
    reflexivity.
Defined.

Lemma next_and_previous_cancel_witness :
  let b := SampleOS.two_files true 1 in
  current_preview_index (snd (sample_previous (snd (sample_next b))))
  = current_preview_index b /\
  current_preview_index (snd (sample_next (snd (sample_previous b))))
  = current_preview_index b.
Proof.
  apply (next_and_previous_cancel Sample.Picture Sample.pic_width
           Sample.pic_height Sample.open Sample.resize Sample.save_buffer
           Sample.ext_lower Sample.getsize (SampleOS.two_files true 1));
    simpl; lia.
Defined.

Lemma size_estimate_needs_both_entries_witness :
  let b := Sample.with_box None (Some 600)
             (Sample.app "wide.jpg" Sample.wide true None (400, 210)) in
  sample_size_estimate b = (Ok tt, set_file_size_label None b).
Proof.
  apply (size_estimate_needs_both_entries Sample.Picture Sample.pic_width
           Sample.pic_height Sample.resize Sample.save_buffer Sample.ext_lower
           (Sample.with_box None (Some 600)
              (Sample.app "wide.jpg" Sample.wide true None (400, 210))));
    left; reflexivity.
Defined.

Lemma size_estimate_outcome_witness :
  let b := Sample.app "wide.jpg" Sample.wide true None (400, 210) in
  sample_size_estimate b
  = match Sample.estimate_on b Sample.wide 800 600 with
    | Ok size_kb =>
        (Ok tt,
         set_file_size_label (Some size_kb) (record_call (800, 600, 85) b))
    | Raise e =>
        if is_value_or_attribute_error e
        then (Ok tt, set_file_size_label None (record_call (800, 600, 85) b))
        else (Raise e, record_call (800, 600, 85) b)
    end.
Proof.
  apply (size_estimate_outcome Sample.Picture Sample.pic_width
           Sample.pic_height Sample.resize Sample.save_buffer Sample.ext_lower
           (Sample.app "wide.jpg" Sample.wide true None (400, 210))
           Sample.wide 800 600);
    reflexivity.
Defined.

Lemma calculate_dimensions_not_ready_witness :
  let b := Sample.app "wide.jpg" Sample.wide true None (400, 210) in
  Sample.calculate b = (Ok tt, show Error_InvalidInput b).
Proof.
  apply (calculate_dimensions_not_ready Sample.Picture Sample.pic_width
           Sample.pic_height Sample.open Sample.resize Sample.save_buffer
           Sample.ext_lower Sample.getsize
           (Sample.app "wide.jpg" Sample.wide true None (400, 210)));
    right; right; reflexivity.
Defined.

(** A 1x49 image with the aspect ratio kept: the very first estimate asks
    Pillow for a width of [int(49 * (1 / 49)) = 0]. *)
Lemma calculate_dimensions_probe_failure_witness :
  let b := Sample.app "tall.jpg" SampleOS.slim true (Some (of_int 600)) (400, 210) in
  let e := mk_exn ValueError "height and width must be > 0" in
  Sample.calculate b
  = (if is_value_error e
     then (Ok tt, show Error_InvalidInput (record_call (1, 49, 85) b))
     else (Raise e, record_call (1, 49, 85) b))
  /\ width_var (snd (Sample.calculate b)) = width_var b
  /\ height_var (snd (Sample.calculate b)) = height_var b.
Proof.
  apply (calculate_dimensions_probe_failure Sample.Picture Sample.pic_width
           Sample.pic_height Sample.open Sample.resize Sample.save_buffer
           Sample.ext_lower Sample.getsize
           (Sample.app "tall.jpg" SampleOS.slim true (Some (of_int 600)) (400, 210))
           SampleOS.slim "tall.jpg" [] (of_int 600)
           (mk_exn ValueError "height and width must be > 0"));
    [reflexivity|reflexivity|reflexivity
    |vm_compute; reflexivity|vm_compute; reflexivity].
Defined.

Lemma batch_free_aspect_sizes_witness :
  let batch := SampleOS.worker 800 600 (SampleOS.two_files false 0) in
  batch_written batch
  = [("wide.jpg"%string, (800, 600)); ("square.png"%string, (800, 600))] /\
  Forall (fun e : string * (Z * Z) => snd e = (800, 600)) (batch_written batch).
Proof.
  split; [vm_compute; reflexivity|].
  apply (batch_free_aspect_sizes Sample.Picture Sample.pic_width
           Sample.pic_height SampleOS.open Sample.resize Sample.save
           Sample.ext_lower Sample.getsize SampleOS.resized_path
           SampleOS.print_log (SampleOS.two_files false 0) 800 600);
    reflexivity.
Defined.

(** On a terminal that cannot print the arrow of the log line, both files
    are written and counted, and both get an error callback. *)
Example log_line_failure_is_counted_and_reported :
  let batch := SampleOS.worker_cp1252 800 600 (SampleOS.two_files false 0) in
  let e := mk_exn ValueError
             "'charmap' codec can't encode character '\u2192'" in
  batch_processed batch = 2 /\
  batch_written batch
  = [("wide.jpg"%string, (800, 600)); ("square.png"%string, (800, 600))] /\
  batch_scheduled batch
  = [Scheduled_ProcessingError e; Scheduled_ProcessingError e;
     Scheduled_Complete 2 2].
Proof. conjuncts; evaluate. Qed.

Lemma estimate_never_upscales_witness :
  estimate_dimensions Sample.Picture Sample.pic_width Sample.pic_height
    Sample.wide false 5000 5000 = Ok (2000, 1000) /\
  2000 <= Sample.pic_width Sample.wide /\
  1000 <= Sample.pic_height Sample.wide.
Proof.
  split; [vm_compute; reflexivity|].
  apply (estimate_never_upscales Sample.Picture Sample.pic_width
           Sample.pic_height Sample.wide false 5000 5000 2000 1000);
    vm_compute; reflexivity.
Defined.

Lemma estimate_saturates_at_original_witness :
  estimate Sample.Picture Sample.pic_width Sample.pic_height Sample.resize
    Sample.save_buffer Sample.ext_lower Sample.square
    ["square.png"%string] 0 false 200 200 85
  = estimate Sample.Picture Sample.pic_width Sample.pic_height Sample.resize
      Sample.save_buffer Sample.ext_lower Sample.square
      ["square.png"%string] 0 false
      (Sample.pic_width Sample.square) (Sample.pic_height Sample.square) 85.
Proof.
  apply (estimate_saturates_at_original Sample.Picture Sample.pic_width
           Sample.pic_height Sample.resize Sample.save_buffer Sample.ext_lower
           Sample.square ["square.png"%string] 0 200 200 85);
    simpl; lia.
Defined.

Lemma selection_enables_processing_witness :
  let b := Sample.app "tiny.jpg" Sample.tiny true None (400, 210) in
  let ready :=
    snd (select_output_dir Sample.Picture "resized"
           (snd (sample_select_images
                   ["wide.jpg"%string; "square.png"%string] b))) in
  Sample.process ready
  = match width_var b, height_var b with
    | Some w, Some h =>
        if (w <=? 0) || (h <=? 0)
        then (Ok None, show Error_InvalidSize_Positive ready)
        else (Ok (Some (w, h)), ready)
    | _, _ => (Ok None, show Error_InvalidSize_Number ready)
    end.
Proof.
  apply (selection_enables_processing Sample.Picture Sample.pic_width
           Sample.pic_height Sample.open Sample.resize Sample.save_buffer
           Sample.ext_lower Sample.getsize
           (Sample.app "tiny.jpg" Sample.tiny true None (400, 210))
           "wide.jpg" ["square.png"%string] "resized");
    discriminate.
Defined.


Lemma search_returns_closest_trial_witness :
  let a := Sample.app "wide.jpg" SampleOS.panorama true (Some (of_int 100))
             (400, 210) in
  exists trials,
    (List.length trials = 10%nat /\
     all_estimated (sample_estimate_of a SampleOS.panorama) trials /\
     exists rest new_width new_height,
       width_var (snd (Sample.calculate a)) = Some new_width /\
       height_var (snd (Sample.calculate a)) = Some new_height /\
       estimator_calls (snd (Sample.calculate a))
       = estimator_calls a ++ (3000, 200, 85) :: trials ++ rest /\
       ((In (new_width, new_height, 85) trials /\
         exists best_kb,
           Sample.estimate_on a SampleOS.panorama new_width new_height
           = Ok best_kb /\
           forall c kb, In c trials ->
             sample_estimate_of a SampleOS.panorama c = Ok kb ->
             ltb (distance (of_int 100) kb) (distance (of_int 100) best_kb)
             = false) \/
        (candidate 3000 200 85 lit_0_5 = Some (new_width, new_height, 85) /\
         forall c kb, In c trials ->
           sample_estimate_of a SampleOS.panorama c = Ok kb ->
           ltb (distance (of_int 100) kb) inf = false))) \/
    (search_aborted (sample_estimate_of a SampleOS.panorama) (3000, 200, 85)
       trials a (Sample.calculate a) /\
     width_var (snd (Sample.calculate a)) = width_var a /\
     height_var (snd (Sample.calculate a)) = height_var a).
Proof.
  apply (search_returns_closest_trial Sample.Picture Sample.pic_width
           Sample.pic_height Sample.open Sample.resize Sample.save_buffer
           Sample.ext_lower Sample.getsize
           (Sample.app "wide.jpg" SampleOS.panorama true (Some (of_int 100))
              (400, 210))
           SampleOS.panorama "wide.jpg" [] (of_int 100)
           (S754_finite false 5159114715955200 (-43)));
    [reflexivity|reflexivity|reflexivity|vm_compute; reflexivity
    |split; reflexivity|split; reflexivity
    |vm_compute; reflexivity|vm_compute; reflexivity].
Defined.

Lemma calculated_dimensions_are_accepted_witness :
  let a := Sample.app "wide.jpg" SampleOS.panorama true (Some (of_int 100))
             (400, 210) in
  exists trials,
    (List.length trials = 10%nat /\
     all_estimated (sample_estimate_of a SampleOS.panorama) trials /\
     exists new_width new_height,
       width_var (snd (Sample.calculate a)) = Some new_width /\
       height_var (snd (Sample.calculate a)) = Some new_height /\
       10 <= new_width /\ 10 <= new_height /\
       Sample.process (snd (Sample.calculate a))
       = (Ok (Some (new_width, new_height)), snd (Sample.calculate a))) \/
    (search_aborted (sample_estimate_of a SampleOS.panorama) (3000, 200, 85)
       trials a (Sample.calculate a) /\
     width_var (snd (Sample.calculate a)) = width_var a /\
     height_var (snd (Sample.calculate a)) = height_var a).
Proof.
  apply (calculated_dimensions_are_accepted Sample.Picture Sample.pic_width
           Sample.pic_height Sample.open Sample.resize Sample.save_buffer
           Sample.ext_lower Sample.getsize
           (Sample.app "wide.jpg" SampleOS.panorama true (Some (of_int 100))
              (400, 210))
           SampleOS.panorama "wide.jpg" [] (of_int 100)
           (S754_finite false 5159114715955200 (-43)));
    [reflexivity|reflexivity|discriminate|reflexivity|vm_compute; reflexivity
    |split; reflexivity|split; reflexivity
    |vm_compute; reflexivity|vm_compute; reflexivity].
Defined.

(** The claims on the search, on a 3000x200 image with the aspect ratio
    kept: an estimate at 10x10 raises, the probe (586.5 KB) is above the
    target of 100 KB, the ten trials of the search all succeed and
    (1242, 82) is stored. *)
Example search_on_panorama :
  let a := Sample.app "wide.jpg" SampleOS.panorama true (Some (of_int 100))
             (400, 210) in
  Sample.estimate_on a SampleOS.panorama 10 10
  = Raise (mk_exn ValueError "height and width must be > 0") /\
  width_var (snd (Sample.calculate a)) = Some 1242 /\
  height_var (snd (Sample.calculate a)) = Some 82 /\
  List.length (estimator_calls (snd (Sample.calculate a))) = 14%nat.
Proof. conjuncts; evaluate. Qed.

(** A 1000x1 image with the aspect ratio kept and a target of 0.01 KB: the
    probe succeeds above the target, the first trial asks for (505, 10),
    the estimator computes a height of [int(505 / 1000.0) = 0] and
    Pillow refuses it.  One call follows the probe, "Please enter a valid
    number for target size." is shown and the entries keep 800 and 600. *)
Example search_stops_at_failing_estimate :
  let a := Sample.app "strip.jpg" Sample.strip true (Some lit_0_01)
             (400, 210) in
  Sample.calculate a
  = (Ok tt,
     show Error_InvalidInput
       (record_calls [(1000, 1, 85); (505, 10, 85)] a)) /\
  width_var (snd (Sample.calculate a)) = Some 800 /\
  height_var (snd (Sample.calculate a)) = Some 600.
Proof. conjuncts; evaluate. Qed.

Lemma search_ten_calls_then_report_witness :
  let a := Sample.app "wide.jpg" SampleOS.panorama true (Some (of_int 100))
             (400, 210) in
  exists trials,
    (1 <= List.length trials <= 10)%nat /\
    ((List.length trials = 10%nat /\
      all_estimated (sample_estimate_of a SampleOS.panorama) trials /\
      exists refresh new_width new_height,
        estimator_calls (snd (Sample.calculate a))
        = estimator_calls a
          ++ (3000, 200, 85) :: trials
          ++ refresh ++ [(new_width, new_height, 85)] /\
        (List.length refresh <= 2)%nat /\
        width_var (snd (Sample.calculate a)) = Some new_width /\
        height_var (snd (Sample.calculate a)) = Some new_height) \/
     (search_aborted (sample_estimate_of a SampleOS.panorama) (3000, 200, 85)
        trials a (Sample.calculate a) /\
      estimator_calls (snd (Sample.calculate a))
      = estimator_calls a ++ (3000, 200, 85) :: trials /\
      width_var (snd (Sample.calculate a)) = width_var a /\
      height_var (snd (Sample.calculate a)) = height_var a)).
Proof.
  apply (search_ten_calls_then_report Sample.Picture Sample.pic_width
           Sample.pic_height Sample.open Sample.resize Sample.save_buffer
           Sample.ext_lower Sample.getsize
           (Sample.app "wide.jpg" SampleOS.panorama true (Some (of_int 100))
              (400, 210))
           SampleOS.panorama "wide.jpg" [] (of_int 100)
           (S754_finite false 5159114715955200 (-43)));
    [reflexivity|reflexivity|reflexivity|vm_compute; reflexivity
    |split; reflexivity|split; reflexivity
    |vm_compute; reflexivity|vm_compute; reflexivity].
Defined.

Lemma result_within_original_or_floor_witness :
  let a := Sample.app "wide.jpg" SampleOS.panorama true (Some (of_int 100))
             (400, 210) in
  let probe := Sample.estimate_on a SampleOS.panorama 3000 200 in
  let a' := snd (Sample.calculate a) in
  (exists initial,
     probe = Ok initial /\ leb initial (of_int 100) = true /\
     width_var a' = Some 3000 /\ height_var a' = Some 200) \/
  (exists initial new_width new_height,
     probe = Ok initial /\ leb initial (of_int 100) = false /\
     width_var a' = Some new_width /\
     height_var a' = Some new_height /\
     new_width <= Z.max 10 3000 /\
     new_height <= Z.max 10 200 /\
     (10 <= 3000 -> new_width <= 3000) /\
     (10 <= 200 -> new_height <= 200)) \/
  (((exists e, probe = Raise e) \/
    (exists initial trials,
       probe = Ok initial /\ leb initial (of_int 100) = false /\
       search_aborted (sample_estimate_of a SampleOS.panorama)
         (3000, 200, 85) trials a (Sample.calculate a))) /\
   width_var a' = width_var a /\
   height_var a' = height_var a).
Proof.
  apply (result_within_original_or_floor Sample.Picture Sample.pic_width
           Sample.pic_height Sample.open Sample.resize Sample.save_buffer
           Sample.ext_lower Sample.getsize
           (Sample.app "wide.jpg" SampleOS.panorama true (Some (of_int 100))
              (400, 210))
           SampleOS.panorama "wide.jpg" [] (of_int 100));
    [reflexivity|reflexivity|reflexivity|vm_compute; reflexivity
    |split; reflexivity|split; reflexivity].
Defined.

Lemma search_respects_floor_witness :
  let a := Sample.app "wide.jpg" SampleOS.panorama true (Some (of_int 100))
             (400, 210) in
  let probe_call := (3000, 200, 85) in
  let probe := Sample.estimate_on a SampleOS.panorama 3000 200 in
  let a' := snd (Sample.calculate a) in
  (exists initial,
     probe = Ok initial /\ leb initial (of_int 100) = true /\
     width_var a' = Some 3000 /\ height_var a' = Some 200 /\
     estimator_calls a' = estimator_calls a ++ [probe_call]) \/
  (exists initial trials rest,
     probe = Ok initial /\ leb initial (of_int 100) = false /\
     estimator_calls a' = estimator_calls a ++ probe_call :: trials ++ rest /\
     (1 <= List.length trials <= 10)%nat /\
     Forall (floored_call 85) trials /\
     ((List.length trials = 10%nat /\
       all_estimated (sample_estimate_of a SampleOS.panorama) trials /\
       exists new_width new_height,
         width_var a' = Some new_width /\
         height_var a' = Some new_height /\
         10 <= new_width /\ 10 <= new_height) \/
      (rest = [] /\
       search_aborted (sample_estimate_of a SampleOS.panorama) probe_call
         trials a (Sample.calculate a) /\
       width_var a' = width_var a /\
       height_var a' = height_var a))) \/
  (exists e,
     probe = Raise e /\
     width_var a' = width_var a /\
     height_var a' = height_var a /\
     estimator_calls a' = estimator_calls a ++ [probe_call]).
Proof.
  apply (search_respects_floor Sample.Picture Sample.pic_width
           Sample.pic_height Sample.open Sample.resize Sample.save_buffer
           Sample.ext_lower Sample.getsize
           (Sample.app "wide.jpg" SampleOS.panorama true (Some (of_int 100))
              (400, 210))
           SampleOS.panorama "wide.jpg" [] (of_int 100));
    [reflexivity|reflexivity|reflexivity|vm_compute; reflexivity
    |split; reflexivity|split; reflexivity].
Defined.

Lemma main_without_input_witness :
  SampleOS.run_main SampleOS.no_match_args = mkRun (Ok 1) [Line_NoInput] [].
Proof.
  apply (main_without_input Sample.Picture Sample.pic_width Sample.pic_height
           SampleOS.open Sample.resize Sample.save Sample.ext_lower
           SampleOS.isdir SampleOS.glob SampleOS.path_exists SampleOS.makedirs
           SampleOS.join SampleOS.basename SampleOS.splitext
           SampleOS.no_match_args);
    vm_compute; reflexivity.
Defined.

Lemma main_output_directory_failure_witness :
  SampleOS.run_main SampleOS.unwritable_args
  = mkRun (Raise (mk_exn OSError "Permission denied")) [] [].
Proof.
  apply (main_output_directory_failure Sample.Picture Sample.pic_width
           Sample.pic_height SampleOS.open Sample.resize Sample.save
           Sample.ext_lower SampleOS.isdir SampleOS.glob SampleOS.path_exists
           SampleOS.makedirs SampleOS.join SampleOS.basename SampleOS.splitext
           SampleOS.unwritable_args "photos/wide.jpg" []
           (mk_exn OSError "Permission denied"));
    vm_compute; reflexivity.
Defined.

Lemma main_single_file_witness :
  SampleOS.run_main SampleOS.missing_file_args
  = mkRun (Ok 1)
      [Line_Found 1; Line_TargetSize 800 600; Line_MaintainAspect true;
       Line_Quality 85; Line_Rule; Line_Processing 1 1 "missing.jpg";
       Line_Error (Some "No such file or directory"%string); Line_Rule;
       Line_Complete 0 1]
      [].
Proof.
  refine (proj2 (main_single_file Sample.Picture Sample.pic_width
                   Sample.pic_height SampleOS.open Sample.resize Sample.save
                   Sample.ext_lower SampleOS.isdir SampleOS.glob
                   SampleOS.path_exists SampleOS.makedirs SampleOS.join
                   SampleOS.basename SampleOS.splitext
                   SampleOS.missing_file_args _ _ _ _)
            (mk_exn OSError "No such file or directory") _);
    vm_compute; reflexivity.
Defined.

Lemma main_summary_witness :
  let args := SampleOS.directory_args in
  let paths := ["photos/wide.jpg"; "photos/wide.jpg";
                "photos/square.png"; "photos/square.png"]%string in
  let succeeded :=
    Z.of_nat (List.length (filter (SampleOS.ok_on args) paths)) in
  let failed :=
    Z.of_nat (List.length
                (filter (fun q => negb (SampleOS.ok_on args q)) paths)) in
  succeeded + failed = Z.of_nat (List.length paths) /\
  In (Line_Complete succeeded failed) (printed (SampleOS.run_main args)) /\
  exit_status (SampleOS.run_main args) = Ok (if failed =? 0 then 0 else 1) /\
  (exit_status (SampleOS.run_main args) = Ok 0 <->
   Forall (fun q => SampleOS.ok_on args q = true) paths) /\
  (In (Line_SavedTo (arg_output args)) (printed (SampleOS.run_main args)) <->
   0 < succeeded).
Proof.
  apply (main_summary Sample.Picture Sample.pic_width Sample.pic_height
           SampleOS.open Sample.resize Sample.save Sample.ext_lower
           SampleOS.isdir SampleOS.glob SampleOS.path_exists SampleOS.makedirs
           SampleOS.join SampleOS.basename SampleOS.splitext
           SampleOS.directory_args "photos/wide.jpg"
           ["photos/wide.jpg"; "photos/square.png"; "photos/square.png"]%string);
    [vm_compute; reflexivity|left; vm_compute; reflexivity].
Defined.

Lemma directory_lists_matches_twice_witness :
  (2 <= count_occ string_dec (SampleOS.paths_of SampleOS.directory_args)
          "photos/wide.jpg"%string)%nat.
Proof.
  apply (directory_lists_matches_twice SampleOS.isdir SampleOS.glob
           SampleOS.join SampleOS.directory_args "*.jpg" "photos/wide.jpg");
    [reflexivity
    |intros e He; simpl in He;
     repeat (destruct He as [<-|He]; [vm_compute; reflexivity|]);
     contradiction
    |left; reflexivity
    |left; reflexivity].
Defined.
